(** * Price prediction page of the used-vehicle dashboard

    A shallow embedding of [pages/price_prediction.py] (training, inference,
    price band, similar listings), of the part of [utils/data_loader.py] that
    derives [mileage_avg], and of the in-place column rewrite done by
    [pages/market_overview.py].

    Python objects that are shared between callers (pandas tables) live in a
    store and are passed by reference; Streamlit calls are recorded on a
    screen log; exceptions are values.  Numbers are rationals; where the
    code computes with floats and the rounding shows (the price range, the
    average of the odometer readings) the binary64 rounding is written out,
    and so is the wrap-around of an [int64] sum.  Infinities are not part of
    the model. *)

From Stdlib Require Import QArith Qround Qabs Qpower Lqa Floats.
From stdpp Require Import base option list sorting strings gmap.

Local Open Scope string_scope.

(** ** Python scalars and pandas tables *)

(** A cell of a table, or a widget value: missing ([NaN]/[None]), a number,
    or a string. *)
Inductive scalar : Type :=
  | NaN
  | Num (q : Q)
  | Str (s : string).

(** pandas column types: [int64]/[float64] columns are [numeric], columns
    holding Python strings are [object]. *)
Inductive dtype : Type := numeric | object.

Global Instance dtype_eq_dec : EqDecision dtype.
Proof. solve_decision. Defined.

Record Series : Type := mkSeries {
  s_dtype : dtype;
  s_values : list scalar
}.

(** A table keeps its column index (names, in order, with their types) and
    its rows in positional order. *)
Record DataFrame : Type := mkDataFrame {
  columns : list (string * dtype);
  rows : list (gmap string scalar)
}.

Definition column_names (d : DataFrame) : list string := (columns d).*1.

(** [c in df.columns] *)
Definition has_column (d : DataFrame) (c : string) : bool :=
  bool_decide (c ∈ column_names d).

(** [pd.notna(x)] *)
Definition notna (x : scalar) : bool :=
  match x with NaN => false | _ => true end.

(** The cell of row [r] under column [c]; a row that carries no entry for a
    column reads as missing. *)
Definition cell (r : gmap string scalar) (c : string) : scalar :=
  default NaN (r !! c).

(** [len(df)] *)
Definition len (d : DataFrame) : nat := length (rows d).

(** [df.empty] *)
Definition empty_frame (d : DataFrame) : bool :=
  match rows d, columns d with
  | [], _ | _, [] => true
  | _, _ => false
  end.

(** ** Machine numbers *)

Definition pow2 (e : Z) : Q := (2 ^ e)%Q.

(** The exponent of a number other than 0: [2^e <= |q| < 2^(e+1)]. *)
Definition ilog2 (q : Q) : Z :=
  let e := (Z.log2 (Z.abs (Qnum q)) - Z.log2 (Zpos (Qden q)))%Z in
  if Qle_bool (pow2 e) (Qabs q) then e else (e - 1)%Z.

(** The nearest whole number, a tie going to the even one. *)
Definition round_half_even (x : Q) : Z :=
  let f := Qfloor x in
  match (x - inject_Z f ?= 1 # 2)%Q with
  | Lt => f
  | Gt => (f + 1)%Z
  | Eq => if Z.even f then f else (f + 1)%Z
  end.

(** The binary64 number nearest to [q], a tie going to the even significand:
    53 significant bits, and no bit below 2^-1074 (the subnormal numbers).
    Numbers too large for binary64, which round to an infinity, are outside
    the model. *)
Definition round64 (q : Q) : Q :=
  if Qeq_bool q 0 then 0%Q
  else
    let e := Z.max (ilog2 q - 52) (-1074) in
    Qred (inject_Z (round_half_even (q / pow2 e)) * pow2 e).

(** [x + y], [x - y], [x * y] and [x / y] on floats: the exact result,
    rounded once. *)
Definition float_add (x y : Q) : Q := round64 (x + y).
Definition float_sub (x y : Q) : Q := round64 (x - y).
Definition float_mul (x y : Q) : Q := round64 (x * y).
Definition float_div (x y : Q) : Q := round64 (x / y).

(** The floats of Rocq's kernel compute in IEEE 754 binary64; they serve to
    check [round64] on examples.  [float_value] is the number a finite float
    stands for, [float_of] the float of a small whole number. *)
Definition float_value (x : float) : Q :=
  match Prim2SF x with
  | S754_finite s m e =>
      Qred ((if s then -1 else 1) * inject_Z (Zpos m) * pow2 e)
  | _ => 0%Q
  end.

Definition float_of (n : Z) : float := PrimFloat.of_uint63 (Uint63.of_Z n).

(** An [int64] result: kept modulo 2^64 in the range from -2^63 to 2^63 - 1. *)
Definition wrap64 (z : Z) : Z := ((z + 2 ^ 63) mod 2 ^ 64 - 2 ^ 63)%Z.

(** The whole number [q] is, if it is one. *)
Definition whole (q : Q) : option Z :=
  let r := Qred q in
  if (Zpos (Qden r) =? 1)%Z then Some (Qnum r) else None.

(** ** Exceptions, the screen and the store *)

Inductive exn : Type :=
  | KeyError (key : string)
  | ValueError (what : string)
  | TypeError
  | AttributeError
  | IndexError
  | LibraryError (what : string).

Inductive level : Type := st_warning | st_error | st_info | st_success | st_write.

(** What a Streamlit call shows, kept structured instead of formatted. *)
Inductive text : Type :=
  | MissingFeatures (vehicle_type : string) (missing : list string)
  | InsufficientData (vehicle_type : string) (n : nat)
  | UnknownCategory (feature : string) (value : scalar)
  | ErrorInModelTraining (e : exn)
  | ErrorInDataPreparation (e : exn)
  | ErrorInPrediction (e : exn)
  | FailedToInitialize
  | Accuracy (train_score test_score : Q)
  | EstimatedPrice (p : Q)
  | SuggestedPriceRange (lower_bound upper_bound : Q)
  | SimilarListings (display_df : DataFrame)
  | NoSimilarListings
  | FeatureImportance (features : list string)
  | FailedToLoadCarData (e : exn).

Record world : Type := mkWorld {
  heap : gmap nat DataFrame;     (* table objects, by reference *)
  screen : list (level * text);  (* Streamlit output, oldest first *)
  entropy : nat                  (* state of the unseeded global generator *)
}.

(** Computations that read and write the world and may raise. *)
Definition py (A : Type) : Type := world → (exn + A) * world.

Global Instance py_ret : MRet py := λ A a w, (inr a, w).
Global Instance py_bind : MBind py := λ A B f m w,
  match m w with
  | (inr a, w') => f a w'
  | (inl e, w') => (inl e, w')
  end.

Definition raise {A} (e : exn) : py A := λ w, (inl e, w).

(** Lift a library call that either raises or returns. *)
Definition lift {A} (r : exn + A) : py A :=
  match r with inl e => raise e | inr a => mret a end.

(** [try: body / except <filter> as e: handler e]; the handler is chosen by
    [catches], an exception it declines propagates. *)
Definition try_except {A} (body : py A) (catches : exn → bool)
    (handler : exn → py A) : py A := λ w,
  match body w with
  | (inl e, w') => if catches e then handler e w' else (inl e, w')
  | ok => ok
  end.

Definition is_Exception (e : exn) : bool := true.
Definition is_ValueError (e : exn) : bool :=
  match e with ValueError _ => true | _ => false end.

Definition show (l : level) (t : text) : py unit := λ w,
  (inr (), mkWorld (heap w) (screen w ++ [(l, t)]) (entropy w)).

(** Allocate a new table object. *)
Definition new_frame (d : DataFrame) : py nat := λ w,
  let l := fresh (dom (heap w)) in
  (inr l, mkWorld (<[l := d]> (heap w)) (screen w) (entropy w)).

(** Read the table a reference points to. *)
Definition deref (l : nat) : py DataFrame := λ w,
  match heap w !! l with
  | Some d => (inr d, w)
  | None => (inl (LibraryError "dangling reference"), w)
  end.

(** Overwrite, in place, the table a reference points to. *)
Definition update_frame (l : nat) (d : DataFrame) : py unit := λ w,
  (inr (), mkWorld (<[l := d]> (heap w)) (screen w) (entropy w)).

(** Draw from the unseeded generator. *)
Definition draw : py nat := λ w,
  (inr (entropy w), mkWorld (heap w) (screen w) (S (entropy w))).

(** ** pandas operations *)

(** [df[c]] *)
Definition getitem (d : DataFrame) (c : string) : exn + Series :=
  match list_find (λ cd, cd.1 = c) (columns d) with
  | Some (_, (_, t)) => inr (mkSeries t (map (λ r, cell r c) (rows d)))
  | None => inl (KeyError c)
  end.

(** [df.copy()] *)
Definition copy (l : nat) : py nat := d ← deref l; new_frame d.

(** [df.dropna(subset=cols)]: a new table without the rows that miss a value
    in one of [cols]. *)
Definition complete_on (cols : list string) (r : gmap string scalar) : bool :=
  forallb (λ c, notna (cell r c)) cols.

Definition dropna_frame (cols : list string) (d : DataFrame) : exn + DataFrame :=
  match list_find (λ c, negb (has_column d c)) cols with
  | Some (_, c) => inl (KeyError c)
  | None => inr (mkDataFrame (columns d) (List.filter (complete_on cols) (rows d)))
  end.

Definition dropna (l : nat) (cols : list string) : py nat :=
  d ← deref l; d' ← lift (dropna_frame cols d); new_frame d'.

(** [df[c] = s]: the column is replaced in place (appended when new). *)
Fixpoint set_dtype (c : string) (t : dtype) (cs : list (string * dtype)) :
    list (string * dtype) :=
  match cs with
  | [] => [(c, t)]
  | (c', t') :: cs' =>
      if decide (c' = c) then (c, t) :: cs' else (c', t') :: set_dtype c t cs'
  end.

Definition setitem_frame (d : DataFrame) (c : string) (s : Series) : exn + DataFrame :=
  if decide (length (s_values s) = length (rows d)) then
    inr (mkDataFrame (set_dtype c (s_dtype s) (columns d))
           (zip_with (λ r v, <[c := v]> r) (rows d) (s_values s)))
  else inl (ValueError "Length of values does not match length of index").

Definition setitem (l : nat) (c : string) (s : Series) : py unit :=
  d ← deref l; d' ← lift (setitem_frame d c s); update_frame l d'.

(** [df[cols]] with a list of names: a new table restricted to [cols]. *)
Definition select_frame (d : DataFrame) (cols : list string) : exn + DataFrame :=
  match list_find (λ c, negb (has_column d c)) cols with
  | Some (_, c) => inl (KeyError c)
  | None =>
      inr (mkDataFrame
             (omap (λ c, list_find (λ cd, cd.1 = c) (columns d) ≫= λ x, Some x.2) cols)
             (map (λ r, filter (λ kv, kv.1 ∈ cols) r) (rows d)))
  end.

(** [df[mask]] with a boolean series. *)
Fixpoint select_rows {A} (mask : list bool) (l : list A) : list A :=
  match mask, l with
  | b :: mask', x :: l' => if b then x :: select_rows mask' l' else select_rows mask' l'
  | _, _ => []
  end.

Definition where_frame (d : DataFrame) (mask : list bool) : DataFrame :=
  mkDataFrame (columns d) (select_rows mask (rows d)).

(** [df.head(n)] *)
Definition head_frame (n : nat) (d : DataFrame) : DataFrame :=
  mkDataFrame (columns d) (take n (rows d)).

(** [s == x], elementwise; a missing cell equals nothing. *)
Definition scalar_eqb (x y : scalar) : bool :=
  match x, y with
  | Num p, Num q => Qeq_bool p q
  | Str s, Str t => bool_decide (s = t)
  | _, _ => false
  end.

Definition series_eq (s : Series) (x : scalar) : list bool :=
  map (λ v, scalar_eqb v x) (s_values s).

(** [s.between(lo, hi)], both ends included; a missing cell is outside, a
    string cannot be ordered against a number. *)
Definition between1 (lo hi : Q) (v : scalar) : exn + bool :=
  match v with
  | NaN => inr false
  | Num q => inr (Qle_bool lo q && Qle_bool q hi)
  | Str _ => inl TypeError
  end.

Fixpoint map_or_raise {A B} (f : A → exn + B) (l : list A) : exn + list B :=
  match l with
  | [] => inr []
  | x :: l' =>
      match f x with
      | inl e => inl e
      | inr y =>
          match map_or_raise f l' with
          | inl e => inl e
          | inr ys => inr (y :: ys)
          end
      end
  end.

Definition series_between (s : Series) (lo hi : Q) : exn + list bool :=
  map_or_raise (between1 lo hi) (s_values s).

(** [m1 & m2] *)
Definition mask_and (m1 m2 : list bool) : list bool := zip_with andb m1 m2.

(** ** scikit-learn's LabelEncoder *)

(** [np.unique]: the distinct values, sorted. *)
Definition np_unique (y : list string) : list string :=
  merge_sort String.le (remove_dups y).

(** A fitted encoder is its sorted classes.  Encoder objects are reachable
    through [le_dict] only and are never written after fitting, so they are
    kept by value. *)
Record LabelEncoder : Type := mkLabelEncoder { classes_ : list string }.

Definition index_of (v : string) (l : list string) : option nat :=
  fst <$> list_find (λ x, x = v) l.

(** [enc.transform([v])[0]]: the position of [v] among the classes;
    an unseen label is a [ValueError]. *)
Definition encode (enc : LabelEncoder) (v : string) : exn + nat :=
  match index_of v (classes_ enc) with
  | Some i => inr i
  | None => inl (ValueError v)
  end.

Definition transform (enc : LabelEncoder) (y : list string) : exn + list nat :=
  map_or_raise (encode enc) y.

Definition fit (y : list string) : LabelEncoder := mkLabelEncoder (np_unique y).

Definition fit_transform (y : list string) : LabelEncoder * (exn + list nat) :=
  let enc := fit y in (enc, transform enc y).

Definition code_cell (i : nat) : scalar := Num (inject_Z (Z.of_nat i)).

(** [xs[0]] *)
Definition item0 {A} (xs : list A) : exn + A :=
  match xs with x :: _ => inr x | [] => inl IndexError end.

(** [d[k] = v] on a Python dict, which keeps insertion order. *)
Fixpoint dict_set (k : string) (v : scalar) (d : list (string * scalar)) :
    list (string * scalar) :=
  match d with
  | [] => [(k, v)]
  | (k', v') :: d' =>
      if decide (k' = k) then (k, v) :: d' else (k', v') :: dict_set k v d'
  end.

(** [inputs[k]] on the keyword dictionary. *)
Definition kwarg (inputs : gmap string scalar) (k : string) : py scalar :=
  match inputs !! k with
  | Some v => mret v
  | None => raise (KeyError k)
  end.

Definition dtype_of_scalar (v : scalar) : dtype :=
  match v with Str _ => object | _ => numeric end.

(** [pd.DataFrame([d])]: a one-row table, columns in the dict's order. *)
Definition frame_of_dict (d : list (string * scalar)) : DataFrame :=
  mkDataFrame (map (λ kv, (kv.1, dtype_of_scalar kv.2)) d)
              [list_to_map d].

Definition car_features : list string :=
  ["make"; "model"; "year"; "mileage_avg"; "transmission"; "fuel_type"].
Definition motorcycle_features : list string := ["make"; "model"; "year"].

(** The values the input widgets hold when the page is drawn. *)
Record widgets : Type := mkWidgets {
  w_make : scalar;
  w_model : scalar;
  w_year : Z;
  w_mileage_avg : Z;
  w_transmission : scalar;
  w_fuel_type : scalar;
  w_predict : bool                (* the "Predict Price" button *)
}.

(** [str.lower] on the letters A to Z; other characters are kept.  This is
    what Python's [str.lower] does to a string of ASCII characters. *)
Definition lower_char (c : Ascii.ascii) : Ascii.ascii :=
  let n := Ascii.nat_of_ascii c in
  if (65 <=? n)%nat && (n <=? 90)%nat then Ascii.ascii_of_nat (n + 32) else c.

Fixpoint ascii_lower (s : string) : string :=
  match s with
  | EmptyString => EmptyString
  | String c s' => String (lower_char c) (ascii_lower s')
  end.

Fixpoint is_ascii (s : string) : bool :=
  match s with
  | EmptyString => true
  | String c s' => (Ascii.nat_of_ascii c <? 128)%nat && is_ascii s'
  end.

(** ** Sample data for concrete runs *)

Definition listing (make model : string) (year price mileage : Z)
    (fuel_type : string) : gmap string scalar :=
  list_to_map
    [("make", Str make); ("model", Str model); ("year", Num (inject_Z year));
     ("price", Num (inject_Z price)); ("mileage_avg", Num (inject_Z mileage));
     ("transmission", Str "Auto"); ("fuel_type", Str fuel_type);
     ("ad_url", Str "https://www.mudah.my/1")].

Definition car_columns : list (string * dtype) :=
  [("make", object); ("model", object); ("year", numeric); ("price", numeric);
   ("mileage_avg", numeric); ("transmission", object); ("fuel_type", object);
   ("ad_url", object)].

Definition civic_2019 : gmap string scalar :=
  listing "Honda" "Civic" 2019 70000 60000 "petrol".
Definition civic_2021 : gmap string scalar :=
  listing "Honda" "Civic" 2021 90000 60000 "petrol".
Definition civic_no_price : gmap string scalar :=
  <["price" := NaN]> civic_2019.

(** [n] complete listings. *)
Definition market (n : nat) : DataFrame :=
  mkDataFrame car_columns (replicate n civic_2019).

(** The same with one more listing that has no price. *)
Definition market_with_gap (n : nat) : DataFrame :=
  mkDataFrame car_columns (civic_no_price :: replicate n civic_2019).

(** A table without the [fuel_type] column. *)
Definition market_without_fuel : DataFrame :=
  mkDataFrame
    [("make", object); ("model", object); ("year", numeric); ("price", numeric);
     ("mileage_avg", numeric); ("transmission", object)]
    (replicate 3 (delete "fuel_type" civic_2019)).

Definition two_civics : DataFrame :=
  mkDataFrame car_columns [civic_2019; civic_2021].

(** A world whose only table is [d], behind reference 1. *)
Definition world_with (d : DataFrame) : world :=
  mkWorld {[ 1%nat := d ]} [] 0.

(** The widgets set to a 2018 Honda Civic with 50000 km. *)
Definition civic_2018_widgets : widgets :=
  mkWidgets (Str "Honda") (Str "Civic") 2018 50000 (Str "Auto") (Str "petrol") true.

(** The widgets set to a make that is not listed. *)
Definition proton_widgets : widgets :=
  mkWidgets (Str "Proton") (Str "Saga") 2018 50000 (Str "Auto") (Str "petrol") true.

(** A busy world: other tables, earlier output, a used generator. *)
Definition busy_world (d : DataFrame) : world :=
  mkWorld {[ 1%nat := mkDataFrame [] []; 5%nat := d ]}
          [(st_info, NoSimilarListings)] 7.

(** Stand-ins for the library: a split that keeps everything on both sides
    and a regressor that answers with the mean of the prices it was fitted
    on (what a forest does on a table of identical listings). *)
Definition sample_repr (q : Q) : string := "0".
Definition sample_split (seed : nat) (test_size : Q) (X : DataFrame) (y : Series) :
    exn + (DataFrame * DataFrame * Series * Series) :=
  inr (X, X, y, y).
Definition mean (vs : list scalar) : Q :=
  Qred (fold_right (λ v acc, match v with Num q => q + acc | _ => acc end) 0 vs
        / inject_Z (Z.of_nat (length vs)))%Q.
Definition sample_fit (n_estimators seed : nat) (X : DataFrame) (y : Series) :
    exn + Q :=
  inr (mean (s_values y)).
Definition sample_predict (m : Q) (X : DataFrame) : exn + list Q := inr [m].
Definition sample_score (m : Q) (X : DataFrame) (y : Series) : exn + Q := inr 1%Q.
Definition sample_parse (s : string) : option Q := None.

(** A split that does depend on its seed: it rotates the rows by it. *)
Definition rotating_split (seed : nat) (test_size : Q) (X : DataFrame) (y : Series) :
    exn + (DataFrame * DataFrame * Series * Series) :=
  inr (mkDataFrame (columns X) (rotate seed (rows X)), X, y, y).

(** The years of the training part of a split. *)
Definition training_years
    (r : exn + (DataFrame * DataFrame * Series * Series)) : list scalar :=
  match r with
  | inr (X_train, _, _, _) => map (λ r, cell r "year") (rows X_train)
  | inl _ => []
  end.

(** Listings given away: the price column holds 0. *)
Definition giveaways (n : nat) : DataFrame :=
  mkDataFrame car_columns
    (replicate n (listing "Honda" "Civic" 2019 0 60000 "petrol")).

(** The encoders fitted on [market n]. *)
Definition market_encoders : gmap string LabelEncoder :=
  list_to_map
    [("make", mkLabelEncoder ["Honda"]); ("model", mkLabelEncoder ["Civic"]);
     ("transmission", mkLabelEncoder ["Auto"]);
     ("fuel_type", mkLabelEncoder ["petrol"])].

(** An export as [pd.read_csv] returns it: mixed-case fuel types, and a
    listing without odometer readings. *)
Definition export_row (fuel_type : string) (mileage_min mileage_max : scalar) :
    gmap string scalar :=
  list_to_map
    [("make", Str "Perodua"); ("model", Str "Myvi"); ("year", Num 2015);
     ("price", Num 30000); ("mileage_min", mileage_min);
     ("mileage_max", mileage_max); ("transmission", Str "Auto");
     ("fuel_type", Str fuel_type)].

Definition export : DataFrame :=
  mkDataFrame
    [("make", object); ("model", object); ("year", numeric); ("price", numeric);
     ("mileage_min", numeric); ("mileage_max", numeric);
     ("transmission", object); ("fuel_type", object)]
    [export_row "Petrol" (Num 50000) (Num 59999);
     export_row "diesel" NaN NaN].

(** Library stand-ins that fail: a split that refuses its input and a forest
    that cannot be fitted. *)
Definition failing_split (seed : nat) (test_size : Q) (X : DataFrame) (y : Series) :
    exn + (DataFrame * DataFrame * Series * Series) :=
  inl (ValueError "the resulting train set will be empty").
Definition failing_fit (n_estimators seed : nat) (X : DataFrame) (y : Series) :
    exn + Q :=
  inl (LibraryError "out of memory").

(** A table without the [price] column. *)
Definition market_without_price : DataFrame :=
  mkDataFrame
    [("make", object); ("model", object); ("year", numeric);
     ("mileage_avg", numeric); ("transmission", object); ("fuel_type", object)]
    (replicate 3 (delete "price" civic_2019)).

(** A motorcycle table whose makes and models are catalogue numbers: every
    schema column is numeric. *)
Definition coded_columns : list (string * dtype) :=
  [("make", numeric); ("model", numeric); ("year", numeric); ("price", numeric)].

Definition coded_listing : gmap string scalar :=
  list_to_map
    [("make", Num 7); ("model", Num 125); ("year", Num 2019); ("price", Num 4000)].

Definition coded_market (n : nat) : DataFrame :=
  mkDataFrame coded_columns (replicate n coded_listing).

(** Two listings without the [ad_url] column. *)
Definition two_civics_without_link : DataFrame :=
  mkDataFrame
    [("make", object); ("model", object); ("year", numeric); ("price", numeric);
     ("mileage_avg", numeric); ("transmission", object); ("fuel_type", object)]
    [delete "ad_url" civic_2019; delete "ad_url" civic_2021].

(** An export without the [price] column. *)
Definition export_without_price : DataFrame :=
  mkDataFrame
    [("make", object); ("model", object); ("year", numeric)]
    [list_to_map [("make", Str "Perodua"); ("model", Str "Myvi"); ("year", Num 2015)]].

(** An export without odometer columns. *)
Definition export_without_odometer : DataFrame :=
  mkDataFrame
    [("make", object); ("model", object); ("year", numeric); ("price", numeric);
     ("transmission", object); ("fuel_type", object)]
    [list_to_map
       [("make", Str "Perodua"); ("model", Str "Myvi"); ("year", Num 2015);
        ("price", Num 30000); ("transmission", Str "Auto");
        ("fuel_type", Str "Petrol")]].

(** A table whose fuel types were never filled in: pandas reads such a
    column as numbers. *)
Definition market_without_fuel_types : DataFrame :=
  mkDataFrame
    [("make", object); ("model", object); ("year", numeric); ("price", numeric);
     ("mileage_avg", numeric); ("transmission", object); ("fuel_type", numeric)]
    [<["fuel_type" := NaN]> civic_2019].

(** Listings with capitals in their fuel type. *)
Definition market_mixed_case (n : nat) : DataFrame :=
  mkDataFrame car_columns
    (replicate n (listing "Honda" "Civic" 2019 70000 60000 "Petrol")).

(** A motorcycle table as the loader leaves it. *)
Definition motorcycles : DataFrame :=
  mkDataFrame
    [("make", object); ("model", object); ("year", numeric); ("price", numeric);
     ("age", numeric)]
    [list_to_map
       [("make", Str "Yamaha"); ("model", Str "Y15ZR"); ("year", Num 2020);
        ("price", Num 7500); ("age", Num 4)]].

(** The widgets set to a catalogue number. *)
Definition coded_widgets : widgets :=
  mkWidgets (Num 7) (Num 125) 2019 0 NaN NaN true.

(** A small encoder dictionary and inputs for it. *)
Definition make_encoder : gmap string LabelEncoder :=
  {[ "make" := mkLabelEncoder ["Honda"; "Toyota"] ]}.
Definition toyota_2018 : gmap string scalar :=
  {[ "make" := Str "Toyota"; "year" := Num 2018 ]}.

(** The 100 listings again, each with a location, an age and another link. *)
Definition market_with_details (n : nat) : DataFrame :=
  mkDataFrame
    (car_columns ++ [("location", object); ("age", numeric)])
    (replicate n
       (<["location" := Str "Selangor"]>
          (<["age" := Num 5]>
             (<["ad_url" := Str "https://www.mudah.my/2"]> civic_2019)))).

(** Further stand-ins for the library: no string is the literal of a whole
    number, every numeric column of the export is an [int64] column, a chart
    is drawn unless there is nothing to draw, and the figures on age and
    price can be computed. *)
Definition sample_int (s : string) : option Z := None.
Definition sample_int64 (c : string) : bool := true.
Definition sample_chart (values : list scalar) : exn + unit :=
  match values with
  | [] => inl (ValueError "nothing to draw")
  | _ :: _ => inr ()
  end.
Definition sample_figures (age price : Series) : exn + unit := inr ().

(** Listings of one make and model and of others, around a 2018 Honda Civic
    with 50000 km. *)
Definition five_listings : DataFrame :=
  mkDataFrame car_columns
    [civic_2019;
     civic_2021;
     listing "Toyota" "Civic" 2019 70000 60000 "petrol";
     listing "Honda" "City" 2019 70000 60000 "petrol";
     listing "Honda" "Civic" 2019 70000 90000 "petrol"].

(** Listings of 2018, the year the form starts from. *)
Definition civic_2018 : gmap string scalar :=
  listing "Honda" "Civic" 2018 70000 50000 "petrol".
Definition market_2018 (n : nat) : DataFrame :=
  mkDataFrame car_columns (replicate n civic_2018).

(** The same with one more listing whose fuel type is missing. *)
Definition market_2018_with_gap (n : nat) : DataFrame :=
  mkDataFrame car_columns
    (<["fuel_type" := NaN]> civic_2018 :: replicate n civic_2018).

(** An export of [n] listings of a 2018 Honda Civic at one price. *)
Definition export_listing (price : Z) : gmap string scalar :=
  list_to_map
    [("make", Str "Honda"); ("model", Str "Civic"); ("year", Num 2018);
     ("price", Num (inject_Z price)); ("mileage_min", Num 40000);
     ("mileage_max", Num 60000); ("transmission", Str "Auto");
     ("fuel_type", Str "petrol"); ("ad_url", Str "https://www.mudah.my/1")].

Definition export_at (price : Z) (n : nat) : DataFrame :=
  mkDataFrame
    [("make", object); ("model", object); ("year", numeric); ("price", numeric);
     ("mileage_min", numeric); ("mileage_max", numeric);
     ("transmission", object); ("fuel_type", object); ("ad_url", object)]
    (replicate n (export_listing price)).

(** Two odometer readings at the end of the [int64] range. *)
Definition export_far : DataFrame :=
  mkDataFrame
    [("make", object); ("model", object); ("year", numeric); ("price", numeric);
     ("mileage_min", numeric); ("mileage_max", numeric);
     ("transmission", object); ("fuel_type", object)]
    [export_row "petrol" (Num 9223372036854775807) (Num 9223372036854775807)].

(** A table in which no listing has a make. *)
Definition market_without_makes : DataFrame :=
  mkDataFrame car_columns [<["make" := NaN]> civic_2019].

(** A motorcycle table in which no listing has a model. *)
Definition motorcycles_without_models : DataFrame :=
  mkDataFrame
    [("make", object); ("model", object); ("year", numeric); ("price", numeric);
     ("age", numeric)]
    [list_to_map
       [("make", Str "Yamaha"); ("model", NaN); ("year", Num 2020);
        ("price", Num 7500); ("age", Num 4)]].

Section Dashboard.

(** What the page uses of Python and scikit-learn without defining it:
    number formatting, the row shuffle and the forest.  Both scikit-learn
    entry points are functions of their seed. *)
Variable repr_num : Q → string.
Variable Model : Type.
Variable split_with_seed :
  nat → Q → DataFrame → Series → exn + (DataFrame * DataFrame * Series * Series).
Variable forest_fit_with_seed :
  nat → nat → DataFrame → Series → exn + Model.
Variable forest_predict : Model → DataFrame → exn + list Q.
Variable forest_score : Model → DataFrame → Series → exn + Q.

(** [int(s)] on a string: its whole number, if it is the literal of one. *)
Variable int_of_string : string → option Z.

(** [str(x)] *)
Definition py_str (x : scalar) : string :=
  match x with
  | NaN => "nan"
  | Num q => repr_num q
  | Str s => s
  end.

(** [s.astype(str)] *)
Definition astype_str (s : Series) : list string := map py_str (s_values s).

(** scikit-learn's [check_random_state]: a given seed is used as is, [None]
    takes the seed from the global generator. *)
Definition check_random_state (random_state : option nat) : py nat :=
  match random_state with
  | Some seed => mret seed
  | None => draw
  end.

Definition train_test_split (X : DataFrame) (y : Series) (test_size : Q)
    (random_state : option nat) :
    py (DataFrame * DataFrame * Series * Series) :=
  seed ← check_random_state random_state;
  lift (split_with_seed seed test_size X y).

(** [RandomForestRegressor(n_estimators, random_state).fit(X, y)] *)
Definition RandomForestRegressor_fit (n_estimators : nat)
    (random_state : option nat) (X : DataFrame) (y : Series) : py Model :=
  seed ← check_random_state random_state;
  lift (forest_fit_with_seed n_estimators seed X y).

(** *** [train_price_prediction_model] *)

Definition trained : Type :=
  option Model * option (gmap string LabelEncoder) * option Q * option Q
  * option (list string).

Definition Nones : trained := (None, None, None, None, None).

(** The loop [for col in features] that label-encodes the [object] columns
    of [model_df] in place. *)
Fixpoint encode_columns (model_df : nat) (cols : list string)
    (le_dict : gmap string LabelEncoder) : py (gmap string LabelEncoder) :=
  match cols with
  | [] => mret le_dict
  | col :: cols' =>
      d ← deref model_df;
      s ← lift (getitem d col);
      if decide (s_dtype s = object) then
        let '(enc, codes) := fit_transform (astype_str s) in
        codes ← lift codes;
        setitem model_df col (mkSeries numeric (map code_cell codes));;
        encode_columns model_df cols' (<[col := enc]> le_dict)
      else encode_columns model_df cols' le_dict
  end.

Definition schema (vehicle_type : string) : list string :=
  if decide (vehicle_type = "car") then car_features else motorcycle_features.

(** The inner [try] block: fit the forest and score it on both parts. *)
Definition fit_and_score (X_train X_test : DataFrame) (y_train y_test : Series)
    (le_dict : gmap string LabelEncoder) (features : list string) : py trained :=
  try_except
    (model ← RandomForestRegressor_fit 100 (Some 42%nat) X_train y_train;
     train_score ← lift (forest_score model X_train y_train);
     test_score ← lift (forest_score model X_test y_test);
     mret (Some model, Some le_dict, Some train_score, Some test_score,
           Some features))
    is_Exception
    (λ e, show st_error (ErrorInModelTraining e);; mret Nones).

(** "Prepare X and y", "Split data", "Train model" on the encoded table. *)
Definition split_and_fit (d : DataFrame) (le_dict : gmap string LabelEncoder)
    (features : list string) : py trained :=
  X ← lift (select_frame d features);
  y ← lift (getitem d "price");
  '(X_train, X_test, y_train, y_test) ← train_test_split X y 0.2 (Some 42%nat);
  fit_and_score X_train X_test y_train y_test le_dict features.

Definition train_price_prediction_model (df : nat) (vehicle_type : string) :
    py trained :=
  try_except
    (model_df ← copy df;
     let features := schema vehicle_type in
     d ← deref model_df;
     let missing_features := List.filter (λ f, negb (has_column d f)) features in
     if negb (bool_decide (missing_features = [])) then
       show st_warning (MissingFeatures vehicle_type missing_features);;
       mret Nones
     else
       model_df ← dropna model_df (features ++ ["price"]);
       d ← deref model_df;
       if (len d <? 100)%nat then
         show st_warning (InsufficientData vehicle_type (len d));;
         mret Nones
       else
         le_dict ← encode_columns model_df features ∅;
         d ← deref model_df;
         split_and_fit d le_dict features)
    is_Exception
    (λ e, show st_error (ErrorInDataPreparation e);; mret Nones).

(** *** [predict_price] *)

(** The loop [for feature in model_features]; [None] is the early
    [return None] after the warning. *)
Fixpoint prepare_input (encoders : gmap string LabelEncoder)
    (inputs : gmap string scalar) (model_features : list string)
    (input_data : list (string * scalar)) : py (option (list (string * scalar))) :=
  match model_features with
  | [] => mret (Some input_data)
  | feature :: rest =>
      match encoders !! feature with
      | Some enc =>
          r ← try_except
                (v ← kwarg inputs feature;
                 codes ← lift (transform enc [py_str v]);
                 code ← lift (item0 codes);
                 mret (Some code))
                is_ValueError
                (λ e, v ← kwarg inputs feature;
                      show st_warning (UnknownCategory feature v);;
                      mret None);
          match r with
          | Some code =>
              prepare_input encoders inputs rest
                (dict_set feature (code_cell code) input_data)
          | None => mret None
          end
      | None =>
          v ← kwarg inputs feature;
          prepare_input encoders inputs rest (dict_set feature v input_data)
      end
  end.

Definition predict_price (prediction_model : Model)
    (encoders : gmap string LabelEncoder) (model_features : list string)
    (inputs : gmap string scalar) : py (option Q) :=
  try_except
    (r ← prepare_input encoders inputs model_features [];
     match r with
     | None => mret None
     | Some input_data =>
         let input_df := frame_of_dict input_data in
         prices ← lift (forest_predict prediction_model input_df);
         predicted_price ← lift (item0 prices);
         mret (Some predicted_price)
     end)
    is_Exception
    (λ e, show st_error (ErrorInPrediction e);; mret None).

(** *** [render_price_prediction] *)

(** The float written [0.15]. *)
Definition confidence_range : Q := round64 0.15.

(** [lower_bound] and [upper_bound] of the suggested price range: float
    arithmetic on the estimate, which is a float. *)
Definition price_range (predicted_price : Q) : Q * Q :=
  (float_mul predicted_price (float_sub 1 confidence_range),
   float_mul predicted_price (float_add 1 confidence_range)).

(** A value of [inputs] used in arithmetic ([inputs['year'] - 2]); the
    widgets always supply a number there. *)
Definition number (v : scalar) : py Q :=
  match v with Num q => mret q | _ => raise TypeError end.

Definition uses_mileage (vehicle_type : string) (features : list string) : bool :=
  bool_decide (vehicle_type = "car") && bool_decide ("mileage_avg" ∈ features).

(** The boolean series [similar_filter] over the rows of [df]. *)
Definition similar_filter (d : DataFrame) (vehicle_type : string)
    (features : list string) (inputs : gmap string scalar) : py (list bool) :=
  make_col ← lift (getitem d "make");
  make ← kwarg inputs "make";
  model_col ← lift (getitem d "model");
  model ← kwarg inputs "model";
  year_col ← lift (getitem d "year");
  year ← kwarg inputs "year" ≫= number;
  near_year ← lift (series_between year_col (year - 2)%Q (year + 2)%Q);
  let similar_filter :=
    mask_and (mask_and (series_eq make_col make) (series_eq model_col model))
             near_year in
  if uses_mileage vehicle_type features then
    mileage_col ← lift (getitem d "mileage_avg");
    mileage ← kwarg inputs "mileage_avg" ≫= number;
    near_mileage ← lift (series_between mileage_col (mileage - 20000)%Q (mileage + 20000)%Q);
    mret (mask_and similar_filter near_mileage)
  else mret similar_filter.

Definition display_cols (vehicle_type : string) : list string :=
  ["make"; "model"; "year"; "price"; "ad_url"] ++
  (if decide (vehicle_type = "car")
   then ["mileage_avg"; "transmission"; "fuel_type"] else []).

Definition dquote : string := String (Ascii.ascii_of_nat 34) EmptyString.

(** The [lambda] applied to [ad_url]. *)
Definition ad_link (x : scalar) : scalar :=
  if notna x then
    Str ("<a href=" ++ dquote ++ py_str x ++ dquote ++ " target=" ++ dquote
         ++ "_blank" ++ dquote ++ ">View Listing</a>")
  else Str "N/A".

(** [display_df]: the first five similar rows, restricted to the display
    columns, links made clickable.  It is a private copy. *)
Definition display_frame (vehicle_type : string) (similar_vehicles : DataFrame) :
    py DataFrame :=
  shown ← lift (select_frame similar_vehicles (display_cols vehicle_type));
  let display_df := head_frame 5 shown in
  ad_url ← lift (getitem display_df "ad_url");
  lift (setitem_frame display_df "ad_url"
          (mkSeries object (map ad_link (s_values ad_url)))).

(** The "Similar Listings in the Market" block. *)
Definition similar_listings (df : nat) (vehicle_type : string)
    (features : list string) (inputs : gmap string scalar) : py unit :=
  d ← deref df;
  mask ← similar_filter d vehicle_type features inputs;
  let similar_vehicles := where_frame d mask in
  if negb (empty_frame similar_vehicles) then
    display_df ← display_frame vehicle_type similar_vehicles;
    show st_write (SimilarListings display_df)
  else show st_info NoSimilarListings.

(** The [inputs] dictionary filled from the widgets. *)
Definition collect_inputs (vehicle_type : string) (features : list string)
    (ws : widgets) : gmap string scalar :=
  let inputs : gmap string scalar :=
    <["year" := Num (inject_Z (w_year ws))]>
      (<["model" := w_model ws]> (<["make" := w_make ws]> ∅)) in
  if decide (vehicle_type = "car") then
    let inputs :=
      if bool_decide ("mileage_avg" ∈ features)
      then <["mileage_avg" := Num (inject_Z (w_mileage_avg ws))]> inputs
      else inputs in
    let inputs :=
      if bool_decide ("transmission" ∈ features)
      then <["transmission" := w_transmission ws]> inputs else inputs in
    if bool_decide ("fuel_type" ∈ features)
    then <["fuel_type" := w_fuel_type ws]> inputs else inputs
  else inputs.

(** *** The input form *)

(** [sorted(s.unique())] offers the values of a column.  Sorting compares
    them: strings with strings and numbers with numbers (a missing value is
    a float), a string against a number is a [TypeError].  The order of the
    options is not modelled. *)
Definition is_Str (v : scalar) : bool :=
  match v with Str _ => true | _ => false end.

Definition sorted_unique (values : list scalar) : exn + list scalar :=
  if forallb is_Str values || forallb (λ v, negb (is_Str v)) values
  then inr values else inl TypeError.

(** [s.min()] and [s.max()]: the least and the greatest value, missing ones
    aside; missing when there is none.  Strings are compared with strings
    only, and pandas, which puts an infinity in the place of a missing
    value, then fails on a column of strings that has one. *)
Definition strings_of (values : list scalar) : list string :=
  omap (λ v, match v with Str x => Some x | _ => None end) values.

Definition numbers_of (values : list scalar) : list Q :=
  omap (λ v, match v with Num q => Some q | _ => None end) values.

Definition Qmin_list (qs : list Q) : scalar :=
  match qs with
  | [] => NaN
  | q :: qs' => Num (fold_right (λ x m, if Qle_bool x m then x else m) q qs')
  end.

Definition Qmax_list (qs : list Q) : scalar :=
  match qs with
  | [] => NaN
  | q :: qs' => Num (fold_right (λ x m, if Qle_bool m x then x else m) q qs')
  end.

Definition series_extreme (of_numbers : list Q → scalar)
    (of_strings : list string → option string) (s : Series) : exn + scalar :=
  match strings_of (s_values s) with
  | [] => inr (of_numbers (numbers_of (s_values s)))
  | xs =>
      if forallb is_Str (s_values s)
      then inr (from_option Str NaN (of_strings xs))
      else inl TypeError
  end.

Definition series_min : Series → exn + scalar :=
  series_extreme Qmin_list (λ xs, head (merge_sort String.le xs)).
Definition series_max : Series → exn + scalar :=
  series_extreme Qmax_list (λ xs, last (merge_sort String.le xs)).

(** [int(x)] on a cell. *)
Definition py_int (x : scalar) : exn + Z :=
  match x with
  | NaN => inl (ValueError "cannot convert float NaN to integer")
  | Num q => inr (Z.quot (Qnum q) (Zpos (Qden q)))
  | Str s =>
      match int_of_string s with
      | Some z => inr z
      | None => inl (ValueError "invalid literal for int()")
      end
  end.

(** [st.number_input(min_value, max_value, value)]: Streamlit refuses a
    default value outside the bounds, with a [StreamlitAPIException]. *)
Definition number_input (min_value max_value value : Z) : exn + unit :=
  if (value <? min_value)%Z || (max_value <? value)%Z
  then inl (LibraryError "StreamlitAPIException")
  else inr ().

(** The input form, as far as it can fail: the options of the select boxes
    are sorted, the bounds of the year are read off the table and 2018 must
    lie between them.  What the widgets return is [ws]. *)
Definition input_form (d : DataFrame) (vehicle_type : string)
    (features : list string) (ws : widgets) : py unit :=
  make ← lift (getitem d "make");
  _ ← lift (sorted_unique (s_values make));
  model ← lift (getitem d "model");
  _ ← lift (sorted_unique
              (select_rows (series_eq make (w_make ws)) (s_values model)));
  year ← lift (getitem d "year");
  min_value ← lift (series_min year);
  min_value ← lift (py_int min_value);
  max_value ← lift (series_max year);
  max_value ← lift (py_int max_value);
  lift (number_input min_value max_value 2018);;
  if decide (vehicle_type = "car") then
    (if bool_decide ("mileage_avg" ∈ features)
     then lift (number_input 0 500000 50000) else mret ());;
    (if bool_decide ("transmission" ∈ features)
     then transmission ← lift (getitem d "transmission");
          _ ← lift (sorted_unique (s_values transmission)); mret ()
     else mret ());;
    (if bool_decide ("fuel_type" ∈ features)
     then fuel_type ← lift (getitem d "fuel_type");
          _ ← lift (sorted_unique (s_values fuel_type)); mret ()
     else mret ())
  else mret ().

(** What follows a prediction that is not [None]. *)
Definition report_prediction (df : nat) (vehicle_type : string)
    (features : list string) (inputs : gmap string scalar)
    (predicted_price : Q) : py unit :=
  show st_success (EstimatedPrice predicted_price);;
  let '(lower_bound, upper_bound) := price_range predicted_price in
  show st_info (SuggestedPriceRange lower_bound upper_bound);;
  similar_listings df vehicle_type features inputs;;
  show st_write (FeatureImportance features).

(** The page.  A fitted forest counts as true. *)
Definition render_price_prediction (df : nat) (vehicle_type : string)
    (ws : widgets) : py unit :=
  '(model, le_dict, train_score, test_score, features) ←
    train_price_prediction_model df vehicle_type;
  match model, le_dict, train_score, test_score, features with
  | Some model, Some le_dict, Some train_score, Some test_score, Some features =>
      if negb (bool_decide (size le_dict = 0%nat))
         && negb (bool_decide (features = [])) then
        show st_write (Accuracy train_score test_score);;
        d ← deref df;
        input_form d vehicle_type features ws;;
        let inputs := collect_inputs vehicle_type features ws in
        if w_predict ws then
          predicted_price ← predict_price model le_dict features inputs;
          match predicted_price with
          | Some p => report_prediction df vehicle_type features inputs p
          | None => mret ()
          end
        else mret ()
      else show st_error FailedToInitialize
  | _, _, _, _, _ => show st_error FailedToInitialize
  end.

(** ** [utils/data_loader.py] *)

(** What [pd.to_numeric] makes of a string: its number, if it is one. *)
Variable parse_number : string → option Q.

(** [pd.to_numeric(s, errors='coerce')] *)
Definition to_numeric1 (v : scalar) : scalar :=
  match v with
  | Str s => match parse_number s with Some q => Num q | None => NaN end
  | _ => v
  end.

Definition to_numeric (s : Series) : Series :=
  mkSeries numeric (map to_numeric1 (s_values s)).

Definition Qlt_bool (x y : Q) : bool := negb (Qle_bool y x).

(** [s > x], [s <= x], ...: a missing cell compares false. *)
Definition compare_with (op : Q → Q → bool) (s : Series) (x : Q) : exn + list bool :=
  map_or_raise
    (λ v, match v with
          | NaN => inr false
          | Num q => inr (op q x)
          | Str _ => inl TypeError
          end) (s_values s).

(** [~s.isna()] *)
Definition not_isna (s : Series) : list bool := map notna (s_values s).

(** Rounding towards zero, as [int()] does. *)
Definition truncate (q : Q) : Q := inject_Z (Z.quot (Qnum q) (Zpos (Qden q))).

(** [s.astype(int)] *)
Definition astype_int (s : Series) : exn + Series :=
  match map_or_raise
          (λ v, match v with
                | Num q => inr (Num (truncate q))
                | NaN => inl (ValueError "cannot convert float NaN to integer")
                | Str _ => inl (ValueError "invalid literal for int()")
                end) (s_values s) with
  | inl e => inl e
  | inr vs => inr (mkSeries numeric vs)
  end.

(** [x - s] *)
Definition rsub (x : Q) (s : Series) : exn + Series :=
  match map_or_raise
          (λ v, match v with
                | Num q => inr (Num (x - q)%Q)
                | NaN => inr NaN
                | Str _ => inl TypeError
                end) (s_values s) with
  | inl e => inl e
  | inr vs => inr (mkSeries numeric vs)
  end.

(** What pandas knows of a numeric column beyond its cells: whether it
    holds it as [int64] or as [float64].  It decides that when the export is
    read, from the way the numbers are written, and the model does not keep
    it: where the difference shows it is asked of [int64_column], by the
    name of the column.  A column with a missing cell or a fraction, or a
    number beyond the range of [int64], is never an [int64] column. *)
Variable int64_column : string → bool.

Definition int64_cell (v : scalar) : bool :=
  match v with
  | Num q =>
      match whole q with
      | Some z => bool_decide (- 2 ^ 63 ≤ z < 2 ^ 63)%Z
      | None => false
      end
  | _ => false
  end.

Definition held_as_int64 (c : string) (s : Series) : bool :=
  int64_column c && forallb int64_cell (s_values s).

(** One cell of [(a + b) / 2] on numeric columns: missing as soon as one
    side is.  [ints] tells that both columns are [int64] columns: their sum
    is an [int64] sum, which wraps around; any other sum is a float sum, of
    the two cells as floats.  The division is a float division. *)
Definition sum2 (ints : bool) (p q : Q) : Q :=
  if ints then inject_Z (wrap64 (Qfloor p + Qfloor q))
  else float_add (round64 p) (round64 q).

Definition average2 (ints : bool) (a b : scalar) : exn + scalar :=
  match a, b with
  | Num p, Num q => inr (Num (float_div (round64 (sum2 ints p q)) 2))
  | Str _, _ | _, Str _ => inl TypeError
  | _, _ => inr NaN
  end.

Fixpoint zip_or_raise {A B C} (f : A → B → exn + C) (l1 : list A) (l2 : list B) :
    exn + list C :=
  match l1, l2 with
  | x :: l1', y :: l2' =>
      match f x y with
      | inl e => inl e
      | inr z =>
          match zip_or_raise f l1' l2' with
          | inl e => inl e
          | inr zs => inr (z :: zs)
          end
      end
  | _, _ => inr []
  end.

(** [(s1 + s2) / 2] on the columns named [c1] and [c2]. *)
Definition series_average (c1 c2 : string) (s1 s2 : Series) : exn + Series :=
  let ints := held_as_int64 c1 s1 && held_as_int64 c2 s2 in
  match zip_or_raise (average2 ints) (s_values s1) (s_values s2) with
  | inl e => inl e
  | inr vs => inr (mkSeries numeric vs)
  end.

(** [process_vehicle_data(df)]: adds [age] and, when both odometer columns
    are there, [mileage_avg], to the table it is given. *)
Definition process_vehicle_data (this_year : Z) (df : nat) : py unit :=
  d ← deref df;
  year ← lift (getitem d "year");
  age ← lift (rsub (inject_Z this_year) year);
  setitem df "age" age;;
  d ← deref df;
  if has_column d "mileage_min" && has_column d "mileage_max" then
    mileage_min ← lift (getitem d "mileage_min");
    setitem df "mileage_min" (to_numeric mileage_min);;
    d ← deref df;
    mileage_max ← lift (getitem d "mileage_max");
    setitem df "mileage_max" (to_numeric mileage_max);;
    d ← deref df;
    mileage_min ← lift (getitem d "mileage_min");
    mileage_max ← lift (getitem d "mileage_max");
    mileage_avg ←
      lift (series_average "mileage_min" "mileage_max" mileage_min mileage_max);
    setitem df "mileage_avg" mileage_avg
  else mret ().

(** [load_car_data()].  [read_csv] is what [pd.read_csv] produced for the
    export, [this_year] is [datetime.now().year]. *)
Definition load_car_data (read_csv : exn + DataFrame) (this_year : Z) : py nat :=
  try_except
    (raw ← lift read_csv;
     df ← new_frame raw;
     d ← deref df;
     price ← lift (getitem d "price");
     setitem df "price" (to_numeric price);;
     d ← deref df;
     year ← lift (getitem d "year");
     setitem df "year" (to_numeric year);;
     d ← deref df;
     price ← lift (getitem d "price");
     positive ← lift (compare_with (λ q x, Qlt_bool x q) price 0);
     price ← lift (getitem d "price");
     capped ← lift (compare_with Qlt_bool price 1000000);
     year ← lift (getitem d "year");
     let has_year := not_isna year in
     year ← lift (getitem d "year");
     not_old ← lift (compare_with (λ q x, Qle_bool x q) year 1900);
     year ← lift (getitem d "year");
     not_future ← lift (compare_with Qle_bool year (inject_Z this_year));
     let mask :=
       mask_and (mask_and (mask_and (mask_and positive capped) has_year) not_old)
                not_future in
     df ← new_frame (where_frame d mask);
     d ← deref df;
     year ← lift (getitem d "year");
     year ← lift (astype_int year);
     setitem df "year" year;;
     process_vehicle_data this_year df;;
     mret df)
    is_Exception
    (λ e, show st_error (FailedToLoadCarData e);; new_frame (mkDataFrame [] [])).

(** ** [pages/market_overview.py]: what the page does to its table *)

(** [create_price_segment] of [utils/constants.py]. *)
Definition create_price_segment (price : scalar) : exn + scalar :=
  match price with
  | Str _ => inl TypeError
  | NaN => inr (Str "Luxury (> RM200k)")
  | Num p =>
      inr (Str (if Qlt_bool p 25000 then "Budget (< RM25k)"
                else if Qlt_bool p 50000 then "Entry Level (RM25k-50k)"
                else if Qlt_bool p 100000 then "Mid Range (RM50k-100k)"
                else if Qlt_bool p 200000 then "Premium (RM100k-200k)"
                else "Luxury (> RM200k)"))
  end.

Definition create_motorcycle_price_segment (price : scalar) : exn + scalar :=
  match price with
  | Str _ => inl TypeError
  | NaN => inr (Str "Luxury (> RM40k)")
  | Num p =>
      inr (Str (if Qlt_bool p 5000 then "Budget (< RM5k)"
                else if Qlt_bool p 10000 then "Entry Level (RM5k-10k)"
                else if Qlt_bool p 20000 then "Mid Range (RM10k-20k)"
                else if Qlt_bool p 40000 then "Premium (RM20k-40k)"
                else "Luxury (> RM40k)"))
  end.

(** [s.apply(f)] *)
Definition series_apply (f : scalar → exn + scalar) (s : Series) : exn + Series :=
  match map_or_raise f (s_values s) with
  | inl e => inl e
  | inr vs => inr (mkSeries object vs)
  end.

(** What the page uses of Python and plotly without defining it:
    [str.lower], and the two kinds of chart it draws from the values it has
    counted.  The charts are given the cells that [value_counts] counts,
    those that are not missing. *)
Variable str_lower : string → string.
Variable px_bar : list scalar → exn + unit.
Variable px_pie : list scalar → exn + unit.

(** [s.value_counts()] counts the cells that hold a value. *)
Definition counted (s : Series) : list scalar := List.filter notna (s_values s).

(** [str.lower] on a cell of a column of strings; a cell that is not a
    string becomes missing. *)
Definition lower_cell (v : scalar) : scalar :=
  match v with Str x => Str (str_lower x) | _ => NaN end.

(** [s.str]: only for columns of strings.  pandas looks at the values, the
    missing ones aside: there must be none, or a string among them. *)
Definition has_str_accessor (s : Series) : bool :=
  match s_dtype s with
  | numeric => false
  | object =>
      match counted s with
      | [] => true
      | vs => existsb is_Str vs
      end
  end.

(** [s.str.lower()] *)
Definition series_str_lower (s : Series) : exn + Series :=
  if has_str_accessor s
  then inr (mkSeries object (map lower_cell (s_values s)))
  else inl AttributeError.

(** [render_popular_makes(df, vehicle_type)]: a bar chart of the makes. *)
Definition render_popular_makes (df : nat) : py unit :=
  d ← deref df;
  make ← lift (getitem d "make");
  lift (px_bar (counted make)).

(** [render_price_segments(df, vehicle_type)]: a pie chart of the segments. *)
Definition render_price_segments (df : nat) : py unit :=
  d ← deref df;
  price_segment ← lift (getitem d "price_segment");
  lift (px_pie (counted price_segment)).

(** [df['fuel_type'] = df['fuel_type'].str.lower()] *)
Definition lower_fuel_type (df : nat) : py unit :=
  d ← deref df;
  fuel_type ← lift (getitem d "fuel_type");
  fuel_type ← lift (series_str_lower fuel_type);
  setitem df "fuel_type" fuel_type.

(** [render_car_features(df)]: a pie chart of the transmissions, then the
    fuel types, rewritten in lower case in the table the page was given,
    and their pie chart. *)
Definition render_car_features (df : nat) : py unit :=
  d ← deref df;
  transmission ← lift (getitem d "transmission");
  lift (px_pie (counted transmission));;
  lower_fuel_type df;;
  d ← deref df;
  fuel_type ← lift (getitem d "fuel_type");
  lift (px_pie (counted fuel_type)).

(** What [render_motorcycle_features] computes from [age] and [price] once
    the charts are drawn: their correlation and the mean price. *)
Variable age_price_figures : Series → Series → exn + unit.

(** [render_motorcycle_features(df)] writes nothing.  It draws a bar chart
    of the models and names the most frequent one ([model_counts.index[0]]);
    the scatter plot then needs the [age] and [price] columns, whose absence
    plotly reports as a [ValueError]. *)
Definition render_motorcycle_features (df : nat) : py unit :=
  d ← deref df;
  model ← lift (getitem d "model");
  lift (px_bar (counted model));;
  _ ← lift (item0 (counted model));
  (if has_column d "age" then mret ()
   else raise (ValueError "Value of 'x' is not the name of a column in 'data_frame'"));;
  (if has_column d "price" then mret ()
   else raise (ValueError "Value of 'y' is not the name of a column in 'data_frame'"));;
  age ← lift (getitem d "age");
  price ← lift (getitem d "price");
  lift (age_price_figures age price).

(** [render_market_overview(df, vehicle_type)], text aside. *)
Definition render_market_overview (df : nat) (vehicle_type : string) : py unit :=
  d ← deref df;
  price ← lift (getitem d "price");
  price_segment ←
    lift (series_apply (if decide (vehicle_type = "car")
                        then create_price_segment
                        else create_motorcycle_price_segment) price);
  setitem df "price_segment" price_segment;;
  render_popular_makes df;;
  render_price_segments df;;
  if decide (vehicle_type = "car") then render_car_features df
  else render_motorcycle_features df.

(** ** Notions used to state the properties *)

(** The world after more Streamlit output. *)
Definition add_to_screen (w : world) (msgs : list (level * text)) : world :=
  mkWorld (heap w) (screen w ++ msgs) (entropy w).

(** The world after storing table [d] behind reference [l]. *)
Definition put_frame (w : world) (l : nat) (d : DataFrame) : world :=
  mkWorld (<[l := d]> (heap w)) (screen w) (entropy w).

(** A world with no table, an empty screen and a fresh generator. *)
Definition blank : world := mkWorld ∅ [] 0.

(** [screen_only m]: all [m] does to the world is add output to the screen,
    and neither that output nor the result depends on the world. *)
Definition screen_only {A} (m : py A) : Prop :=
  ∀ w, m w = ((m blank).1, add_to_screen w (screen (m blank).2)).

(** [keeps L m Q]: started in a store that holds every reference of [L], [m]
    leaves the tables behind [L] as they are, whether it returns or raises,
    and a returned value satisfies [Q]. *)
Definition keeps (L : gset nat) {A} (m : py A) (Q : A → Prop) : Prop :=
  ∀ w, L ⊆ dom (heap w) →
    (∀ l, l ∈ L → heap (m w).2 !! l = heap w !! l) ∧
    (∀ a, (m w).1 = inr a → Q a).

(** [unrecognized encoders inputs f v]: feature [f] is encoded and the value
    [v] supplied for it is none of the encoder's classes. *)
Definition unrecognized (encoders : gmap string LabelEncoder)
    (inputs : gmap string scalar) (f : string) (v : scalar) : Prop :=
  ∃ enc, encoders !! f = Some enc ∧ inputs !! f = Some v
         ∧ py_str v ∉ classes_ enc.

(** What the loop [encode_columns] does to the table it rewrites, and the
    dictionary it builds, as a function of that table alone. *)
Fixpoint encode_frame (d : DataFrame) (cols : list string)
    (le_dict : gmap string LabelEncoder) :
    (exn + gmap string LabelEncoder) * DataFrame :=
  match cols with
  | [] => (inr le_dict, d)
  | col :: cols' =>
      match getitem d col with
      | inl e => (inl e, d)
      | inr s =>
          if decide (s_dtype s = object) then
            let '(enc, codes) := fit_transform (astype_str s) in
            match codes with
            | inl e => (inl e, d)
            | inr codes =>
                match setitem_frame d col (mkSeries numeric (map code_cell codes)) with
                | inl e => (inl e, d)
                | inr d' => encode_frame d' cols' (<[col := enc]> le_dict)
                end
            end
          else encode_frame d cols' le_dict
      end
  end.

(** What training returns and shows, as a function of the table behind [df]. *)
Definition train_outcome (d : DataFrame) (vehicle_type : string) :
    trained * list (level * text) :=
  let features := schema vehicle_type in
  let missing_features := List.filter (λ f, negb (has_column d f)) features in
  if negb (bool_decide (missing_features = [])) then
    (Nones, [(st_warning, MissingFeatures vehicle_type missing_features)])
  else
    match dropna_frame (features ++ ["price"]) d with
    | inl e => (Nones, [(st_error, ErrorInDataPreparation e)])
    | inr cl =>
        if (len cl <? 100)%nat then
          (Nones, [(st_warning, InsufficientData vehicle_type (len cl))])
        else
          match encode_frame cl features ∅ with
          | (inl e, _) => (Nones, [(st_error, ErrorInDataPreparation e)])
          | (inr le_dict, d') =>
              match split_and_fit d' le_dict features blank with
              | (inl e, w') =>
                  (Nones, (screen w' ++ [(st_error, ErrorInDataPreparation e)])%list)
              | (inr r, w') => (r, screen w')
              end
          end
    end.

(** *** The matching rule of the similar listings, in the words of the
    specification *)

(** [within v c tol]: the cell [v] is a number at most [tol] away from [c]. *)
Definition within (v : scalar) (c tol : Q) : bool :=
  match v with
  | Num q => Qle_bool (c - tol) q && Qle_bool q (c + tol)
  | _ => false
  end.

(** A listing is comparable to the widget values when make and model are
    equal, the year is within 2 and, for cars only, the mileage is within
    20000. *)
Definition comparable (vehicle_type : string) (ws : widgets)
    (r : gmap string scalar) : bool :=
  scalar_eqb (cell r "make") (w_make ws)
  && scalar_eqb (cell r "model") (w_model ws)
  && within (cell r "year") (inject_Z (w_year ws)) 2
  && (if decide (vehicle_type = "car")
      then within (cell r "mileage_avg") (inject_Z (w_mileage_avg ws)) 20000
      else true).

(** [x] and [y] are the same string, or numbers of the same value; a missing
    value equals nothing. *)
Inductive equal_values : scalar → scalar → Prop :=
  | equal_strings (s : string) : equal_values (Str s) (Str s)
  | equal_numbers (p q : Q) : (p == q)%Q → equal_values (Num p) (Num q).

(** No cell of column [c] is a string. *)
Definition numeric_column (d : DataFrame) (c : string) : Prop :=
  ∀ r s, r ∈ rows d → cell r c ≠ Str s.

(** How a similar listing is displayed: only the display columns, the link
    made clickable. *)
Definition display_row (vehicle_type : string) (r : gmap string scalar) :
    gmap string scalar :=
  <["ad_url" := ad_link (cell r "ad_url")]>
    (filter (λ kv, kv.1 ∈ display_cols vehicle_type) r).

(** *** What the loader does to one row *)

Definition set_cell (c : string) (f : gmap string scalar → scalar)
    (r : gmap string scalar) : gmap string scalar :=
  <[c := f r]> r.

(** A comparison of a cell with a number; false unless the cell is a number. *)
Definition cmp_cell (op : Q → Q → bool) (x : Q) (v : scalar) : bool :=
  match v with Num q => op q x | _ => false end.

Definition int_cell (v : scalar) : scalar :=
  match v with Num q => Num (truncate q) | _ => v end.

Definition age_cell (this_year : Z) (v : scalar) : scalar :=
  match v with Num q => Num (inject_Z this_year - q)%Q | _ => v end.

(** The average of two odometer readings as pandas computes it, missing
    unless both are numbers. *)
Definition average_cell (ints : bool) (a b : scalar) : scalar :=
  match a, b with
  | Num p, Num q => Num (float_div (round64 (sum2 ints p q)) 2)
  | _, _ => NaN
  end.

(** [price] and [year] made numeric. *)
Definition prepare_row (r : gmap string scalar) : gmap string scalar :=
  set_cell "year" (λ r, to_numeric1 (cell r "year"))
    (set_cell "price" (λ r, to_numeric1 (cell r "price")) r).

(** The filter of [load_car_data]. *)
Definition keep_row (this_year : Z) (r : gmap string scalar) : bool :=
  cmp_cell (λ q x, Qlt_bool x q) 0 (cell r "price")
  && cmp_cell Qlt_bool 1000000 (cell r "price")
  && notna (cell r "year")
  && cmp_cell (λ q x, Qle_bool x q) 1900 (cell r "year")
  && cmp_cell Qle_bool (inject_Z this_year) (cell r "year").

(** [process_vehicle_data] on one row; [ints] tells that both odometer
    columns are [int64] columns. *)
Definition process_row (this_year : Z) (ints : bool) (r : gmap string scalar) :
    gmap string scalar :=
  set_cell "mileage_avg"
    (λ r, average_cell ints (cell r "mileage_min") (cell r "mileage_max"))
    (set_cell "mileage_max" (λ r, to_numeric1 (cell r "mileage_max"))
       (set_cell "mileage_min" (λ r, to_numeric1 (cell r "mileage_min"))
          (set_cell "age" (λ r, age_cell this_year (cell r "year")) r))).

(** The integer year, then [process_vehicle_data]. *)
Definition finish_row (this_year : Z) (ints : bool) (r : gmap string scalar) :
    gmap string scalar :=
  process_row this_year ints (set_cell "year" (λ r, int_cell (cell r "year")) r).

(** The listing invariant in the words of the specification: [mileage_avg]
    is a number, not negative, the average of the two odometer readings, and
    [fuel_type] is a lower-case string. *)
Definition car_listing_as_specified (r : gmap string scalar) : Prop :=
  (∃ lo hi avg, cell r "mileage_min" = Num lo ∧ cell r "mileage_max" = Num hi
                ∧ cell r "mileage_avg" = Num avg
                ∧ (avg == (lo + hi) / 2)%Q ∧ (0 <= avg)%Q)
  ∧ (∃ s, cell r "fuel_type" = Str s ∧ ascii_lower s = s).

(** *** What [predict_price] hands to the forest *)

(** The cell built for feature [f]: the code of its value when the feature
    has an encoder, the value itself otherwise; nothing when the value is
    absent or unknown to the encoder. *)
Definition encoded_value (encoders : gmap string LabelEncoder)
    (inputs : gmap string scalar) (f : string) : option scalar :=
  match inputs !! f with
  | None => None
  | Some v =>
      match encoders !! f with
      | None => Some v
      | Some enc =>
          match encode enc (py_str v) with
          | inr i => Some (code_cell i)
          | inl _ => None
          end
      end
  end.

(** The cells of all features, in order. *)
Definition encoded_row (encoders : gmap string LabelEncoder)
    (inputs : gmap string scalar) (features : list string) :
    list (string * scalar) :=
  omap (λ f, match encoded_value encoders inputs f with
             | Some v => Some (f, v)
             | None => None
             end) features.

(** [silent m]: [m] shows nothing. *)
Definition silent {A} (m : py A) : Prop := ∀ w, screen (m w).2 = screen w.

(** What the loader does to a kept row: the integer year and [age], and the
    odometer columns when the export has both of them. *)
Definition loaded_row (raw : DataFrame) (this_year : Z) (ints : bool)
    (r : gmap string scalar) : gmap string scalar :=
  if has_column raw "mileage_min" && has_column raw "mileage_max"
  then finish_row this_year ints r
  else set_cell "age" (λ r, age_cell this_year (cell r "year"))
         (set_cell "year" (λ r, int_cell (cell r "year")) r).

(** The columns the loader writes. *)
Definition loader_columns : list string :=
  ["price"; "year"; "age"; "mileage_min"; "mileage_max"; "mileage_avg"].

(** *** What the Market Overview page writes into a car listing *)

(** Some listing of the table holds a value in column [c]. *)
Definition has_value (d : DataFrame) (c : string) : Prop :=
  ∃ r, r ∈ rows d ∧ notna (cell r c) = true.

(** plotly draws a chart of one value or more. *)
Definition plotly_draws : Prop :=
  ∀ v vs, px_bar (v :: vs) = inr () ∧ px_pie (v :: vs) = inr ().

Definition segment_cell (price : scalar) : scalar :=
  match create_price_segment price with
  | inr v => v
  | inl _ => NaN
  end.

Definition overview_row (r : gmap string scalar) : gmap string scalar :=
  set_cell "fuel_type" (λ r, lower_cell (cell r "fuel_type"))
    (set_cell "price_segment" (λ r, segment_cell (cell r "price")) r).

(** *** The widget values the form can return *)

(** The same cell: the same string, numbers of the same value, or missing
    both. *)
Definition same_cell (x y : scalar) : bool :=
  match x, y with
  | NaN, NaN => true
  | _, _ => scalar_eqb x y
  end.

(** [y] lies between the bounds the form reads off the [year] column. *)
Definition year_offered (d : DataFrame) (y : Z) : bool :=
  match getitem d "year" with
  | inr year =>
      match series_min year, series_max year with
      | inr lo, inr hi =>
          match py_int lo, py_int hi with
          | inr lo, inr hi => (lo <=? y)%Z && (y <=? hi)%Z
          | _, _ => false
          end
      | _, _ => false
      end
  | inl _ => false
  end.

(** The widget values are among what the form offers: a make of the table,
    a model of a listing of that make, a year between the bounds and, for
    cars, a mileage between 0 and 500000 and a transmission and a fuel type
    of the table. *)
Definition offered (d : DataFrame) (vehicle_type : string) (ws : widgets) : bool :=
  existsb (λ r, same_cell (cell r "make") (w_make ws)) (rows d)
  && existsb (λ r, scalar_eqb (cell r "make") (w_make ws)
                   && same_cell (cell r "model") (w_model ws)) (rows d)
  && year_offered d (w_year ws)
  && (if decide (vehicle_type = "car") then
        (0 <=? w_mileage_avg ws)%Z && (w_mileage_avg ws <=? 500000)%Z
        && existsb (λ r, same_cell (cell r "transmission") (w_transmission ws)) (rows d)
        && existsb (λ r, same_cell (cell r "fuel_type") (w_fuel_type ws)) (rows d)
      else true).

(** ** [app.py]: the sidebar filters *)

(** [s.isin(values)] for a list of strings: a cell is in when it is one of
    them; a missing cell or a number is not. *)
Definition series_isin (s : Series) (values : list string) : list bool :=
  map (λ v, match v with
            | Str x => bool_decide (x ∈ values)
            | _ => false
            end) (s_values s).

(** The block "Apply filters" of [main]: [price_range] and [year_range] are
    what the two sliders returned, [selected_makes] the chosen brands.  The
    result is the table the four pages are given. *)
Definition apply_filters (df : nat) (price_range year_range : Z * Z)
    (selected_makes : list string) : py nat :=
  d ← deref df;
  price ← lift (getitem d "price");
  in_price ←
    lift (series_between price (inject_Z price_range.1) (inject_Z price_range.2));
  year ← lift (getitem d "year");
  in_year ←
    lift (series_between year (inject_Z year_range.1) (inject_Z year_range.2));
  filtered_df ← new_frame (where_frame d (mask_and in_price in_year));
  if negb (bool_decide (selected_makes = [])) then
    d ← deref filtered_df;
    make ← lift (getitem d "make");
    new_frame (where_frame d (series_isin make selected_makes))
  else mret filtered_df.

(** A cell that is a number between two bounds, both included. *)
Definition in_range (range : Z * Z) (v : scalar) : bool :=
  match v with
  | Num q => Qle_bool (inject_Z range.1) q && Qle_bool q (inject_Z range.2)
  | _ => false
  end.

(** A listing passes the filters when price and year are within the ranges
    and, if any brand is chosen, its make is one of them. *)
Definition passes_filters (price_range year_range : Z * Z)
    (selected_makes : list string) (r : gmap string scalar) : bool :=
  in_range price_range (cell r "price")
  && in_range year_range (cell r "year")
  && match selected_makes with
     | [] => true
     | _ => match cell r "make" with
            | Str x => bool_decide (x ∈ selected_makes)
            | _ => false
            end
     end.

(** ** [pages/regional_analysis.py]: location names *)

(** [MALAYSIA_STATES] of [utils/constants.py]: name, latitude, longitude. *)
Definition MALAYSIA_STATES : list (string * (Q * Q)) :=
  [("Johor", (1.4854, 103.7618)%Q);
   ("Kedah", (6.1184, 100.3685)%Q);
   ("Kelantan", (6.1254, 102.2386)%Q);
   ("Melaka", (2.1896, 102.2501)%Q);
   ("Malacca", (2.1896, 102.2501)%Q);
   ("Negeri Sembilan", (2.7258, 101.9424)%Q);
   ("N. Sembilan", (2.7258, 101.9424)%Q);
   ("Pahang", (3.8126, 103.3256)%Q);
   ("Perak", (4.5921, 101.0901)%Q);
   ("Perlis", (6.4449, 100.2048)%Q);
   ("Pulau Pinang", (5.4141, 100.3288)%Q);
   ("Penang", (5.4141, 100.3288)%Q);
   ("P. Pinang", (5.4141, 100.3288)%Q);
   ("Sabah", (5.9788, 116.0753)%Q);
   ("Sarawak", (1.5533, 110.3592)%Q);
   ("Selangor", (3.0738, 101.5183)%Q);
   ("Terengganu", (5.3117, 103.1324)%Q);
   ("Kuala Lumpur", (3.1390, 101.6869)%Q);
   ("KL", (3.1390, 101.6869)%Q);
   ("W.P. Kuala Lumpur", (3.1390, 101.6869)%Q);
   ("Federal Territory of Kuala Lumpur", (3.1390, 101.6869)%Q)].

Definition location_mapping : list (string * string) :=
  [("Malacca", "Melaka");
   ("N. Sembilan", "Negeri Sembilan");
   ("Penang", "Pulau Pinang");
   ("P. Pinang", "Pulau Pinang");
   ("KL", "W.P. Kuala Lumpur");
   ("Kuala Lumpur", "W.P. Kuala Lumpur");
   ("Federal Territory of Kuala Lumpur", "W.P. Kuala Lumpur");
   ("Putrajaya", "W.P. Putrajaya");
   ("Labuan", "W.P. Labuan")].

(** [key in d] and [d.get(key, default)] on a dict written as a list. *)
Definition dict_has {V} (d : list (string * V)) (key : string) : bool :=
  bool_decide (key ∈ d.*1).

Definition dict_get {V} (d : list (string * V)) (key : string) (default : V) : V :=
  match list_find (λ kv, kv.1 = key) d with
  | Some (_, (_, v)) => v
  | None => default
  end.

(** [standardize_location(location)]; a cell that is not a string is in
    neither dict and comes back as it is. *)
Definition standardize_location (location : scalar) : scalar :=
  match location with
  | Str name =>
      if dict_has MALAYSIA_STATES name then location
      else Str (dict_get location_mapping name name)
  | _ => location
  end.

(** The segment the Market Overview page writes into a motorcycle listing. *)
Definition motorcycle_segment_cell (price : scalar) : scalar :=
  match create_motorcycle_price_segment price with
  | inr v => v
  | inl _ => NaN
  end.

(** *** Tables seen through some of their columns *)

(** [same_on cols d1 d2]: the columns [cols] have the same type in both
    tables (or are absent from both), and the rows of the two tables agree,
    one by one, on them.  Other columns are unconstrained. *)
Definition same_on (cols : list string) (d1 d2 : DataFrame) : Prop :=
  (∀ c, c ∈ cols →
     snd <$> list_find (λ cd, cd.1 = c) (columns d1)
     = snd <$> list_find (λ cd, cd.1 = c) (columns d2))
  ∧ Forall2 (λ r1 r2 : gmap string scalar, ∀ c, c ∈ cols → r1 !! c = r2 !! c)
      (rows d1) (rows d2).

(** * Properties *)

Local Open Scope list_scope.
Set Default Proof Using "Type".

(** ** Machine numbers *)

Lemma pow2_pos e : (0 < pow2 e)%Q.
Proof. by apply Qpower_0_lt. Qed.

Lemma pow2_add a b : (pow2 (a + b) == pow2 a * pow2 b)%Q.
Proof. by apply Qpower_plus. Qed.

Lemma pow2_Z n : (0 ≤ n)%Z → (inject_Z (2 ^ n) == pow2 n)%Q.
Proof. intros Hn. by apply Zpower_Qpower. Qed.

Lemma pow2_le a b : (a ≤ b)%Z → (pow2 a <= pow2 b)%Q.
Proof. intros Hab. by apply Qpower_le_compat_l. Qed.

Lemma pow2_lt_inv a b : (pow2 a < pow2 b)%Q → (a < b)%Z.
Proof. intros Hab. by apply (Qpower_lt_compat_l_inv 2). Qed.

Lemma Qabs_Qmake (q : Q) :
  (Qabs q == inject_Z (Z.abs (Qnum q)) / inject_Z (Zpos (Qden q)))%Q.
Proof.
  destruct q as [n d]. unfold Qabs. cbn [Qnum Qden]. by rewrite Qmake_Qdiv.
Qed.

Lemma ilog2_spec (q : Q) :
  ¬ (q == 0)%Q → (pow2 (ilog2 q) <= Qabs q)%Q ∧ (Qabs q < pow2 (ilog2 q + 1))%Q.
Proof.
  intros Hq.
  assert (0 < Z.abs (Qnum q))%Z as Hn.
  { destruct q as [[|n|n] d]; cbn; try lia. destruct Hq. reflexivity. }
  pose proof (Z.log2_spec _ Hn) as [Hn1 Hn2].
  pose proof (Z.log2_spec (Zpos (Qden q)) ltac:(lia)) as [Hd1 Hd2].
  pose proof (Z.log2_nonneg (Z.abs (Qnum q))) as Ha.
  pose proof (Z.log2_nonneg (Zpos (Qden q))) as Hb.
  set (n := Z.abs (Qnum q)) in *. set (d := Zpos (Qden q)) in *.
  set (a := Z.log2 n) in *. set (b := Z.log2 d) in *.
  assert (Qabs q == inject_Z n / inject_Z d)%Q as Habs by apply Qabs_Qmake.
  assert (0 < inject_Z d)%Q as Hdpos.
  { unfold d. unfold Qlt. cbn. lia. }
  assert (Qabs q * inject_Z d == inject_Z n)%Q as Hmul.
  { rewrite Habs. field. intros H0. rewrite H0 in Hdpos. by apply Qlt_irrefl in Hdpos. }
  (* the two outer bounds *)
  assert (Qabs q < pow2 (a - b + 1))%Q as Hup.
  { apply (Qmult_lt_r _ _ (inject_Z d * pow2 b)).
    { apply Qmult_lt_0_compat; [done|apply pow2_pos]. }
    assert (Qabs q * (inject_Z d * pow2 b) == inject_Z n * pow2 b)%Q as ->
      by (rewrite <- Hmul; ring).
    assert (pow2 (a - b + 1) * (inject_Z d * pow2 b) == pow2 (a + 1) * inject_Z d)%Q
      as ->.
    { replace (a + 1)%Z with ((a - b + 1) + b)%Z by lia.
      rewrite (pow2_add (a - b + 1) b). ring. }
    rewrite <- !pow2_Z by lia. rewrite <- !inject_Z_mult. rewrite <- Zlt_Qlt. nia. }
  assert (pow2 (a - b - 1) < Qabs q)%Q as Hlow.
  { apply (Qmult_lt_r _ _ (inject_Z d * pow2 (b + 1))).
    { apply Qmult_lt_0_compat; [done|apply pow2_pos]. }
    assert (Qabs q * (inject_Z d * pow2 (b + 1)) == inject_Z n * pow2 (b + 1))%Q
      as -> by (rewrite <- Hmul; ring).
    assert (pow2 (a - b - 1) * (inject_Z d * pow2 (b + 1)) == pow2 a * inject_Z d)%Q
      as ->.
    { replace (pow2 a) with (pow2 ((a - b - 1) + (b + 1))) by (f_equal; lia).
      rewrite (pow2_add (a - b - 1) (b + 1)). ring. }
    rewrite <- !pow2_Z by lia. rewrite <- !inject_Z_mult. rewrite <- Zlt_Qlt. nia. }
  unfold ilog2. fold n d a b.
  destruct (Qle_bool (pow2 (a - b)) (Qabs q)) eqn:Hle.
  - apply Qle_bool_iff in Hle. done.
  - split.
    + by apply Qlt_le_weak.
    + replace (a - b - 1 + 1)%Z with (a - b)%Z by lia.
      apply Qnot_le_lt. intros H. apply Qle_bool_iff in H. congruence.
Qed.

Lemma round_half_even_error x :
  (Qabs (inject_Z (round_half_even x) - x) <= 1 # 2)%Q.
Proof.
  pose proof (Qfloor_le x) as Hlo. pose proof (Qlt_floor x) as Hhi.
  rewrite inject_Z_plus in Hhi. change (inject_Z 1) with 1%Q in Hhi.
  unfold round_half_even.
  destruct (Qcompare_spec (x - inject_Z (Qfloor x)) (1 # 2)) as [H|H|H].
  - destruct (Z.even (Qfloor x));
      [|rewrite inject_Z_plus; change (inject_Z 1) with 1%Q];
      apply Qabs_case; intros _; lra.
  - apply Qabs_case; intros _; lra.
  - rewrite inject_Z_plus. change (inject_Z 1) with 1%Q.
    apply Qabs_case; intros _; lra.
Qed.

Lemma round_half_even_comp x y : (x == y)%Q → round_half_even x = round_half_even y.
Proof.
  intros Hxy. unfold round_half_even. rewrite (Qfloor_comp _ _ Hxy).
  assert ((x - inject_Z (Qfloor y) ?= 1 # 2) = (y - inject_Z (Qfloor y) ?= 1 # 2))%Q as ->.
  { by rewrite Hxy. }
  done.
Qed.

Lemma round_half_even_Z z : round_half_even (inject_Z z) = z.
Proof.
  unfold round_half_even. rewrite Qfloor_Z.
  assert ((inject_Z z - inject_Z z ?= 1 # 2)%Q = Lt) as ->; [|done].
  apply Qlt_alt. assert (inject_Z z - inject_Z z == 0)%Q as -> by ring. reflexivity.
Qed.

Lemma round64_eq q :
  ¬ (q == 0)%Q →
  (round64 q
   == inject_Z (round_half_even (q / pow2 (Z.max (ilog2 q - 52) (-1074))))
      * pow2 (Z.max (ilog2 q - 52) (-1074)))%Q.
Proof.
  intros Hq. unfold round64.
  destruct (Qeq_bool q 0) eqn:H0; [apply Qeq_bool_iff in H0; done|].
  apply Qred_correct.
Qed.

(** Away from the subnormal numbers, rounding moves a number by at most
    2^-53 of its size. *)
Lemma round64_error q :
  (pow2 (-1022) <= Qabs q)%Q →
  (Qabs (round64 q - q) <= Qabs q * pow2 (-53))%Q.
Proof.
  intros Hnormal.
  assert (¬ (q == 0)%Q) as Hq.
  { intros H0. rewrite H0 in Hnormal. pose proof (pow2_pos (-1022)).
    change (Qabs 0) with 0%Q in Hnormal. lra. }
  destruct (ilog2_spec q Hq) as [Hlo Hhi].
  assert (-1022 < ilog2 q + 1)%Z as Hk.
  { apply pow2_lt_inv. eapply Qle_lt_trans; done. }
  rewrite (round64_eq q Hq). rewrite Z.max_l by lia.
  set (e := (ilog2 q - 52)%Z).
  pose proof (pow2_pos e) as He.
  pose proof (round_half_even_error (q / pow2 e)) as Herr.
  set (m := inject_Z (round_half_even (q / pow2 e))) in *.
  assert (m * pow2 e - q == (m - q / pow2 e) * pow2 e)%Q as ->.
  { field. intros H0. rewrite H0 in He. by apply Qlt_irrefl in He. }
  rewrite Qabs_Qmult. rewrite (Qabs_pos (pow2 e)) by by apply Qlt_le_weak.
  assert (pow2 (ilog2 q) == pow2 e * pow2 52)%Q as Hsplit.
  { unfold e. rewrite <- pow2_add. by replace (ilog2 q - 52 + 52)%Z with (ilog2 q) by lia. }
  assert (pow2 52 * pow2 (-53) == 1 # 2)%Q as Hhalf by reflexivity.
  pose proof (pow2_pos (-53)) as H53. pose proof (pow2_pos 52) as H52.
  apply Qle_trans with ((1 # 2) * pow2 e)%Q.
  - apply Qmult_le_compat_r; [done|by apply Qlt_le_weak].
  - apply Qle_trans with (pow2 (ilog2 q) * pow2 (-53))%Q.
    + rewrite Hsplit. rewrite <- Hhalf. apply Qle_lteq. right. ring.
    + apply Qmult_le_compat_r; [done|by apply Qlt_le_weak].
Qed.

(** A number with at most 53 significant bits is not moved. *)
Lemma round64_exact q m j :
  (Z.abs m < 2 ^ 53)%Z → (-1074 ≤ j)%Z → (q == inject_Z m * pow2 j)%Q →
  (round64 q == q)%Q.
Proof.
  intros Hm Hj Hqm.
  destruct (Qeq_dec q 0) as [H0|Hq].
  { unfold round64. assert (Qeq_bool q 0 = true) as -> by by apply Qeq_bool_iff.
    by symmetry. }
  destruct (ilog2_spec q Hq) as [Hlo _].
  pose proof (pow2_pos j) as Hpj.
  assert (Qabs q < pow2 (53 + j))%Q as Hup.
  { rewrite Hqm, Qabs_Qmult, (Qabs_pos (pow2 j)) by by apply Qlt_le_weak.
    rewrite pow2_add. apply Qmult_lt_compat_r; [done|].
    rewrite <- pow2_Z by lia. unfold Qabs. cbn [inject_Z].
    change (Z.abs m # 1)%Q with (inject_Z (Z.abs m)). by rewrite <- Zlt_Qlt. }
  assert (ilog2 q < 53 + j)%Z as Hk.
  { apply pow2_lt_inv. eapply Qle_lt_trans; done. }
  rewrite (round64_eq q Hq).
  set (e := Z.max (ilog2 q - 52) (-1074)).
  assert (e ≤ j)%Z as Hej by (unfold e; lia).
  pose proof (pow2_pos e) as He.
  assert (q / pow2 e == inject_Z (m * 2 ^ (j - e)))%Q as Hint.
  { rewrite inject_Z_mult, pow2_Z by lia. rewrite Hqm.
    replace j with ((j - e) + e)%Z at 1 by lia. rewrite pow2_add.
    field. intros H0. rewrite H0 in He. by apply Qlt_irrefl in He. }
  rewrite (round_half_even_comp _ _ Hint), round_half_even_Z.
  rewrite <- Hint. field. intros H0. rewrite H0 in He. by apply Qlt_irrefl in He.
Qed.

Lemma wrap64_small z : (- 2 ^ 63 ≤ z < 2 ^ 63)%Z → wrap64 z = z.
Proof. intros Hz. unfold wrap64. rewrite Z.mod_small; lia. Qed.

Lemma round64_whole q m :
  (Z.abs m < 2 ^ 53)%Z → (q == inject_Z m)%Q → (round64 q == inject_Z m)%Q.
Proof.
  intros Hm Hq. rewrite <- Hq. apply (round64_exact q m 0); [done|lia|].
  rewrite Hq. change (pow2 0) with 1%Q. ring.
Qed.

(** The average of two whole numbers below 2^52 in size is exact, whichever
    way the columns are held. *)
Lemma average_of_whole (ints : bool) (p q : Q) (a b : Z) :
  (p == inject_Z a)%Q → (q == inject_Z b)%Q →
  (Z.abs a < 2 ^ 52)%Z → (Z.abs b < 2 ^ 52)%Z →
  (float_div (round64 (sum2 ints p q)) 2 == (inject_Z a + inject_Z b) / 2)%Q.
Proof.
  intros Hp Hq Ha Hb.
  assert (sum2 ints p q == inject_Z (a + b))%Q as Hsum.
  { unfold sum2. destruct ints.
    - rewrite (Qfloor_comp _ _ Hp), (Qfloor_comp _ _ Hq), !Qfloor_Z.
      rewrite wrap64_small by lia. done.
    - unfold float_add. apply round64_whole; [lia|].
      rewrite (round64_whole p a), (round64_whole q b) by (done || lia).
      by rewrite inject_Z_plus. }
  pose proof (round64_whole _ (a + b) ltac:(lia) Hsum) as Hround.
  unfold float_div.
  rewrite (round64_exact _ (a + b) (-1)); [| lia | lia |].
  - rewrite Hround, inject_Z_plus. done.
  - rewrite Hround. change (pow2 (-1)) with (1 # 2)%Q. field.
Qed.

(** ** Running a computation *)

Lemma run_bind {A B} (m : py A) (f : A → py B) w :
  (m ≫= f) w =
  match m w with (inr a, w') => f a w' | (inl e, w') => (inl e, w') end.
Proof. reflexivity. Qed.

Lemma run_ret {A} (a : A) w : mret (M := py) a w = (inr a, w).
Proof. reflexivity. Qed.

Lemma run_lift_ok {A} (a : A) w : lift (inr a) w = (inr a, w).
Proof. reflexivity. Qed.

Lemma run_lift_raise {A} e w : lift (A := A) (inl e) w = (inl e, w).
Proof. reflexivity. Qed.

Lemma run_deref l d w : heap w !! l = Some d → deref l w = (inr d, w).
Proof. intros H. unfold deref. by rewrite H. Qed.

(** ** Framing: what a computation leaves alone in the store *)

Section Framing.

(** The references that must keep their tables. *)
Variable L : gset nat.

Lemma keeps_dom {A} (m : py A) Q w :
  keeps L m Q → L ⊆ dom (heap w) → L ⊆ dom (heap (m w).2).
Proof.
  intros Hm Hw l Hl. destruct (Hm w Hw) as [Hh _].
  apply elem_of_dom. rewrite (Hh l Hl). apply elem_of_dom. auto.
Qed.

Lemma keeps_ret {A} (a : A) (Q : A → Prop) : Q a → keeps L (mret a) Q.
Proof. intros HQ w _. split; [done|]. intros a' [= <-]. done. Qed.

Lemma keeps_raise {A} e (Q : A → Prop) : keeps L (raise e) Q.
Proof. intros w _. split; [done|]. intros a' [=]. Qed.

Lemma keeps_lift {A} (r : exn + A) (Q : A → Prop) :
  (∀ a, r = inr a → Q a) → keeps L (lift r) Q.
Proof. destruct r; intros H; [apply keeps_raise | apply keeps_ret; auto]. Qed.

Lemma keeps_bind {A B} (m : py A) (f : A → py B) Q R :
  keeps L m Q → (∀ a, Q a → keeps L (f a) R) → keeps L (m ≫= f) R.
Proof.
  intros Hm Hf w Hw. rewrite run_bind.
  pose proof (keeps_dom m Q w Hm Hw) as Hdom.
  destruct (Hm w Hw) as [Hh Hv].
  destruct (m w) as [[e|a] w'] eqn:Hrun; simpl in *.
  - split; [done|]. intros ? [=].
  - destruct (Hf a (Hv a eq_refl) w' Hdom) as [Hh' Hv'].
    split; [|done]. intros l Hl. rewrite Hh' by done. auto.
Qed.

Lemma keeps_try_except {A} (body : py A) catches handler (Q : A → Prop) :
  keeps L body Q → (∀ e, keeps L (handler e) Q) →
  keeps L (try_except body catches handler) Q.
Proof.
  intros Hb Hh w Hw. unfold try_except.
  pose proof (keeps_dom body Q w Hb Hw) as Hdom.
  destruct (Hb w Hw) as [Hbh Hbv].
  destruct (body w) as [[e|a] w'] eqn:Hrun; simpl in *; [|by split].
  destruct (catches e).
  - destruct (Hh e w' Hdom) as [Hh' Hv']. split; [|done].
    intros l Hl. rewrite Hh' by done. auto.
  - split; [done|]. intros ? [=].
Qed.

Lemma keeps_show lv t : keeps L (show lv t) (λ _, True).
Proof. intros w _. by split. Qed.

Lemma keeps_deref l : keeps L (deref l) (λ _, True).
Proof. intros w _. unfold deref. destruct (heap w !! l); by split. Qed.

Lemma keeps_draw : keeps L draw (λ _, True).
Proof. intros w _. by split. Qed.

(** A new table lands outside [L]. *)
Lemma keeps_new_frame d : keeps L (new_frame d) (λ l, l ∉ L).
Proof.
  intros w Hw.
  assert (fresh (dom (heap w)) ∉ L) as Hfresh.
  { intros Hin. apply (is_fresh (dom (heap w))). auto. }
  unfold new_frame; cbn [fst snd heap]. split.
  - intros l Hl. apply lookup_insert_ne. intros Heq. by subst l.
  - intros a [= Ha]. by subst a.
Qed.

(** Writing through a reference outside [L] is harmless. *)
Lemma keeps_update_frame l d : l ∉ L → keeps L (update_frame l d) (λ _, True).
Proof.
  intros Hl w _. unfold update_frame; cbn [fst snd heap]. split; [|done].
  intros l' Hl'. apply lookup_insert_ne. intros Heq. by subst l'.
Qed.

Lemma keeps_copy l : keeps L (copy l) (λ l', l' ∉ L).
Proof.
  unfold copy. eapply keeps_bind; [apply keeps_deref|].
  intros d _. apply keeps_new_frame.
Qed.

Lemma keeps_dropna l cols : keeps L (dropna l cols) (λ l', l' ∉ L).
Proof.
  unfold dropna. eapply keeps_bind; [apply keeps_deref|]. intros d _.
  eapply keeps_bind; [apply keeps_lift with (Q := λ _, True); done|].
  intros d' _. apply keeps_new_frame.
Qed.

Lemma keeps_setitem l c s : l ∉ L → keeps L (setitem l c s) (λ _, True).
Proof.
  intros Hl. unfold setitem. eapply keeps_bind; [apply keeps_deref|]. intros d _.
  eapply keeps_bind; [apply keeps_lift with (Q := λ _, True); done|].
  intros d' _. by apply keeps_update_frame.
Qed.

Lemma keeps_check_random_state rs : keeps L (check_random_state rs) (λ _, True).
Proof. destruct rs; [by apply keeps_ret | apply keeps_draw]. Qed.

Lemma keeps_encode_columns l cols le_dict :
  l ∉ L → keeps L (encode_columns l cols le_dict) (λ _, True).
Proof.
  intros Hl. revert le_dict. induction cols as [|col cols IH]; intros le_dict; simpl.
  - by apply keeps_ret.
  - eapply keeps_bind; [apply keeps_deref|]. intros d _.
    eapply keeps_bind; [apply keeps_lift with (Q := λ _, True); done|].
    intros s _. destruct (decide (s_dtype s = object)); [|apply IH].
    eapply keeps_bind; [apply keeps_lift with (Q := λ _, True); done|].
    intros codes _.
    eapply keeps_bind; [by apply keeps_setitem|]. intros _ _. apply IH.
Qed.

Lemma keeps_fit_and_score Xa Xb ya yb le_dict features :
  keeps L (fit_and_score Xa Xb ya yb le_dict features) (λ _, True).
Proof.
  unfold fit_and_score. apply keeps_try_except.
  - unfold RandomForestRegressor_fit.
    eapply keeps_bind.
    { eapply keeps_bind; [apply keeps_check_random_state|].
      intros seed _. apply keeps_lift with (Q := λ _, True); done. }
    intros m _.
    eapply keeps_bind; [apply keeps_lift with (Q := λ _, True); done|]. intros s1 _.
    eapply keeps_bind; [apply keeps_lift with (Q := λ _, True); done|]. intros s2 _.
    by apply keeps_ret.
  - intros e. eapply keeps_bind; [apply keeps_show|]. intros _ _. by apply keeps_ret.
Qed.

Lemma keeps_split_and_fit d le_dict features :
  keeps L (split_and_fit d le_dict features) (λ _, True).
Proof.
  unfold split_and_fit.
  eapply keeps_bind; [apply keeps_lift with (Q := λ _, True); done|]. intros X _.
  eapply keeps_bind; [apply keeps_lift with (Q := λ _, True); done|]. intros y _.
  eapply keeps_bind.
  { unfold train_test_split.
    eapply keeps_bind; [apply keeps_check_random_state|].
    intros seed _. apply keeps_lift with (Q := λ _, True); done. }
  intros [[[Xa Xb] ya] yb] _. apply keeps_fit_and_score.
Qed.

Lemma keeps_train df vehicle_type :
  keeps L (train_price_prediction_model df vehicle_type) (λ _, True).
Proof.
  unfold train_price_prediction_model. apply keeps_try_except.
  - eapply keeps_bind; [apply keeps_copy|]. intros l1 Hl1. simpl.
    eapply keeps_bind; [apply keeps_deref|]. intros d _.
    destruct (negb _).
    { eapply keeps_bind; [apply keeps_show|]. intros _ _. by apply keeps_ret. }
    eapply keeps_bind; [apply keeps_dropna|]. intros l2 Hl2. simpl.
    eapply keeps_bind; [apply keeps_deref|]. intros d2 _.
    destruct (len d2 <? 100)%nat.
    { eapply keeps_bind; [apply keeps_show|]. intros _ _. by apply keeps_ret. }
    eapply keeps_bind; [by apply keeps_encode_columns|]. intros le_dict _.
    eapply keeps_bind; [apply keeps_deref|]. intros d3 _.
    apply keeps_split_and_fit.
  - intros e. eapply keeps_bind; [apply keeps_show|]. intros _ _. by apply keeps_ret.
Qed.

End Framing.

(** C10. Training never writes to a table that existed before the call: every
    reference of the caller's store, the argument [df] among them, still
    points to the very same table when training returns, with a model or
    without one. *)
Theorem train_leaves_caller_tables (df : nat) (vehicle_type : string) (w : world) :
  heap w ⊆ heap (train_price_prediction_model df vehicle_type w).2
  ∧ heap (train_price_prediction_model df vehicle_type w).2 !! df = heap w !! df
  ∧ ∃ r, (train_price_prediction_model df vehicle_type w).1 = inr r.
Proof.
  destruct (keeps_train (dom (heap w)) df vehicle_type w) as [Hkeep _]; [done|].
  split; [|split].
  - apply map_subseteq_spec. intros l d Hl.
    rewrite Hkeep; [done|]. apply elem_of_dom. eauto.
  - destruct (heap w !! df) as [d|] eqn:Hdf.
    + rewrite Hkeep; [done|]. apply elem_of_dom. eauto.
    + unfold train_price_prediction_model, try_except, copy.
      rewrite !run_bind. unfold deref. rewrite Hdf. done.
  - unfold train_price_prediction_model, try_except.
    match goal with |- context [match ?b with _ => _ end] => destruct b as [[e|a] w'] end;
      simpl; eauto.
Qed.

(** ** Columns of a table *)

Lemma has_column_true d c : has_column d c = true ↔ c ∈ column_names d.
Proof. unfold has_column. apply bool_decide_eq_true. Qed.

Lemma find_column_None (cs : list (string * dtype)) c :
  list_find (λ cd, cd.1 = c) cs = None ↔ c ∉ cs.*1.
Proof.
  rewrite list_find_None, Forall_forall. split.
  - intros H Hin. apply list_elem_of_fmap in Hin as ([c' t] & -> & Hin).
    by apply (H _ Hin).
  - intros H [c' t] Hin ?. simpl in *. subst c'. apply H.
    apply list_elem_of_fmap. by exists (c, t).
Qed.

Lemma getitem_values d c s :
  getitem d c = inr s → s_values s = map (λ r, cell r c) (rows d).
Proof.
  unfold getitem. destruct (list_find _ _) as [[i [c' t]]|]; [|done].
  by intros [= <-].
Qed.

Lemma getitem_column d c s : getitem d c = inr s → c ∈ column_names d.
Proof.
  unfold getitem. destruct (list_find _ _) as [[i [c' t]]|] eqn:Hfind; [|done].
  intros _. destruct (decide (c ∈ column_names d)) as [|Hno]; [done|].
  apply find_column_None in Hno. congruence.
Qed.

Lemma getitem_ok d c : c ∈ column_names d → ∃ s, getitem d c = inr s.
Proof.
  intros Hc. unfold getitem.
  destruct (list_find _ _) as [[i [c' t]]|] eqn:Hfind; [by eexists|].
  apply find_column_None in Hfind. done.
Qed.

Lemma find_column_set_dtype_eq c t (cs : list (string * dtype)) :
  snd <$> list_find (λ cd, cd.1 = c) (set_dtype c t cs) = Some (c, t).
Proof.
  induction cs as [|[c' t'] cs IH]; simpl.
  - by rewrite decide_True.
  - destruct (decide (c' = c)) as [->|Hne]; simpl.
    + by rewrite decide_True.
    + rewrite decide_False by done.
      destruct (list_find _ (set_dtype c t cs)) as [[i x]|]; simpl in *; [|done].
      done.
Qed.

Lemma find_column_set_dtype_ne c t c0 (cs : list (string * dtype)) :
  c ≠ c0 →
  list_find (λ cd, cd.1 = c0) (set_dtype c t cs) = list_find (λ cd, cd.1 = c0) cs.
Proof.
  intros Hne. induction cs as [|[c' t'] cs IH]; simpl.
  - by rewrite decide_False.
  - destruct (decide (c' = c)) as [->|Hne']; simpl.
    + by rewrite !decide_False.
    + destruct (decide (c' = c0)); [done|]. by rewrite IH.
Qed.

Lemma set_dtype_names c t (cs : list (string * dtype)) :
  c ∈ cs.*1 → (set_dtype c t cs).*1 = cs.*1.
Proof.
  induction cs as [|[c' t'] cs IH]; simpl; intros Hc.
  - by apply elem_of_nil in Hc.
  - destruct (decide (c' = c)) as [->|Hne]; simpl; [done|].
    f_equal. apply IH. apply elem_of_cons in Hc as [->|Hc]; done.
Qed.

Lemma cells_zip_insert_eq c (rs : list (gmap string scalar)) (vs : list scalar) :
  length vs = length rs →
  map (λ r, cell r c) (zip_with (λ r v, <[c := v]> r) rs vs) = vs.
Proof.
  revert vs. induction rs as [|r rs IH]; intros [|v vs]; simpl; try done.
  intros [= Hlen]. unfold cell at 1. rewrite lookup_insert_eq. simpl.
  f_equal. by apply IH.
Qed.

Lemma cells_zip_insert_ne c c0 (rs : list (gmap string scalar)) (vs : list scalar) :
  c ≠ c0 → length vs = length rs →
  map (λ r, cell r c0) (zip_with (λ r v, <[c := v]> r) rs vs)
  = map (λ r, cell r c0) rs.
Proof.
  intros Hne. revert vs. induction rs as [|r rs IH]; intros [|v vs]; simpl; try done.
  intros [= Hlen]. unfold cell at 1 3. rewrite lookup_insert_ne by done.
  f_equal. by apply IH.
Qed.

(** After [df[c] = s], [df[c]] is [s] and the other columns are as before. *)
Lemma getitem_setitem_eq d c s d' :
  setitem_frame d c s = inr d' → getitem d' c = inr s.
Proof.
  unfold setitem_frame. destruct (decide _) as [Hlen|]; [|done].
  intros [= <-]. unfold getitem. simpl.
  pose proof (find_column_set_dtype_eq c (s_dtype s) (columns d)) as Hfind.
  destruct (list_find _ (set_dtype _ _ _)) as [[i [c' t]]|]; simpl in *; [|done].
  injection Hfind as -> ->. rewrite cells_zip_insert_eq by done. by destruct s.
Qed.

Lemma getitem_setitem_ne d c s d' c0 :
  setitem_frame d c s = inr d' → c ≠ c0 → getitem d' c0 = getitem d c0.
Proof.
  unfold setitem_frame. destruct (decide _) as [Hlen|]; [|done].
  intros [= <-] Hne. unfold getitem. simpl.
  rewrite find_column_set_dtype_ne by done.
  by rewrite cells_zip_insert_ne.
Qed.

Lemma setitem_frame_names d c s d' :
  setitem_frame d c s = inr d' → c ∈ column_names d →
  column_names d' = column_names d.
Proof.
  unfold setitem_frame. destruct (decide _) as [Hlen|]; [|done].
  intros [= <-] Hc. by apply set_dtype_names.
Qed.

Lemma setitem_frame_len d c s d' : setitem_frame d c s = inr d' → len d' = len d.
Proof.
  unfold setitem_frame. destruct (decide _) as [Hlen|]; [|done].
  intros [= <-]. unfold len. simpl. rewrite length_zip_with. lia.
Qed.

Lemma setitem_frame_ok d c s :
  length (s_values s) = len d → ∃ d', setitem_frame d c s = inr d'.
Proof.
  intros Hlen. unfold setitem_frame. rewrite decide_True by done. by eexists.
Qed.

Lemma getitem_length d c s : getitem d c = inr s → length (s_values s) = len d.
Proof. intros H. rewrite (getitem_values _ _ _ H). by rewrite length_map. Qed.

(** [dropna] keeps the columns and exactly the complete rows. *)
Lemma dropna_frame_ok cols d :
  (∀ c, c ∈ cols → c ∈ column_names d) →
  dropna_frame cols d
  = inr (mkDataFrame (columns d) (List.filter (complete_on cols) (rows d))).
Proof.
  intros Hcols. unfold dropna_frame.
  destruct (list_find _ cols) as [[i c]|] eqn:Hfind; [|done].
  apply list_find_Some in Hfind as (Hi & Hc & _).
  assert (has_column d c = true) as Hc'.
  { apply has_column_true, Hcols. by eapply list_elem_of_lookup_2. }
  by rewrite Hc' in Hc.
Qed.

Lemma dropna_frame_inv cols d cl :
  dropna_frame cols d = inr cl →
  cl = mkDataFrame (columns d) (List.filter (complete_on cols) (rows d))
  ∧ ∀ c, c ∈ cols → c ∈ column_names d.
Proof.
  unfold dropna_frame. destruct (list_find _ cols) as [[i c]|] eqn:Hfind; [done|].
  intros [= <-]. split; [done|]. intros c Hc.
  apply list_find_None in Hfind. rewrite Forall_forall in Hfind.
  specialize (Hfind c Hc). apply has_column_true.
  destruct (has_column d c); [done|]. by destruct Hfind.
Qed.

Lemma select_frame_ok d cols :
  (∀ c, c ∈ cols → c ∈ column_names d) → ∃ X, select_frame d cols = inr X.
Proof.
  intros Hcols. unfold select_frame.
  destruct (list_find _ cols) as [[i c]|] eqn:Hfind; [|by eexists].
  apply list_find_Some in Hfind as (Hi & Hc & _).
  assert (has_column d c = true) as Hc'.
  { apply has_column_true, Hcols. by eapply list_elem_of_lookup_2. }
  by rewrite Hc' in Hc.
Qed.

(** ** The label encoder *)

Lemma map_or_raise_length {A B} (f : A → exn + B) (l : list A) ys :
  map_or_raise f l = inr ys → length ys = length l.
Proof.
  revert ys. induction l as [|x l IH]; intros ys; simpl.
  - by intros [= <-].
  - destruct (f x) as [e|y]; [done|].
    destruct (map_or_raise f l) as [e|ys']; [done|].
    intros [= <-]. simpl. f_equal. by apply IH.
Qed.

Lemma map_or_raise_lookup {A B} (f : A → exn + B) (l : list A) ys k x :
  map_or_raise f l = inr ys → l !! k = Some x →
  ∃ y, ys !! k = Some y ∧ f x = inr y.
Proof.
  revert ys k. induction l as [|x0 l IH]; intros ys k; simpl; [done|].
  destruct (f x0) as [e|y0] eqn:Hf; [done|].
  destruct (map_or_raise f l) as [e|ys'] eqn:Hrest; [done|].
  intros [= <-]. destruct k as [|k]; simpl.
  - intros [= <-]. eauto.
  - intros Hk. by apply IH.
Qed.

Lemma np_unique_elem (y : list string) v : v ∈ np_unique y ↔ v ∈ y.
Proof.
  unfold np_unique. rewrite merge_sort_Permutation. apply elem_of_remove_dups.
Qed.

Lemma np_unique_NoDup (y : list string) : NoDup (np_unique y).
Proof.
  unfold np_unique. rewrite merge_sort_Permutation. apply NoDup_remove_dups.
Qed.

Lemma np_unique_Sorted (y : list string) : Sorted String.le (np_unique y).
Proof. unfold np_unique. apply Sorted_merge_sort. apply _. Qed.

Lemma index_of_Some v (l : list string) i :
  index_of v l = Some i → l !! i = Some v.
Proof.
  unfold index_of. destruct (list_find _ l) as [[j x]|] eqn:Hfind; [|done].
  simpl. intros [= <-]. apply list_find_Some in Hfind as (Hj & -> & _). done.
Qed.

Lemma index_of_None v (l : list string) : index_of v l = None ↔ v ∉ l.
Proof.
  unfold index_of. destruct (list_find _ l) as [[j x]|] eqn:Hfind; simpl.
  - apply list_find_Some in Hfind as (Hj & -> & _).
    split; [done|]. intros Hv. destruct Hv. by eapply list_elem_of_lookup_2.
  - split; [|done]. intros _ Hv.
    apply list_find_None in Hfind. rewrite Forall_forall in Hfind.
    by apply (Hfind v).
Qed.

Lemma index_of_NoDup v (l : list string) i :
  NoDup l → l !! i = Some v → index_of v l = Some i.
Proof.
  intros Hnd Hi. destruct (index_of v l) as [j|] eqn:Hj.
  - apply index_of_Some in Hj. f_equal. by eapply NoDup_lookup.
  - apply index_of_None in Hj. destruct Hj. by eapply list_elem_of_lookup_2.
Qed.

(** A seen label gets its position among the classes; an unseen one a
    [ValueError] carrying the label. *)
Lemma encode_seen enc v :
  v ∈ classes_ enc → ∃ i, encode enc v = inr i ∧ classes_ enc !! i = Some v.
Proof.
  intros Hv. unfold encode.
  destruct (index_of v (classes_ enc)) as [i|] eqn:Hi.
  - exists i. split; [done|]. by apply index_of_Some.
  - by apply index_of_None in Hi.
Qed.

Lemma encode_unseen enc v : v ∉ classes_ enc → encode enc v = inl (ValueError v).
Proof. intros Hv. unfold encode. apply index_of_None in Hv. by rewrite Hv. Qed.

Lemma map_or_raise_total {A B} (f : A → exn + B) (l : list A) :
  (∀ x, x ∈ l → ∃ y, f x = inr y) → ∃ ys, map_or_raise f l = inr ys.
Proof.
  induction l as [|x l IH]; intros Hf; simpl; [by eexists|].
  destruct (Hf x) as [y ->]; [by left|].
  destruct IH as [ys ->]; [|by eexists].
  intros x' Hx'. apply Hf. by right.
Qed.

(** Fitting and transforming the same values never raises. *)
Lemma transform_fit (y : list string) :
  ∃ codes, transform (fit y) y = inr codes ∧ length codes = length y.
Proof.
  destruct (map_or_raise_total (encode (fit y)) y) as [codes Hcodes].
  - intros v Hv. destruct (encode_seen (fit y) v) as (i & Hi & _); [|by eexists].
    by apply np_unique_elem.
  - exists codes. split; [done|]. by eapply map_or_raise_length.
Qed.

(** ** Computations that only write to the screen *)

Lemma add_to_screen_nil w : add_to_screen w [] = w.
Proof. destruct w. unfold add_to_screen. simpl. by rewrite app_nil_r. Qed.

Lemma add_to_screen_app w s1 s2 :
  add_to_screen (add_to_screen w s1) s2 = add_to_screen w (s1 ++ s2).
Proof. unfold add_to_screen. simpl. by rewrite app_assoc. Qed.

Lemma run_show lv t w : show lv t w = (inr (), add_to_screen w [(lv, t)]).
Proof. reflexivity. Qed.

Lemma screen_only_ret {A} (a : A) : screen_only (mret a).
Proof. intros w. cbn. by rewrite add_to_screen_nil. Qed.

Lemma screen_only_raise {A} e : screen_only (raise (A := A) e).
Proof. intros w. cbn. by rewrite add_to_screen_nil. Qed.

Lemma screen_only_lift {A} (r : exn + A) : screen_only (lift r).
Proof. destruct r; [apply screen_only_raise | apply screen_only_ret]. Qed.

Lemma screen_only_show lv t : screen_only (show lv t).
Proof. intros w. reflexivity. Qed.

Lemma screen_only_bind {A B} (m : py A) (f : A → py B) :
  screen_only m → (∀ a, screen_only (f a)) → screen_only (m ≫= f).
Proof.
  intros Hm Hf w. rewrite !run_bind. rewrite (Hm w).
  destruct (m blank) as [[e|a] w1] eqn:Hrun; simpl; [done|].
  pose proof (Hm blank) as Hb. rewrite Hrun in Hb. simpl in Hb.
  injection Hb as ->. rewrite (Hf a (add_to_screen w _)).
  rewrite (Hf a (add_to_screen blank _)). simpl.
  by rewrite add_to_screen_app.
Qed.

Lemma screen_only_try_except {A} (body : py A) catches handler :
  screen_only body → (∀ e, screen_only (handler e)) →
  screen_only (try_except body catches handler).
Proof.
  intros Hb Hh w. unfold try_except. rewrite (Hb w).
  destruct (body blank) as [[e|a] w1] eqn:Hrun; simpl; [|done].
  destruct (catches e); [|done].
  pose proof (Hb blank) as Hbb. rewrite Hrun in Hbb. simpl in Hbb.
  injection Hbb as ->. rewrite (Hh e (add_to_screen w _)).
  rewrite (Hh e (add_to_screen blank _)). simpl.
  by rewrite add_to_screen_app.
Qed.

Lemma screen_only_kwarg inputs k : screen_only (kwarg inputs k).
Proof.
  unfold kwarg. destruct (inputs !! k);
    [apply screen_only_ret | apply screen_only_raise].
Qed.

(** A seeded call does not touch the global generator. *)
Lemma screen_only_seeded seed : screen_only (check_random_state (Some seed)).
Proof. apply screen_only_ret. Qed.

Lemma screen_only_fit_and_score Xa Xb ya yb le_dict features :
  screen_only (fit_and_score Xa Xb ya yb le_dict features).
Proof.
  unfold fit_and_score, RandomForestRegressor_fit.
  apply screen_only_try_except.
  - apply screen_only_bind.
    { apply screen_only_bind; [apply screen_only_seeded|].
      intros seed. apply screen_only_lift. }
    intros m. apply screen_only_bind; [apply screen_only_lift|]. intros s1.
    apply screen_only_bind; [apply screen_only_lift|]. intros s2.
    apply screen_only_ret.
  - intros e. apply screen_only_bind; [apply screen_only_show|].
    intros _. apply screen_only_ret.
Qed.

Lemma screen_only_split_and_fit d le_dict features :
  screen_only (split_and_fit d le_dict features).
Proof.
  unfold split_and_fit, train_test_split.
  apply screen_only_bind; [apply screen_only_lift|]. intros X.
  apply screen_only_bind; [apply screen_only_lift|]. intros y.
  apply screen_only_bind.
  { apply screen_only_bind; [apply screen_only_seeded|].
    intros seed. apply screen_only_lift. }
  intros [[[Xa Xb] ya] yb]. apply screen_only_fit_and_score.
Qed.

Lemma screen_only_prepare_input encoders inputs features acc :
  screen_only (prepare_input encoders inputs features acc).
Proof.
  revert acc. induction features as [|feature rest IH]; intros acc; simpl.
  { apply screen_only_ret. }
  destruct (encoders !! feature) as [enc|].
  - apply screen_only_bind.
    + apply screen_only_try_except.
      * apply screen_only_bind; [apply screen_only_kwarg|]. intros v.
        apply screen_only_bind; [apply screen_only_lift|]. intros codes.
        apply screen_only_bind; [apply screen_only_lift|]. intros code.
        apply screen_only_ret.
      * intros e. apply screen_only_bind; [apply screen_only_kwarg|]. intros v.
        apply screen_only_bind; [apply screen_only_show|]. intros _.
        apply screen_only_ret.
    + intros [code|]; [apply IH | apply screen_only_ret].
  - apply screen_only_bind; [apply screen_only_kwarg|]. intros v. apply IH.
Qed.

Lemma screen_only_predict_price m encoders features inputs :
  screen_only (predict_price m encoders features inputs).
Proof.
  unfold predict_price. apply screen_only_try_except.
  - apply screen_only_bind; [apply screen_only_prepare_input|].
    intros [data|]; [|apply screen_only_ret].
    apply screen_only_bind; [apply screen_only_lift|]. intros prices.
    apply screen_only_bind; [apply screen_only_lift|]. intros p.
    apply screen_only_ret.
  - intros e. apply screen_only_bind; [apply screen_only_show|].
    intros _. apply screen_only_ret.
Qed.

(** ** The encoding loop, run on the store *)


(** ** The encoding loop and training, run on the store *)

Lemma put_frame_id w l d : heap w !! l = Some d → put_frame w l d = w.
Proof. intros H. destruct w. unfold put_frame. simpl in *. by rewrite insert_id. Qed.

Lemma put_frame_twice w l d d' :
  put_frame (put_frame w l d) l d' = put_frame w l d'.
Proof. unfold put_frame. simpl. by rewrite insert_insert_eq. Qed.

Lemma lookup_put_frame w l d : heap (put_frame w l d) !! l = Some d.
Proof. apply lookup_insert_eq. Qed.

Lemma run_new_frame d w :
  new_frame d w = (inr (fresh (dom (heap w))), put_frame w (fresh (dom (heap w))) d).
Proof. reflexivity. Qed.

Lemma run_update_frame l d w : update_frame l d w = (inr (), put_frame w l d).
Proof. reflexivity. Qed.

Lemma encode_columns_run l cols le_dict w d :
  heap w !! l = Some d →
  encode_columns l cols le_dict w =
  ((encode_frame d cols le_dict).1, put_frame w l (encode_frame d cols le_dict).2).
Proof.
  revert le_dict w d. induction cols as [|col cols IH]; intros le_dict w d Hd; simpl.
  { by rewrite put_frame_id. }
  rewrite run_bind, (run_deref l d) by done. rewrite run_bind.
  destruct (getitem d col) as [e|s]; simpl.
  { by rewrite put_frame_id. }
  destruct (decide (s_dtype s = object)) as [Hobj|Hnum]; [|by apply IH].
  destruct (transform (fit (astype_str s)) (astype_str s)) as [e|codes]; simpl.
  { by rewrite put_frame_id. }
  rewrite run_bind, run_ret. unfold setitem.
  rewrite !run_bind, (run_deref l d) by done.
  destruct (setitem_frame d col _) as [e|d']; simpl.
  { by rewrite put_frame_id. }
  change (mkWorld _ _ _) with (put_frame w l d').
  rewrite (IH _ _ d') by apply lookup_put_frame.
  by rewrite put_frame_twice.
Qed.

(** Run the next calls of a computation whose outcome is known. *)
Ltac py_run :=
  repeat first
    [ rewrite run_bind
    | rewrite run_ret
    | rewrite run_lift_ok
    | rewrite run_lift_raise
    | rewrite run_show
    | rewrite run_new_frame
    | rewrite run_update_frame
    | erewrite run_deref by first [eassumption | apply lookup_put_frame]
    | progress cbn [fst snd is_Exception] ].

Lemma train_run_store w df d vehicle_type :
  heap w !! df = Some d →
  ∃ h, train_price_prediction_model df vehicle_type w =
       (inr (train_outcome d vehicle_type).1,
        mkWorld h (screen w ++ (train_outcome d vehicle_type).2) (entropy w)).
Proof.
  intros Hd. unfold train_price_prediction_model, train_outcome, try_except, copy.
  py_run.
  destruct (negb (bool_decide (_ = []))); py_run; [by eexists|].
  unfold dropna, raise. py_run.
  destruct (dropna_frame _ d) as [e|cl]; py_run; [by eexists|].
  destruct (len cl <? 100)%nat; py_run; [by eexists|].
  erewrite encode_columns_run by apply lookup_put_frame.
  rewrite put_frame_twice.
  destruct (encode_frame cl (schema vehicle_type) ∅) as [[e|le_dict] d'];
    py_run; [by eexists|].
  rewrite (screen_only_split_and_fit d' le_dict _ (put_frame _ _ _)).
  destruct (split_and_fit d' le_dict (schema vehicle_type) blank) as [[e|r] w'];
    py_run.
  - rewrite add_to_screen_app. by eexists.
  - by eexists.
Qed.

(** Training returns what [train_outcome] says, adds exactly its messages to
    the screen and leaves the global generator alone. *)
Lemma train_run w df d vehicle_type :
  heap w !! df = Some d →
  (train_price_prediction_model df vehicle_type w).1
    = inr (train_outcome d vehicle_type).1
  ∧ screen (train_price_prediction_model df vehicle_type w).2
    = screen w ++ (train_outcome d vehicle_type).2
  ∧ entropy (train_price_prediction_model df vehicle_type w).2 = entropy w.
Proof.
  intros Hd. destruct (train_run_store w df d vehicle_type Hd) as [h ->]. done.
Qed.

(** ** What the encoding loop computes *)

(** On a table that has the columns [cols], the loop completes; it keeps the
    column index and the row count, replaces every [object] column of [cols]
    by the codes of its values under an encoder fitted on that very column,
    records that encoder, and leaves everything else alone. *)
Lemma encode_frame_spec cols : ∀ d le0,
  NoDup cols → (∀ f, f ∈ cols → f ∈ column_names d) →
  ∃ le d', encode_frame d cols le0 = (inr le, d')
    ∧ column_names d' = column_names d ∧ len d' = len d
    ∧ (∀ f, f ∉ cols → le !! f = le0 !! f ∧ getitem d' f = getitem d f)
    ∧ (∀ f s, f ∈ cols → getitem d f = inr s →
         (s_dtype s = object →
            le !! f = Some (fit (astype_str s))
            ∧ ∃ codes, transform (fit (astype_str s)) (astype_str s) = inr codes
                ∧ getitem d' f = inr (mkSeries numeric (map code_cell codes)))
         ∧ (s_dtype s ≠ object → le !! f = le0 !! f ∧ getitem d' f = inr s)).
Proof.
  induction cols as [|col cols IH]; intros d le0 Hnd Hcols.
  { exists le0, d. simpl. repeat split; try done.
    all: intros; by apply elem_of_nil in H. }
  apply NoDup_cons in Hnd as [Hcol Hnd].
  destruct (getitem_ok d col) as [s0 Hs0]; [apply Hcols; by left|].
  simpl. rewrite Hs0.
  destruct (decide (s_dtype s0 = object)) as [Hobj|Hnum].
  - destruct (transform_fit (astype_str s0)) as (codes & Hcodes & Hlen).
    unfold fit_transform. rewrite Hcodes.
    destruct (setitem_frame_ok d col (mkSeries numeric (map code_cell codes)))
      as [d1 Hd1].
    { simpl. rewrite length_map, Hlen. unfold astype_str. rewrite length_map.
      by eapply getitem_length. }
    rewrite Hd1.
    assert (column_names d1 = column_names d) as Hnames.
    { eapply setitem_frame_names; [done|]. apply Hcols. by left. }
    destruct (IH d1 (<[col := fit (astype_str s0)]> le0) Hnd)
      as (le & d' & Hrun & Hnames' & Hlen' & Hout & Hin).
    { intros f Hf. rewrite Hnames. apply Hcols. by right. }
    exists le, d'. split; [done|]. split; [congruence|].
    split; [rewrite Hlen'; by eapply setitem_frame_len|].
    split.
    + intros f Hf. apply not_elem_of_cons in Hf as [Hne Hf].
      destruct (Hout f Hf) as [-> ->].
      rewrite lookup_insert_ne by done. split; [done|].
      by eapply getitem_setitem_ne.
    + intros f s Hf Hs. apply elem_of_cons in Hf as [->|Hf].
      * assert (s = s0) as -> by congruence.
        split; [|done]. intros _.
        destruct (Hout col Hcol) as [-> ->]. rewrite lookup_insert_eq.
        split; [done|]. exists codes. split; [done|].
        by eapply getitem_setitem_eq.
      * assert (col ≠ f) as Hne by (intros ->; done).
        assert (getitem d1 f = inr s) as Hs1.
        { rewrite <- Hs. by eapply getitem_setitem_ne. }
        destruct (Hin f s Hf Hs1) as [Ho Hn]. split; [done|].
        intros Hns. destruct (Hn Hns) as [-> ->].
        by rewrite lookup_insert_ne.
  - destruct (IH d le0 Hnd) as (le & d' & Hrun & Hnames' & Hlen' & Hout & Hin).
    { intros f Hf. apply Hcols. by right. }
    exists le, d'. split; [done|]. split; [done|]. split; [done|]. split.
    + intros f Hf. apply not_elem_of_cons in Hf as [Hne Hf]. by apply Hout.
    + intros f s Hf Hs. apply elem_of_cons in Hf as [->|Hf]; [|by apply Hin].
      assert (s = s0) as -> by congruence.
      split; [done|]. intros _. destruct (Hout col Hcol) as [-> ->]. done.
Qed.

Lemma NoDup_schema vehicle_type : NoDup (schema vehicle_type).
Proof.
  unfold schema. destruct (decide _).
  - apply (bool_decide_unpack (NoDup car_features)). by vm_compute.
  - apply (bool_decide_unpack (NoDup motorcycle_features)). by vm_compute.
Qed.

(** ** Inference *)

Lemma run_kwarg inputs k v w : inputs !! k = Some v → kwarg inputs k w = (inr v, w).
Proof. intros H. unfold kwarg. by rewrite H. Qed.

Lemma run_kwarg_missing inputs k w :
  inputs !! k = None → kwarg inputs k w = (inl (KeyError k), w).
Proof. intros H. unfold kwarg. by rewrite H. Qed.

(** One turn of the loop on a feature that has an encoder. *)
Lemma prepare_input_encoded_seen encoders inputs feature rest acc enc v i w :
  encoders !! feature = Some enc → inputs !! feature = Some v →
  encode enc (py_str v) = inr i →
  prepare_input encoders inputs (feature :: rest) acc w =
  prepare_input encoders inputs rest (dict_set feature (code_cell i) acc) w.
Proof.
  intros Henc Hv Hi. simpl. rewrite Henc.
  rewrite run_bind. unfold try_except. rewrite run_bind, (run_kwarg _ _ v) by done.
  unfold transform. simpl. rewrite Hi. done.
Qed.

Lemma prepare_input_encoded_unseen encoders inputs feature rest acc enc v w :
  encoders !! feature = Some enc → inputs !! feature = Some v →
  py_str v ∉ classes_ enc →
  prepare_input encoders inputs (feature :: rest) acc w =
  (inr None, add_to_screen w [(st_warning, UnknownCategory feature v)]).
Proof.
  intros Henc Hv Hnew. simpl. rewrite Henc.
  rewrite run_bind. unfold try_except. rewrite run_bind, (run_kwarg _ _ v) by done.
  unfold transform. simpl. rewrite (encode_unseen enc _ Hnew). simpl.
  rewrite run_bind, (run_kwarg _ _ v) by done. done.
Qed.

Lemma prepare_input_plain encoders inputs feature rest acc v w :
  encoders !! feature = None → inputs !! feature = Some v →
  prepare_input encoders inputs (feature :: rest) acc w =
  prepare_input encoders inputs rest (dict_set feature v acc) w.
Proof.
  intros Henc Hv. simpl. rewrite Henc.
  by rewrite run_bind, (run_kwarg _ _ v).
Qed.

Lemma prepare_input_no_value encoders inputs feature rest acc w :
  inputs !! feature = None →
  prepare_input encoders inputs (feature :: rest) acc w =
  (inl (KeyError feature), w).
Proof.
  intros Hv. simpl. destruct (encoders !! feature) as [enc|].
  - rewrite run_bind. unfold try_except.
    by rewrite run_bind, run_kwarg_missing.
  - by rewrite run_bind, run_kwarg_missing.
Qed.

Lemma prepare_input_unknown encoders inputs features acc w :
  (∀ f, f ∈ features → is_Some (inputs !! f)) →
  (∃ f v, f ∈ features ∧ unrecognized encoders inputs f v) →
  ∃ f v, f ∈ features ∧ unrecognized encoders inputs f v ∧
    prepare_input encoders inputs features acc w =
    (inr None, add_to_screen w [(st_warning, UnknownCategory f v)]).
Proof.
  revert acc. induction features as [|feature rest IH]; intros acc Htotal Hbad.
  { destruct Hbad as (f & v & Hf & _). by apply elem_of_nil in Hf. }
  destruct (Htotal feature) as [v Hv]; [by left|].
  assert (∀ f, f ∈ rest → is_Some (inputs !! f)) as Htotal'.
  { intros f Hf. apply Htotal. by right. }
  destruct (encoders !! feature) as [enc|] eqn:Henc.
  - destruct (decide (py_str v ∈ classes_ enc)) as [Hseen|Hnew].
    + destruct (encode_seen enc _ Hseen) as (i & Hi & _).
      rewrite (prepare_input_encoded_seen _ _ _ _ _ enc v i) by done.
      destruct (IH (dict_set feature (code_cell i) acc) Htotal') as (f & v' & Hf & Hu & Hrun).
      { destruct Hbad as (f & v' & Hf & Hu). exists f, v'. split; [|done].
        apply elem_of_cons in Hf as [->|Hf]; [|done].
        destruct Hu as (enc' & Henc' & Hv' & Hnew). congruence. }
      exists f, v'. split; [by right|]. done.
    + exists feature, v. split; [by left|]. split; [by exists enc|].
      by eapply prepare_input_encoded_unseen.
  - rewrite (prepare_input_plain _ _ _ _ _ v) by done.
    destruct (IH (dict_set feature v acc) Htotal') as (f & v' & Hf & Hu & Hrun).
    { destruct Hbad as (f & v' & Hf & Hu). exists f, v'. split; [|done].
      apply elem_of_cons in Hf as [->|Hf]; [|done].
      destruct Hu as (enc' & Henc' & _). congruence. }
    exists f, v'. split; [by right|]. done.
Qed.

(** Without asking that every feature has a value: the loop still cannot
    complete. *)
Lemma prepare_input_never_completes encoders inputs features acc w :
  (∃ f v, f ∈ features ∧ unrecognized encoders inputs f v) →
  ∀ data, (prepare_input encoders inputs features acc w).1 ≠ inr (Some data).
Proof.
  revert acc. induction features as [|feature rest IH]; intros acc Hbad data.
  { destruct Hbad as (f & v & Hf & _). by apply elem_of_nil in Hf. }
  destruct (inputs !! feature) as [v|] eqn:Hv.
  2:{ by rewrite prepare_input_no_value. }
  destruct (encoders !! feature) as [enc|] eqn:Henc.
  - destruct (decide (py_str v ∈ classes_ enc)) as [Hseen|Hnew].
    + destruct (encode_seen enc _ Hseen) as (i & Hi & _).
      rewrite (prepare_input_encoded_seen _ _ _ _ _ enc v i) by done.
      apply IH. destruct Hbad as (f & v' & Hf & Hu). exists f, v'. split; [|done].
      apply elem_of_cons in Hf as [->|Hf]; [|done].
      destruct Hu as (enc' & Henc' & Hv' & Hnew). congruence.
    + by erewrite prepare_input_encoded_unseen.
  - rewrite (prepare_input_plain _ _ _ _ _ v) by done.
    apply IH. destruct Hbad as (f & v' & Hf & Hu). exists f, v'. split; [|done].
    apply elem_of_cons in Hf as [->|Hf]; [|done].
    destruct Hu as (enc' & Henc' & _). congruence.
Qed.

(** C1. When the value supplied for some encoded feature is none of that
    encoder's classes, [predict_price] returns [None], never a number and
    never an exception; and when every model feature has a value, all it does
    is show the warning that names an unrecognized feature and its value:
    the forest is not consulted. *)
Theorem unknown_category_rejected (prediction_model : Model)
    (encoders : gmap string LabelEncoder) (model_features : list string)
    (inputs : gmap string scalar) (w : world) :
  (∃ f v, f ∈ model_features ∧ unrecognized encoders inputs f v) →
  (predict_price prediction_model encoders model_features inputs w).1 = inr None
  ∧ ((∀ f, f ∈ model_features → is_Some (inputs !! f)) →
     ∃ f v, f ∈ model_features ∧ unrecognized encoders inputs f v ∧
       predict_price prediction_model encoders model_features inputs w =
       (inr None, add_to_screen w [(st_warning, UnknownCategory f v)])).
Proof.
  intros Hbad. split.
  - pose proof (prepare_input_never_completes encoders inputs model_features [] w Hbad)
      as Hnever.
    unfold predict_price, try_except. rewrite run_bind.
    destruct (prepare_input encoders inputs model_features [] w) as [[e|[data|]] w'];
      simpl in *; [done| |done].
    by destruct (Hnever data).
  - intros Htotal.
    destruct (prepare_input_unknown encoders inputs model_features [] w Htotal Hbad)
      as (f & v & Hf & Hu & Hrun).
    exists f, v. split; [done|]. split; [done|].
    unfold predict_price, try_except. by rewrite run_bind, Hrun.
Qed.

(** ** Training: the schema check and the sample-size gate *)

Lemma elem_of_List_filter {A} (p : A → bool) (l : list A) x :
  x ∈ List.filter p l ↔ x ∈ l ∧ p x = true.
Proof. rewrite !list_elem_of_In. apply filter_In. Qed.

(** C5. When a feature of the category's schema is not a column of the table,
    training returns no model and shows one warning that lists exactly the
    schema features the table lacks. *)
Theorem schema_mismatch_refused (w : world) (df : nat) (d : DataFrame)
    (vehicle_type : string) :
  heap w !! df = Some d →
  (∃ f, f ∈ schema vehicle_type ∧ f ∉ column_names d) →
  ∃ missing,
    (∀ f, f ∈ missing ↔ f ∈ schema vehicle_type ∧ f ∉ column_names d)
    ∧ (train_price_prediction_model df vehicle_type w).1 = inr Nones
    ∧ screen (train_price_prediction_model df vehicle_type w).2
      = screen w ++ [(st_warning, MissingFeatures vehicle_type missing)]
    ∧ schema "car"
      = ["make"; "model"; "year"; "mileage_avg"; "transmission"; "fuel_type"]
    ∧ schema "motorcycle" = ["make"; "model"; "year"].
Proof.
  intros Hd (f0 & Hf0 & Hno).
  exists (List.filter (λ f, negb (has_column d f)) (schema vehicle_type)).
  assert (∀ f, f ∈ List.filter (λ f, negb (has_column d f)) (schema vehicle_type)
               ↔ f ∈ schema vehicle_type ∧ f ∉ column_names d) as Hmissing.
  { intros f. rewrite elem_of_List_filter, negb_true_iff.
    rewrite <- has_column_true. destruct (has_column d f).
    - split; intros [H1 H2]; [discriminate | by destruct H2].
    - split; intros [H1 H2]; by split. }
  split; [done|].
  destruct (train_run w df d vehicle_type Hd) as (-> & -> & _).
  unfold train_outcome. rewrite bool_decide_eq_false_2; [done|].
  intros Hnil. assert (f0 ∈ @nil string) as Hin; [|by apply elem_of_nil in Hin].
  rewrite <- Hnil. by apply Hmissing.
Qed.

Lemma schema_present_no_missing d vehicle_type :
  (∀ f, f ∈ schema vehicle_type → f ∈ column_names d) →
  List.filter (λ f, negb (has_column d f)) (schema vehicle_type) = [].
Proof.
  intros Hall. destruct (List.filter _ _) as [|f l] eqn:Hfilter; [done|].
  assert (f ∈ List.filter (λ f, negb (has_column d f)) (schema vehicle_type)) as Hf.
  { rewrite Hfilter. by left. }
  apply elem_of_List_filter in Hf as [Hf Hno].
  apply Hall, has_column_true in Hf. by rewrite Hf in Hno.
Qed.

(** The last stage when the library calls succeed. *)
Lemma split_and_fit_success d le_dict features X y Xa Xb ya yb m s1 s2 w :
  select_frame d features = inr X → getitem d "price" = inr y →
  split_with_seed 42 0.2%Q X y = inr (Xa, Xb, ya, yb) →
  forest_fit_with_seed 100 42 Xa ya = inr m →
  forest_score m Xa ya = inr s1 → forest_score m Xb yb = inr s2 →
  split_and_fit d le_dict features w
  = (inr (Some m, Some le_dict, Some s1, Some s2, Some features), w).
Proof.
  intros HX Hy Hsplit Hfit Hs1 Hs2.
  unfold split_and_fit, train_test_split, fit_and_score, try_except,
    RandomForestRegressor_fit, check_random_state.
  rewrite HX, Hy. py_run. rewrite Hsplit. py_run. rewrite Hfit. py_run.
  rewrite Hs1. py_run. rewrite Hs2. py_run. done.
Qed.

(** C2. With the schema features and [price] among the columns, training
    counts the rows that miss none of them.  Fewer than 100: it returns no
    model (it returns, it does not raise) and shows the insufficient-data
    warning with that count.  At least 100: the gate is passed, the columns
    are encoded, and the table is split with seed 42 and handed to the forest,
    whose model and scores are returned when these calls succeed. *)
Theorem insufficient_data_gate (w : world) (df : nat) (d : DataFrame)
    (vehicle_type : string) :
  heap w !! df = Some d →
  (∀ f, f ∈ schema vehicle_type ++ ["price"] → f ∈ column_names d) →
  let usable :=
    List.filter (complete_on (schema vehicle_type ++ ["price"])) (rows d) in
  ((length usable < 100)%nat →
     (train_price_prediction_model df vehicle_type w).1 = inr Nones
     ∧ screen (train_price_prediction_model df vehicle_type w).2
       = screen w ++ [(st_warning, InsufficientData vehicle_type (length usable))])
  ∧ ((100 ≤ length usable)%nat →
     ∃ le_dict d' X y,
       encode_frame (mkDataFrame (columns d) usable) (schema vehicle_type) ∅
         = (inr le_dict, d')
       ∧ select_frame d' (schema vehicle_type) = inr X
       ∧ getitem d' "price" = inr y
       ∧ ∀ Xa Xb ya yb m s1 s2,
           split_with_seed 42 0.2%Q X y = inr (Xa, Xb, ya, yb) →
           forest_fit_with_seed 100 42 Xa ya = inr m →
           forest_score m Xa ya = inr s1 → forest_score m Xb yb = inr s2 →
           (train_price_prediction_model df vehicle_type w).1
             = inr (Some m, Some le_dict, Some s1, Some s2,
                    Some (schema vehicle_type))
           ∧ screen (train_price_prediction_model df vehicle_type w).2 = screen w).
Proof.
  intros Hd Hcols usable.
  destruct (train_run w df d vehicle_type Hd) as (-> & -> & _).
  unfold train_outcome.
  rewrite schema_present_no_missing
    by (intros f Hf; apply Hcols, elem_of_app; by left).
  rewrite dropna_frame_ok by done. cbn [negb bool_decide decide_rel].
  rewrite bool_decide_eq_true_2 by done. unfold len. cbn [negb rows].
  fold usable. split.
  - intros Hlt. apply Nat.ltb_lt in Hlt. by rewrite Hlt.
  - intros Hge. apply Nat.ltb_ge in Hge. rewrite Hge.
    destruct (encode_frame_spec (schema vehicle_type)
                (mkDataFrame (columns d) usable) ∅)
      as (le_dict & d' & Hrun & Hnames & _ & _ & _).
    { apply NoDup_schema. }
    { intros f Hf. apply Hcols, elem_of_app. by left. }
    destruct (select_frame_ok d' (schema vehicle_type)) as [X HX].
    { intros f Hf. rewrite Hnames. apply Hcols, elem_of_app. by left. }
    destruct (getitem_ok d' "price") as [y Hy].
    { rewrite Hnames. apply Hcols, elem_of_app. right. by left. }
    exists le_dict, d', X, y. split; [done|]. split; [done|]. split; [done|].
    intros Xa Xb ya yb m s1 s2 Hsplit Hfit Hs1 Hs2. rewrite Hrun.
    erewrite split_and_fit_success by done. simpl. by rewrite app_nil_r.
Qed.

(** ** Training: repeatability and the encoder tables *)

(** What training returns and shows depends on the table only through its
    column index and its complete rows. *)
Lemma train_outcome_cleaned d1 d2 vehicle_type :
  columns d1 = columns d2 →
  List.filter (complete_on (schema vehicle_type ++ ["price"])) (rows d1)
  = List.filter (complete_on (schema vehicle_type ++ ["price"])) (rows d2) →
  train_outcome d1 vehicle_type = train_outcome d2 vehicle_type.
Proof.
  intros Hcols Hrows. unfold train_outcome.
  assert (∀ f, has_column d1 f = has_column d2 f) as Hhas.
  { intros f. unfold has_column, column_names. by rewrite Hcols. }
  assert (dropna_frame (schema vehicle_type ++ ["price"]) d1
          = dropna_frame (schema vehicle_type ++ ["price"]) d2) as ->.
  { unfold dropna_frame.
    rewrite (list_find_ext (λ c, negb (has_column d1 c)) (λ c, negb (has_column d2 c)))
      by (intros c; by rewrite Hhas).
    by rewrite Hcols, Hrows. }
  rewrite (filter_ext (λ f, negb (has_column d1 f)) (λ f, negb (has_column d2 f)))
    by (intros f; by rewrite Hhas).
  done.
Qed.

(** C6. Two runs of training, started in any two worlds (whatever their
    stores, screens and global generator states), on tables with the same
    columns and the same complete rows, return the same model, encoders,
    scores and features and show the same messages; and what [predict_price]
    returns for given inputs does not depend on the world it runs in. *)
Theorem train_deterministic (w1 w2 : world) (df1 df2 : nat) (d1 d2 : DataFrame)
    (vehicle_type : string) :
  heap w1 !! df1 = Some d1 → heap w2 !! df2 = Some d2 →
  columns d1 = columns d2 →
  List.filter (complete_on (schema vehicle_type ++ ["price"])) (rows d1)
  = List.filter (complete_on (schema vehicle_type ++ ["price"])) (rows d2) →
  (train_price_prediction_model df1 vehicle_type w1).1
  = (train_price_prediction_model df2 vehicle_type w2).1
  ∧ (∃ shown,
       screen (train_price_prediction_model df1 vehicle_type w1).2 = screen w1 ++ shown
       ∧ screen (train_price_prediction_model df2 vehicle_type w2).2 = screen w2 ++ shown)
  ∧ (∀ model le_dict features inputs wa wb,
       (predict_price model le_dict features inputs wa).1
       = (predict_price model le_dict features inputs wb).1).
Proof.
  intros Hd1 Hd2 Hcols Hrows.
  destruct (train_run w1 df1 d1 vehicle_type Hd1) as (-> & -> & _).
  destruct (train_run w2 df2 d2 vehicle_type Hd2) as (-> & -> & _).
  rewrite (train_outcome_cleaned d1 d2) by done.
  split; [done|]. split; [by eexists|].
  intros model le_dict features inputs wa wb.
  rewrite (screen_only_predict_price _ _ _ _ wa).
  by rewrite (screen_only_predict_price _ _ _ _ wb).
Qed.

Lemma split_and_fit_returns d le_dict features w m le' s1 s2 features' :
  (split_and_fit d le_dict features w).1
  = inr (Some m, Some le', Some s1, Some s2, Some features') →
  le' = le_dict ∧ features' = features.
Proof.
  unfold split_and_fit, train_test_split, fit_and_score, try_except,
    RandomForestRegressor_fit, check_random_state.
  destruct (select_frame d features) as [e|X]; py_run; [done|].
  destruct (getitem d "price") as [e|y]; py_run; [done|].
  destruct (split_with_seed 42 0.2%Q X y) as [e|[[[Xa Xb] ya] yb]]; py_run; [done|].
  destruct (forest_fit_with_seed 100 42 Xa ya) as [e|m']; py_run; [done|].
  destruct (forest_score m' Xa ya) as [e|s1']; py_run; [done|].
  destruct (forest_score m' Xb yb) as [e|s2']; py_run; [done|].
  by intros [= _ <- _ _ <-].
Qed.

(** C7. After a training that returned a model: the encoders were fitted on
    the complete rows; a schema feature has an encoder exactly when its
    column holds strings; the classes of that encoder are the distinct values
    of the column, sorted; [encode] and the position among the classes are inverse to
    each other, so values and codes [0 .. n-1] correspond one to one; a value
    that was not in the column is refused; and the code a row got when the
    table was encoded is the code [encode] gives for that row's value. *)
Theorem encoder_tables_bijective (w : world) (df : nat) (d : DataFrame)
    (vehicle_type : string) (m : Model) (le_dict : gmap string LabelEncoder)
    (s1 s2 : Q) (features : list string) :
  heap w !! df = Some d →
  (train_price_prediction_model df vehicle_type w).1
    = inr (Some m, Some le_dict, Some s1, Some s2, Some features) →
  ∃ cl d',
    dropna_frame (schema vehicle_type ++ ["price"]) d = inr cl
    ∧ features = schema vehicle_type
    ∧ encode_frame cl features ∅ = (inr le_dict, d')
    ∧ ∀ f s, f ∈ features → getitem cl f = inr s →
        (is_Some (le_dict !! f) ↔ s_dtype s = object)
        ∧ ∀ enc, le_dict !! f = Some enc →
            NoDup (classes_ enc) ∧ Sorted String.le (classes_ enc)
            ∧ (∀ v, v ∈ classes_ enc ↔ v ∈ astype_str s)
            ∧ (∀ v, v ∈ astype_str s →
                 ∃ i, encode enc v = inr i ∧ classes_ enc !! i = Some v)
            ∧ (∀ i v, classes_ enc !! i = Some v → encode enc v = inr i)
            ∧ (∀ v, v ∉ astype_str s → encode enc v = inl (ValueError v))
            ∧ ∃ codes,
                getitem d' f = inr (mkSeries numeric (map code_cell codes))
                ∧ ∀ k v, astype_str s !! k = Some v →
                    ∃ i, codes !! k = Some i ∧ encode enc v = inr i.
Proof.
  intros Hd Htrain.
  destruct (train_run w df d vehicle_type Hd) as (Hval & _ & _).
  rewrite Hval in Htrain. injection Htrain as Htrain. revert Htrain.
  unfold train_outcome.
  destruct (negb (bool_decide _)); [done|].
  destruct (dropna_frame _ d) as [e|cl] eqn:Hclean; [done|].
  destruct (len cl <? 100)%nat; [done|].
  destruct (encode_frame cl (schema vehicle_type) ∅) as [[e|le] d'] eqn:Hrun; [done|].
  destruct (split_and_fit d' le (schema vehicle_type) blank) as [[e|r] w'] eqn:Hfit;
    [done|].
  cbn [fst]. intros ->.
  pose proof (split_and_fit_returns d' le (schema vehicle_type) blank
                m le_dict s1 s2 features) as Hret.
  rewrite Hfit in Hret. destruct (Hret eq_refl) as [-> ->]. clear Hret.
  exists cl, d'. split; [done|]. split; [done|]. split; [done|].
  apply dropna_frame_inv in Hclean as [Hcl Hcols].
  destruct (encode_frame_spec (schema vehicle_type) cl ∅)
    as (le' & d'' & Hrun' & _ & _ & _ & Hin).
  { apply NoDup_schema. }
  { intros f Hf. rewrite Hcl. apply Hcols, elem_of_app. by left. }
  rewrite Hrun in Hrun'. injection Hrun' as <- <-.
  intros f s Hf Hs. destruct (Hin f s Hf Hs) as [Hobj Hnum].
  split.
  { split.
    - intros [enc Henc]. destruct (decide (s_dtype s = object)) as [|Hn]; [done|].
      destruct (Hnum Hn) as [Hnone _]. rewrite lookup_empty in Hnone. congruence.
    - intros Ho. destruct (Hobj Ho) as [-> _]. by eexists. }
  intros enc Henc.
  destruct (decide (s_dtype s = object)) as [Ho|Hn].
  2:{ destruct (Hnum Hn) as [Hnone _]. rewrite lookup_empty in Hnone. congruence. }
  destruct (Hobj Ho) as (Hfit' & codes & Hcodes & Hcol).
  assert (enc = fit (astype_str s)) as -> by congruence.
  split; [apply np_unique_NoDup|].
  split; [apply np_unique_Sorted|].
  split; [intros v; apply np_unique_elem|].
  split.
  { intros v Hv. apply encode_seen. by apply np_unique_elem. }
  split.
  { intros i v Hi. unfold encode, fit in *. cbn [classes_] in *.
    by rewrite (index_of_NoDup v _ i (np_unique_NoDup _) Hi). }
  split.
  { intros v Hv. apply encode_unseen. intros Hin'. apply Hv.
    by apply np_unique_elem. }
  exists codes. split; [done|].
  intros k v Hk. by eapply map_or_raise_lookup.
Qed.

(** ** The price band and the similar listings *)

Lemma zip_with_map_same {A B C D} (f : B → C → D) (g : A → B) (h : A → C) l :
  zip_with f (map g l) (map h l) = map (λ x, f (g x) (h x)) l.
Proof. induction l as [|x l IH]; simpl; [done|]. by rewrite IH. Qed.

Lemma zip_with_map_r_same {A B C} (f : A → B → C) (h : A → B) l :
  zip_with f l (map h l) = map (λ x, f x (h x)) l.
Proof. induction l as [|x l IH]; simpl; [done|]. by rewrite IH. Qed.

Lemma select_rows_map {A} (p : A → bool) l :
  select_rows (map p l) l = List.filter p l.
Proof.
  induction l as [|x l IH]; simpl; [done|]. rewrite IH. by destruct (p x).
Qed.

Lemma between_cells c lo hi (rs : list (gmap string scalar)) :
  (∀ r s, r ∈ rs → cell r c ≠ Str s) →
  map_or_raise (between1 lo hi) (map (λ r, cell r c) rs)
  = inr (map (λ r, match cell r c with
                   | Num q => Qle_bool lo q && Qle_bool q hi
                   | _ => false
                   end) rs).
Proof.
  induction rs as [|r rs IH]; intros Hnum; simpl; [done|].
  rewrite IH.
  - destruct (cell r c) as [|q|str] eqn:Hcell; simpl; try done.
    destruct (Hnum r str); [by left|done].
  - intros r' str Hr'. apply Hnum. by right.
Qed.

Lemma series_between_numeric d c s lo hi :
  getitem d c = inr s → numeric_column d c →
  series_between s lo hi
  = inr (map (λ r, match cell r c with
                   | Num q => Qle_bool lo q && Qle_bool q hi
                   | _ => false
                   end) (rows d)).
Proof.
  intros Hs Hnum. unfold series_between. rewrite (getitem_values _ _ _ Hs).
  by apply between_cells.
Qed.

Lemma uses_mileage_car : uses_mileage "car" (schema "car") = true.
Proof. by vm_compute. Qed.

Lemma uses_mileage_other vehicle_type features :
  vehicle_type ≠ "car" → uses_mileage vehicle_type features = false.
Proof. intros Hne. unfold uses_mileage. by rewrite bool_decide_eq_false_2. Qed.

(** The dictionary the page builds from the widgets. *)
Lemma collect_inputs_car ws :
  collect_inputs "car" (schema "car") ws =
  <["fuel_type" := w_fuel_type ws]>
    (<["transmission" := w_transmission ws]>
       (<["mileage_avg" := Num (inject_Z (w_mileage_avg ws))]>
          (<["year" := Num (inject_Z (w_year ws))]>
             (<["model" := w_model ws]> (<["make" := w_make ws]> ∅))))).
Proof. reflexivity. Qed.

Lemma collect_inputs_other vehicle_type features ws :
  vehicle_type ≠ "car" →
  collect_inputs vehicle_type features ws =
  <["year" := Num (inject_Z (w_year ws))]>
    (<["model" := w_model ws]> (<["make" := w_make ws]> ∅)).
Proof. intros Hne. unfold collect_inputs. by rewrite decide_False. Qed.

Lemma collect_inputs_basic vehicle_type ws :
  let inputs := collect_inputs vehicle_type (schema vehicle_type) ws in
  inputs !! "make" = Some (w_make ws)
  ∧ inputs !! "model" = Some (w_model ws)
  ∧ inputs !! "year" = Some (Num (inject_Z (w_year ws)))
  ∧ (vehicle_type = "car" →
     inputs !! "mileage_avg" = Some (Num (inject_Z (w_mileage_avg ws)))).
Proof.
  destruct (decide (vehicle_type = "car")) as [->|Hne]; simpl.
  - rewrite collect_inputs_car. repeat split; intros; by simplify_map_eq.
  - rewrite collect_inputs_other by done. repeat split; by simplify_map_eq.
Qed.

(** On a table whose [year] (and, for cars, [mileage_avg]) column holds no
    string, the filter is, row by row, the matching rule. *)
Lemma similar_filter_run d vehicle_type ws w :
  (∀ c, c ∈ ["make"; "model"; "year"] → c ∈ column_names d) →
  numeric_column d "year" →
  (vehicle_type = "car" →
     "mileage_avg" ∈ column_names d ∧ numeric_column d "mileage_avg") →
  similar_filter d vehicle_type (schema vehicle_type)
    (collect_inputs vehicle_type (schema vehicle_type) ws) w
  = (inr (map (comparable vehicle_type ws) (rows d)), w).
Proof.
  intros Hcols Hyear Hmileage.
  destruct (collect_inputs_basic vehicle_type ws) as (Hmk & Hmd & Hyr & Hmi).
  destruct (getitem_ok d "make") as [make_col Hmake]; [apply Hcols; by left|].
  destruct (getitem_ok d "model") as [model_col Hmodel]; [apply Hcols; right; by left|].
  destruct (getitem_ok d "year") as [year_col Hyearc]; [apply Hcols; do 2 right; by left|].
  unfold similar_filter. rewrite Hmake, Hmodel, Hyearc.
  py_run. erewrite run_kwarg by done. py_run.
  erewrite run_kwarg by done. py_run.
  erewrite run_kwarg by done. unfold number. py_run.
  erewrite series_between_numeric by done. py_run.
  unfold series_eq, mask_and.
  rewrite (getitem_values _ _ _ Hmake), (getitem_values _ _ _ Hmodel).
  rewrite !map_map, !zip_with_map_same.
  destruct (decide (vehicle_type = "car")) as [->|Hne].
  - rewrite uses_mileage_car. destruct (Hmileage eq_refl) as [Hcol Hnum].
    destruct (getitem_ok d "mileage_avg") as [mileage_col Hmil]; [done|].
    rewrite Hmil. py_run. erewrite run_kwarg by auto. py_run.
    erewrite series_between_numeric by done. py_run.
    rewrite zip_with_map_same. done.
  - rewrite uses_mileage_other by done. py_run. f_equal. f_equal.
    apply map_ext. intros r. unfold comparable. rewrite decide_False by done.
    by rewrite andb_true_r.
Qed.

Lemma find_column_Some (cs : list (string * dtype)) c :
  c ∈ cs.*1 → ∃ i t, list_find (λ cd, cd.1 = c) cs = Some (i, (c, t)).
Proof.
  intros Hc. destruct (list_find (λ cd, cd.1 = c) cs) as [[i [c' t]]|] eqn:Hfind.
  - apply list_find_Some in Hfind as Hfind'. destruct Hfind' as (_ & Heq & _).
    simpl in Heq. subst c'. by exists i, t.
  - by apply find_column_None in Hfind.
Qed.

Lemma select_frame_run d cols :
  (∀ c, c ∈ cols → c ∈ column_names d) →
  ∃ cs, cs.*1 = cols ∧
    select_frame d cols
    = inr (mkDataFrame cs (map (λ r, filter (λ kv, kv.1 ∈ cols) r) (rows d))).
Proof.
  intros Hcols. unfold select_frame.
  destruct (list_find _ cols) as [[i c]|] eqn:Hfind.
  { apply list_find_Some in Hfind as (Hi & Hc & _).
    assert (has_column d c = true) as Hc'.
    { apply has_column_true, Hcols. by eapply list_elem_of_lookup_2. }
    by rewrite Hc' in Hc. }
  eexists. split; [|done]. clear Hfind.
  induction cols as [|c cols IH]; simpl; [done|].
  destruct (find_column_Some (columns d) c) as (i & t & ->); [apply Hcols; by left|].
  simpl. f_equal. apply IH. intros c' Hc'. apply Hcols. by right.
Qed.

Lemma cell_display vehicle_type (r : gmap string scalar) :
  cell (filter (λ kv, kv.1 ∈ display_cols vehicle_type) r) "ad_url"
  = cell r "ad_url".
Proof.
  unfold cell. f_equal.
  destruct (r !! "ad_url") as [v|] eqn:Hv.
  - apply map_lookup_filter_Some. split; [done|]. simpl.
    unfold display_cols. apply elem_of_app. left. do 4 right. by left.
  - apply map_lookup_filter_None. by left.
Qed.

(** The table shown: the display of the first five rows. *)
Lemma display_frame_run vehicle_type similar_vehicles w :
  (∀ c, c ∈ display_cols vehicle_type → c ∈ column_names similar_vehicles) →
  ∃ cs, cs.*1 = display_cols vehicle_type ∧
    display_frame vehicle_type similar_vehicles w
    = (inr (mkDataFrame cs
              (map (display_row vehicle_type) (take 5 (rows similar_vehicles)))), w).
Proof.
  intros Hcols. unfold display_frame.
  destruct (select_frame_run similar_vehicles (display_cols vehicle_type) Hcols)
    as (cs & Hcs & ->).
  py_run. set (display_df := head_frame 5 _).
  destruct (getitem_ok display_df "ad_url") as [ad_url Had].
  { unfold display_df, column_names. cbn [head_frame columns]. rewrite Hcs.
    unfold display_cols. apply elem_of_app. left. do 4 right. by left. }
  rewrite Had. py_run.
  destruct (setitem_frame_ok display_df "ad_url"
              (mkSeries object (map ad_link (s_values ad_url)))) as [shown Hshown].
  { cbn [s_values]. rewrite length_map. by eapply getitem_length. }
  rewrite Hshown. py_run.
  exists (columns shown). split.
  - change ((columns shown).*1) with (column_names shown).
    erewrite setitem_frame_names; [| done | by eapply getitem_column].
    unfold display_df, column_names. cbn [head_frame columns]. done.
  - f_equal. f_equal. destruct shown as [cs' rs']. cbn [columns]. f_equal.
    revert Hshown. unfold setitem_frame. destruct (decide _); [|done].
    intros [= _ <-]. rewrite (getitem_values _ _ _ Had).
    unfold display_df. cbn [head_frame rows]. rewrite map_map.
    rewrite zip_with_map_r_same. rewrite firstn_map, map_map.
    apply map_ext. intros r. unfold display_row. by rewrite cell_display.
Qed.

(** The two factors of the price range, as floats. *)
Lemma band_factors :
  float_sub 1 confidence_range = round64 0.85
  ∧ float_add 1 confidence_range = round64 1.15
  ∧ round64 0.85 = (7656119366529843 # 9007199254740992)%Q
  ∧ round64 1.15 = (2589569785738035 # 2251799813685248)%Q.
Proof. by vm_compute. Qed.

(** Rounding a product of a normal number with a factor between 1/2 and 2. *)
Lemma float_mul_near (p c : Q) :
  (pow2 (-1021) <= p)%Q → (1 # 2 <= c)%Q →
  (Qabs (float_mul p c - p * c) <= p * c * pow2 (-53))%Q.
Proof.
  intros Hp Hc. pose proof (pow2_pos (-1021)) as Hpos.
  assert (0 < p * c)%Q as Hpc by (apply Qmult_lt_0_compat; lra).
  unfold float_mul.
  assert (Qabs (p * c) == p * c)%Q as Habs by (apply Qabs_pos; lra).
  rewrite <- Habs at 3. apply round64_error. rewrite Habs.
  assert (pow2 (-1022) == pow2 (-1021) * (1 # 2))%Q as -> by reflexivity.
  apply Qle_trans with (p * (1 # 2))%Q.
  - apply Qmult_le_compat_r; lra.
  - apply Qmult_le_l; lra.
Qed.

Lemma price_range_bounds (p : Q) :
  (pow2 (-1021) <= p)%Q →
  ((price_range p).1 < p)%Q ∧ (p < (price_range p).2)%Q
  ∧ (Qabs ((price_range p).1 - p * 0.85) <= p * pow2 (-52))%Q
  ∧ (Qabs ((price_range p).2 - p * 1.15) <= p * pow2 (-52))%Q.
Proof.
  intros Hp. destruct band_factors as (Hlo & Hhi & H85 & H115).
  unfold price_range. cbn [fst snd]. rewrite Hlo, Hhi, H85, H115.
  pose proof (pow2_pos (-1021)) as Hpos.
  pose proof (float_mul_near p (7656119366529843 # 9007199254740992) Hp ltac:(lra)) as E1.
  pose proof (float_mul_near p (2589569785738035 # 2251799813685248) Hp ltac:(lra)) as E2.
  set (lo := float_mul p _) in *. set (hi := float_mul p _) in *.
  assert (pow2 (-53) == 1 # 9007199254740992)%Q as H53 by reflexivity.
  assert (pow2 (-52) == 1 # 4503599627370496)%Q as H52 by reflexivity.
  rewrite H53 in E1, E2. rewrite H52.
  revert E1 E2. do 2 (apply Qabs_case; intros ?). 
  all: intros E1 E2.
  all: repeat split; try (apply Qabs_case; intros ?); nra.
Qed.

(** C3. After a prediction that is not [None] the page shows the estimate
    and then the suggested range.  Its bounds are the float products of the
    estimate with the floats nearest to 0.85 and to 1.15 (which is what
    [1 - 0.15] and [1 + 0.15] are as floats): they differ from the estimate
    times 0.85 and times 1.15 by at most 2^-52 of the estimate, and the
    estimate lies strictly between them.  The estimate is a normal float
    whose products do not overflow. *)
Theorem price_band (df : nat) (vehicle_type : string) (features : list string)
    (inputs : gmap string scalar) (predicted_price : Q) (w : world) :
  (pow2 (-1021) <= predicted_price)%Q → (predicted_price <= pow2 1023)%Q →
  let lower_bound := (price_range predicted_price).1 in
  let upper_bound := (price_range predicted_price).2 in
  report_prediction df vehicle_type features inputs predicted_price w
  = (similar_listings df vehicle_type features inputs;;
     show st_write (FeatureImportance features))
      (add_to_screen w [(st_success, EstimatedPrice predicted_price);
                        (st_info, SuggestedPriceRange lower_bound upper_bound)])
  ∧ lower_bound = float_mul predicted_price (round64 0.85)
  ∧ upper_bound = float_mul predicted_price (round64 1.15)
  ∧ (Qabs (lower_bound - predicted_price * 0.85) <= predicted_price * pow2 (-52))%Q
  ∧ (Qabs (upper_bound - predicted_price * 1.15) <= predicted_price * pow2 (-52))%Q
  ∧ (lower_bound < predicted_price)%Q ∧ (predicted_price < upper_bound)%Q.
Proof.
  intros Hnormal _. cbn zeta.
  destruct (price_range_bounds predicted_price Hnormal) as (Hlt1 & Hlt2 & Hlo & Hhi).
  destruct band_factors as (Hf1 & Hf2 & _).
  split; [|split; [|split]].
  - unfold report_prediction.
    destruct (price_range predicted_price) as [lower_bound upper_bound].
    cbn [fst snd]. py_run. by rewrite add_to_screen_app.
  - unfold price_range. cbn [fst]. by rewrite Hf1.
  - unfold price_range. cbn [snd]. by rewrite Hf2.
  - repeat split; assumption.
Qed.

Lemma similar_listings_run w df d vehicle_type ws :
  heap w !! df = Some d →
  (∀ c, c ∈ ["make"; "model"; "year"] → c ∈ column_names d) →
  numeric_column d "year" →
  (vehicle_type = "car" →
     "mileage_avg" ∈ column_names d ∧ numeric_column d "mileage_avg") →
  similar_listings df vehicle_type (schema vehicle_type)
    (collect_inputs vehicle_type (schema vehicle_type) ws) w
  = match List.filter (comparable vehicle_type ws) (rows d) with
    | [] => show st_info NoSimilarListings w
    | _ :: _ =>
        (display_frame vehicle_type
           (mkDataFrame (columns d)
              (List.filter (comparable vehicle_type ws) (rows d)))
         ≫= λ display_df, show st_write (SimilarListings display_df)) w
    end.
Proof.
  intros Hd Hcols Hyear Hmileage. unfold similar_listings. py_run.
  rewrite similar_filter_run by done. py_run.
  unfold where_frame. rewrite select_rows_map. unfold empty_frame. cbn [rows columns].
  destruct (List.filter _ (rows d)) as [|r rs]; [done|].
  destruct (columns d) as [|c cs] eqn:Hc; [|done].
  specialize (Hcols "make"). unfold column_names in Hcols. rewrite Hc in Hcols.
  exfalso. eapply elem_of_nil, Hcols. by left.
Qed.

(** [s == x] on one cell: true exactly for the same string and for numbers
    of the same value. *)
Lemma scalar_eqb_spec x y : scalar_eqb x y = true ↔ equal_values x y.
Proof.
  split.
  - destruct x as [|p|s], y as [|q|t]; simpl; try done.
    + intros H. constructor. by apply Qeq_bool_iff.
    + intros H. apply bool_decide_eq_true in H as ->. constructor.
  - intros [s|p q H]; simpl.
    + by apply bool_decide_eq_true.
    + by apply Qeq_bool_iff.
Qed.

(** C4. On a table with the columns [make], [model], [year] (and, for cars,
    [mileage_avg]) and no string in [year] (nor, for cars, in [mileage_avg]):
    the filter marks a row exactly when its make and its model are the chosen
    ones (the same string, or a number of the same value), the year is within
    2 of the chosen year and, for cars only, the mileage is within 20000 of
    the chosen mileage, bounds included; and when some row matches and the
    table has the display columns, the page shows the first five matching
    rows, in table order, and nothing else. *)
Theorem similar_listings_rule (w : world) (df : nat) (d : DataFrame)
    (vehicle_type : string) (ws : widgets) :
  heap w !! df = Some d →
  (∀ c, c ∈ ["make"; "model"; "year"] → c ∈ column_names d) →
  numeric_column d "year" →
  (vehicle_type = "car" →
     "mileage_avg" ∈ column_names d ∧ numeric_column d "mileage_avg") →
  let inputs := collect_inputs vehicle_type (schema vehicle_type) ws in
  let matching := List.filter (comparable vehicle_type ws) (rows d) in
  similar_filter d vehicle_type (schema vehicle_type) inputs w
    = (inr (map (comparable vehicle_type ws) (rows d)), w)
  ∧ (matching ≠ [] →
     (∀ c, c ∈ display_cols vehicle_type → c ∈ column_names d) →
     ∃ cs, cs.*1 = display_cols vehicle_type ∧
       similar_listings df vehicle_type (schema vehicle_type) inputs w
       = (inr (),
          add_to_screen w
            [(st_write,
              SimilarListings
                (mkDataFrame cs
                   (map (display_row vehicle_type) (take 5 matching))))]))
  ∧ (length (take 5 matching) ≤ 5)%nat
  ∧ (∀ r, comparable vehicle_type ws r = true ↔
       equal_values (cell r "make") (w_make ws)
       ∧ equal_values (cell r "model") (w_model ws)
       ∧ (∃ y, cell r "year" = Num y
               ∧ (inject_Z (w_year ws) - 2 <= y)%Q
               ∧ (y <= inject_Z (w_year ws) + 2)%Q)
       ∧ (vehicle_type = "car" →
          ∃ km, cell r "mileage_avg" = Num km
                ∧ (inject_Z (w_mileage_avg ws) - 20000 <= km)%Q
                ∧ (km <= inject_Z (w_mileage_avg ws) + 20000)%Q)).
Proof.
  intros Hd Hbasic Hyear Hmil inputs matching.
  split; [by apply similar_filter_run|]. split; [|split].
  - intros Hsome Hcols. unfold inputs. rewrite (similar_listings_run w df d) by done.
    fold matching. destruct matching as [|r rs] eqn:Hm; [done|]. rewrite <- Hm.
    destruct (display_frame_run vehicle_type (mkDataFrame (columns d) matching) w)
      as (cs & Hcs & Hrun); [done|].
    exists cs. split; [done|]. rewrite run_bind, Hrun. done.
  - rewrite length_take. lia.
  - intros r. unfold comparable, within. rewrite !andb_true_iff.
    rewrite !scalar_eqb_spec. split.
    + intros [[[Hmk Hmd] Hy] Hkm]. split; [done|]. split; [done|]. split.
      * destruct (cell r "year") as [|y|]; try done. exists y. split; [done|].
        apply andb_true_iff in Hy as [H1 H2]. by rewrite <- !Qle_bool_iff.
      * intros Hcar. rewrite decide_True in Hkm by done.
        destruct (cell r "mileage_avg") as [|km|]; try done. exists km.
        split; [done|]. apply andb_true_iff in Hkm as [H1 H2].
        by rewrite <- !Qle_bool_iff.
    + intros (Hmk & Hmd & (y & -> & Hy1 & Hy2) & Hkm).
      split; [split; [done|]|].
      * apply andb_true_iff. by rewrite !Qle_bool_iff.
      * destruct (decide (vehicle_type = "car")) as [Hcar|]; [|done].
        destruct (Hkm Hcar) as (km & -> & H1 & H2).
        apply andb_true_iff. by rewrite !Qle_bool_iff.
Qed.

(** C8. When no row of the table matches, the similar-listings block returns
    normally: it shows the information message that nothing similar was
    found, raises nothing and shows no error. *)
Theorem empty_comparables_not_error (w : world) (df : nat) (d : DataFrame)
    (vehicle_type : string) (ws : widgets) :
  heap w !! df = Some d →
  (∀ c, c ∈ ["make"; "model"; "year"] → c ∈ column_names d) →
  numeric_column d "year" →
  (vehicle_type = "car" →
     "mileage_avg" ∈ column_names d ∧ numeric_column d "mileage_avg") →
  (∀ r, r ∈ rows d → comparable vehicle_type ws r = false) →
  similar_listings df vehicle_type (schema vehicle_type)
    (collect_inputs vehicle_type (schema vehicle_type) ws) w
  = (inr (), add_to_screen w [(st_info, NoSimilarListings)]).
Proof.
  intros Hd Hcols Hyear Hmileage Hnone.
  rewrite (similar_listings_run w df d) by done.
  destruct (List.filter _ (rows d)) as [|r rs] eqn:Hfilter; [done|].
  assert (r ∈ List.filter (comparable vehicle_type ws) (rows d)) as Hr.
  { rewrite Hfilter. by left. }
  apply elem_of_List_filter in Hr as [Hr Hcomp]. rewrite Hnone in Hcomp; done.
Qed.

(** ** The loader and the Market Overview page *)

Lemma cell_set_cell_eq c f r : cell (set_cell c f r) c = f r.
Proof. unfold cell, set_cell. by rewrite lookup_insert_eq. Qed.

Lemma cell_set_cell_ne c c' f r : c ≠ c' → cell (set_cell c f r) c' = cell r c'.
Proof. intros Hne. unfold cell, set_cell. by rewrite lookup_insert_ne. Qed.

(** Read a cell through the updates made to its row. *)
Ltac cells :=
  repeat first [ rewrite cell_set_cell_eq | rewrite cell_set_cell_ne by done ].

Lemma set_dtype_keeps c t (cs : list (string * dtype)) c' :
  c' ∈ cs.*1 → c' ∈ (set_dtype c t cs).*1.
Proof.
  induction cs as [|[c0 t0] cs IH]; simpl; intros Hc'.
  - by apply elem_of_nil in Hc'.
  - destruct (decide (c0 = c)) as [->|Hne]; simpl; [done|].
    apply elem_of_cons in Hc' as [->|Hc']; [by left|]. right. by apply IH.
Qed.

(** Writing a column computed row by row. *)
Lemma run_setitem_derived w l d c s (f : gmap string scalar → scalar) :
  heap w !! l = Some d → s_values s = map f (rows d) →
  setitem l c s w
  = (inr (), put_frame w l (mkDataFrame (set_dtype c (s_dtype s) (columns d))
                              (map (set_cell c f) (rows d)))).
Proof.
  intros Hd Hs. unfold setitem. py_run. unfold setitem_frame.
  rewrite decide_True by (by rewrite Hs, length_map).
  py_run. rewrite Hs, zip_with_map_r_same. done.
Qed.

Lemma getitem_run d c :
  c ∈ column_names d →
  ∃ t, getitem d c = inr (mkSeries t (map (λ r, cell r c) (rows d))).
Proof.
  intros Hc. destruct (getitem_ok d c Hc) as [s Hs].
  exists (s_dtype s). rewrite Hs. f_equal. destruct s as [t vs]. simpl. f_equal.
  by apply getitem_values in Hs.
Qed.

Lemma compare_with_run op x (f : gmap string scalar → scalar) rs t :
  (∀ r s, r ∈ rs → f r ≠ Str s) →
  compare_with op (mkSeries t (map f rs)) x
  = inr (map (λ r, cmp_cell op x (f r)) rs).
Proof.
  intros Hnum. unfold compare_with. cbn [s_values].
  induction rs as [|r rs IH]; simpl; [done|].
  rewrite IH by (intros r' s' Hr'; apply Hnum; by right).
  destruct (f r) as [|q|s] eqn:Hf; simpl; try done.
  destruct (Hnum r s); [by left|done].
Qed.

Lemma to_numeric1_not_Str v s : to_numeric1 v ≠ Str s.
Proof. destruct v as [|q|x]; simpl; try done. by destruct (parse_number x). Qed.

Lemma zip_or_raise_run {A B C D} (f : B → C → exn + D) (g : A → B) (h : A → C)
    (k : A → D) l :
  (∀ x, x ∈ l → f (g x) (h x) = inr (k x)) →
  zip_or_raise f (map g l) (map h l) = inr (map k l).
Proof.
  induction l as [|x l IH]; intros Hf; simpl; [done|].
  rewrite (Hf x) by left. rewrite IH; [done|].
  intros y Hy. apply Hf. by right.
Qed.

Lemma average2_numeric ints a b :
  (∀ s, a ≠ Str s) → (∀ s, b ≠ Str s) →
  average2 ints a b = inr (average_cell ints a b).
Proof.
  intros Ha Hb. destruct a as [|p|s], b as [|q|s']; simpl; try done.
  all: try (by destruct (Ha s)). all: by destruct (Hb s').
Qed.

Lemma map_or_raise_map_ok {A B C} (F : B → exn + C) (f : A → B) (G : A → C) l :
  (∀ x, x ∈ l → F (f x) = inr (G x)) →
  map_or_raise F (map f l) = inr (map G l).
Proof.
  induction l as [|x l IH]; intros HF; simpl; [done|].
  rewrite (HF x) by left. rewrite IH; [done|].
  intros y Hy. apply HF. by right.
Qed.

(** [process_vehicle_data] on a table with the odometer columns whose years
    are numbers: every row gets [age], numeric odometer readings and their
    average. *)
Lemma process_vehicle_data_run w df d this_year :
  heap w !! df = Some d →
  (∀ c, c ∈ ["year"; "mileage_min"; "mileage_max"] → c ∈ column_names d) →
  (∀ r, r ∈ rows d → ∃ q, cell r "year" = Num q) →
  ∃ ints cs,
    process_vehicle_data this_year df w
    = (inr (), put_frame w df
                 (mkDataFrame cs (map (process_row this_year ints) (rows d))))
    ∧ ∀ c, c ∈ column_names d → c ∈ cs.*1.
Proof.
  intros Hd Hcols Hyears. unfold process_vehicle_data. py_run.
  destruct (getitem_run d "year") as [ty ->]; [apply Hcols; by left|]. py_run.
  unfold rsub. cbn [s_values].
  rewrite (map_or_raise_map_ok _ _ (λ r, age_cell this_year (cell r "year"))).
  2:{ intros r Hr. destruct (Hyears r Hr) as [q ->]. done. }
  py_run. erewrite run_setitem_derived by (done || reflexivity). py_run.
  set (d1 := mkDataFrame _ (map (set_cell "age" _) _)).
  assert (∀ c, c ∈ column_names d → c ∈ column_names d1) as Hd1.
  { intros c Hc. unfold d1, column_names. cbn [columns]. by apply set_dtype_keeps. }
  rewrite !(proj2 (has_column_true d1 _))
    by (apply Hd1, Hcols; repeat first [by left | right]).
  cbn [andb].
  destruct (getitem_run d1 "mileage_min") as [tmin ->];
    [apply Hd1, Hcols; right; by left|]. py_run.
  erewrite run_setitem_derived;
    [| apply lookup_put_frame | unfold to_numeric; cbn [s_values]; apply map_map].
  rewrite put_frame_twice. py_run.
  set (d2 := mkDataFrame _ (map (set_cell "mileage_min" _) _)).
  assert (∀ c, c ∈ column_names d1 → c ∈ column_names d2) as Hd2.
  { intros c Hc. unfold d2, column_names. cbn [columns]. by apply set_dtype_keeps. }
  destruct (getitem_run d2 "mileage_max") as [tmax ->];
    [apply Hd2, Hd1, Hcols; do 2 right; by left|]. py_run.
  erewrite run_setitem_derived;
    [| apply lookup_put_frame | unfold to_numeric; cbn [s_values]; apply map_map].
  rewrite put_frame_twice. py_run.
  set (d3 := mkDataFrame _ (map (set_cell "mileage_max" _) _)).
  assert (∀ c, c ∈ column_names d2 → c ∈ column_names d3) as Hd3.
  { intros c Hc. unfold d3, column_names. cbn [columns]. by apply set_dtype_keeps. }
  destruct (getitem_run d3 "mileage_min") as [tmin' ->];
    [apply Hd3, Hd2, Hd1, Hcols; right; by left|]. py_run.
  destruct (getitem_run d3 "mileage_max") as [tmax' ->];
    [apply Hd3, Hd2, Hd1, Hcols; do 2 right; by left|]. py_run.
  unfold series_average. cbn [s_values].
  set (ints := held_as_int64 _ _ && held_as_int64 _ _). clearbody ints.
  rewrite (zip_or_raise_run _ _ _
             (λ r, average_cell ints (cell r "mileage_min") (cell r "mileage_max"))).
  2:{ intros r Hr. apply average2_numeric.
      - unfold d3, d2 in Hr. cbn [rows] in Hr.
        apply list_elem_of_In, in_map_iff in Hr as (r2 & <- & Hr2).
        apply in_map_iff in Hr2 as (r1 & <- & Hr1).
        rewrite cell_set_cell_ne by done. rewrite cell_set_cell_eq.
        apply to_numeric1_not_Str.
      - unfold d3 in Hr. cbn [rows] in Hr.
        apply list_elem_of_In, in_map_iff in Hr as (r2 & <- & Hr2).
        rewrite cell_set_cell_eq. apply to_numeric1_not_Str. }
  py_run. erewrite run_setitem_derived by (apply lookup_put_frame || reflexivity).
  rewrite put_frame_twice. exists ints. eexists. split.
  - f_equal. f_equal. f_equal. unfold d3, d2, d1. cbn [rows].
    rewrite !map_map. done.
  - intros c Hc. cbn [columns s_dtype]. apply set_dtype_keeps.
    by apply Hd3, Hd2, Hd1.
Qed.

Lemma prepare_row_price r s : cell (prepare_row r) "price" ≠ Str s.
Proof.
  unfold prepare_row. rewrite cell_set_cell_ne by done.
  rewrite cell_set_cell_eq. apply to_numeric1_not_Str.
Qed.

Lemma prepare_row_year r s : cell (prepare_row r) "year" ≠ Str s.
Proof.
  unfold prepare_row. rewrite cell_set_cell_eq. apply to_numeric1_not_Str.
Qed.

Lemma keep_row_year this_year r :
  keep_row this_year (prepare_row r) = true →
  ∃ q, cell (prepare_row r) "year" = Num q.
Proof.
  unfold keep_row. rewrite !andb_true_iff. intros [[[_ Hna] _] _].
  destruct (cell (prepare_row r) "year") as [|q|s] eqn:Hy; [done|by eexists|].
  by destruct (prepare_row_year r s).
Qed.

(** [load_car_data] on an export that has the price, year and odometer
    columns: it returns a new table whose rows are the kept rows of the
    export, finished one by one, and shows nothing. *)
Lemma load_car_data_run raw this_year w :
  (∀ c, c ∈ ["price"; "year"; "mileage_min"; "mileage_max"] → c ∈ column_names raw) →
  ∃ ints l d w',
    load_car_data (inr raw) this_year w = (inr l, w')
    ∧ heap w' !! l = Some d ∧ screen w' = screen w
    ∧ rows d = map (finish_row this_year ints)
                 (List.filter (keep_row this_year) (map prepare_row (rows raw))).
Proof.
  intros Hcols. unfold load_car_data, try_except. py_run.
  set (l1 := fresh (dom (heap w))).
  destruct (getitem_run raw "price") as [tp ->]; [apply Hcols; by left|]. py_run.
  erewrite run_setitem_derived;
    [| apply lookup_put_frame | unfold to_numeric; cbn [s_values]; apply map_map].
  rewrite put_frame_twice. py_run.
  set (d1 := mkDataFrame _ (map (set_cell "price" _) _)).
  assert (∀ c, c ∈ column_names raw → c ∈ column_names d1) as Hd1.
  { intros c Hc. unfold d1, column_names. cbn [columns]. by apply set_dtype_keeps. }
  destruct (getitem_run d1 "year") as [ty ->];
    [apply Hd1, Hcols; right; by left|]. py_run.
  erewrite run_setitem_derived;
    [| apply lookup_put_frame | unfold to_numeric; cbn [s_values]; apply map_map].
  rewrite put_frame_twice. py_run.
  set (d2 := mkDataFrame _ (map (set_cell "year" _) _)).
  assert (∀ c, c ∈ column_names d1 → c ∈ column_names d2) as Hd2.
  { intros c Hc. unfold d2, column_names. cbn [columns]. by apply set_dtype_keeps. }
  assert (rows d2 = map prepare_row (rows raw)) as Hrows2.
  { unfold d2, d1. cbn [rows]. by rewrite map_map. }
  destruct (getitem_run d2 "price") as [tp2 ->];
    [apply Hd2, Hd1, Hcols; by left|].
  destruct (getitem_run d2 "year") as [ty2 ->];
    [apply Hd2, Hd1, Hcols; right; by left|].
  assert (∀ r s, r ∈ rows d2 → cell r "price" ≠ Str s) as Hprice.
  { intros r s Hr. rewrite Hrows2 in Hr.
    apply list_elem_of_In, in_map_iff in Hr as (r0 & <- & _).
    apply prepare_row_price. }
  assert (∀ r s, r ∈ rows d2 → cell r "year" ≠ Str s) as Hyear.
  { intros r s Hr. rewrite Hrows2 in Hr.
    apply list_elem_of_In, in_map_iff in Hr as (r0 & <- & _).
    apply prepare_row_year. }
  repeat (py_run;
          first [ rewrite (compare_with_run _ _ (λ r, cell r "price")) by done
                | rewrite (compare_with_run _ _ (λ r, cell r "year")) by done ]).
  py_run. unfold not_isna, mask_and. cbn [s_values].
  rewrite !map_map, !zip_with_map_same. unfold where_frame.
  change (select_rows _ (rows d2))
    with (select_rows (map (keep_row this_year) (rows d2)) (rows d2)).
  rewrite select_rows_map.
  set (l2 := fresh (dom (heap (put_frame w l1 d2)))).
  set (d3 := mkDataFrame (columns d2) _).
  assert (∀ r, r ∈ rows d3 → ∃ q, cell r "year" = Num q) as Hyears.
  { intros r Hr. unfold d3 in Hr. cbn [rows] in Hr.
    apply elem_of_List_filter in Hr as [Hr Hkeep]. rewrite Hrows2 in Hr.
    apply list_elem_of_In, in_map_iff in Hr as (r0 & <- & _).
    by apply keep_row_year in Hkeep. }
  destruct (getitem_run d3 "year") as [ty3 ->];
    [apply Hd2, Hd1, Hcols; right; by left|]. py_run.
  unfold astype_int. cbn [s_values].
  rewrite (map_or_raise_map_ok _ _ (λ r, int_cell (cell r "year"))).
  2:{ intros r Hr. destruct (Hyears r Hr) as [q ->]. done. }
  py_run.
  erewrite run_setitem_derived by (apply lookup_put_frame || reflexivity).
  rewrite put_frame_twice. py_run.
  set (d4 := mkDataFrame _ (map (set_cell "year" _) _)).
  destruct (process_vehicle_data_run (put_frame (put_frame w l1 d2) l2 d4) l2 d4 this_year)
    as (ints & cs & Hrun & _).
  { apply lookup_put_frame. }
  { intros c Hc. unfold d4, column_names. cbn [columns]. apply set_dtype_keeps.
    apply Hd2, Hd1, Hcols. by right. }
  { intros r Hr. unfold d4 in Hr. cbn [rows] in Hr.
    apply list_elem_of_In, in_map_iff in Hr as (r3 & <- & Hr3).
    apply list_elem_of_In in Hr3. destruct (Hyears r3 Hr3) as [q Hq].
    rewrite cell_set_cell_eq, Hq. by eexists. }
  rewrite Hrun. py_run. rewrite put_frame_twice.
  exists ints. eexists _, _, _. split; [done|]. split; [apply lookup_put_frame|].
  split; [done|]. cbn [rows]. unfold d4, d3. cbn [rows]. rewrite Hrows2.
  by rewrite map_map.
Qed.

Lemma lower_char_idem c : lower_char (lower_char c) = lower_char c.
Proof. destruct c as [[] [] [] [] [] [] [] []]; reflexivity. Qed.

Lemma ascii_lower_idem s : ascii_lower (ascii_lower s) = ascii_lower s.
Proof. induction s as [|c s IH]; simpl; [done|]. by rewrite lower_char_idem, IH. Qed.

Lemma lower_char_ascii c :
  (Ascii.nat_of_ascii c <? 128)%nat = true →
  (Ascii.nat_of_ascii (lower_char c) <? 128)%nat = true.
Proof. destruct c as [[] [] [] [] [] [] [] []]; vm_compute; done. Qed.

Lemma ascii_lower_is_ascii s : is_ascii s = true → is_ascii (ascii_lower s) = true.
Proof.
  induction s as [|c s IH]; simpl; [done|]. rewrite !andb_true_iff.
  intros [Hc Hs]. split; [by apply lower_char_ascii|by apply IH].
Qed.

(** A column of strings, with gaps or not, has the [str] accessor. *)
Lemma has_str_accessor_strings d c s r x :
  getitem d c = inr s → s_dtype s = object → r ∈ rows d → cell r c = Str x →
  has_str_accessor s = true.
Proof.
  intros Hs Hobj Hr Hx. unfold has_str_accessor, counted. rewrite Hobj.
  assert (Str x ∈ List.filter notna (s_values s)) as Hin.
  { apply elem_of_List_filter. split; [|done].
    rewrite (getitem_values _ _ _ Hs), <- Hx.
    apply list_elem_of_In, (in_map (λ r, cell r c)), list_elem_of_In, Hr. }
  destruct (List.filter notna (s_values s)) as [|v vs] eqn:Hvs.
  { by apply elem_of_nil in Hin. }
  apply existsb_exists. exists (Str x). split; [by apply list_elem_of_In|done].
Qed.

(** [df['fuel_type'] = df['fuel_type'].str.lower()] on a table whose
    [fuel_type] column has the [str] accessor: the [fuel_type] cells of that
    very table are replaced by their lower-case form. *)
Lemma lower_fuel_type_run w df d s :
  heap w !! df = Some d →
  getitem d "fuel_type" = inr s → has_str_accessor s = true →
  lower_fuel_type df w
  = (inr (), put_frame w df
               (mkDataFrame (set_dtype "fuel_type" object (columns d))
                  (map (set_cell "fuel_type" (λ r, lower_cell (cell r "fuel_type")))
                       (rows d)))).
Proof.
  intros Hd Hs Hacc. unfold lower_fuel_type. py_run.
  rewrite Hs. py_run. unfold series_str_lower. rewrite Hacc. py_run.
  erewrite run_setitem_derived; [done|done|].
  cbn [s_values]. rewrite (getitem_values _ _ _ Hs). apply map_map.
Qed.

Lemma set_dtype_has c t (cs : list (string * dtype)) : c ∈ (set_dtype c t cs).*1.
Proof.
  induction cs as [|[c0 t0] cs IH]; simpl; [by left|].
  destruct (decide (c0 = c)) as [->|Hne]; simpl; [by left|]. by right.
Qed.

Lemma setitem_frame_derived d c s (f : gmap string scalar → scalar) :
  s_values s = map f (rows d) →
  setitem_frame d c s
  = inr (mkDataFrame (set_dtype c (s_dtype s) (columns d))
           (map (set_cell c f) (rows d))).
Proof.
  intros Hs. unfold setitem_frame.
  rewrite decide_True by (by rewrite Hs, length_map).
  by rewrite Hs, zip_with_map_r_same.
Qed.

(** C9, as the code has it. From an export with the price, year and odometer
    columns the loader returns a table in which every row comes from a row of
    the export, its odometer readings made numeric and its [fuel_type]
    exactly as exported.  Its [mileage_avg] is missing as soon as one of the
    readings is; when both readings are whole numbers below 2^52 in size it
    is their average, so not negative when neither reading is.  (Beyond that
    size the sum is no longer exact: a float sum is rounded and an [int64]
    sum wraps around.)  The lower-case form is written later, by the
    statement of [render_car_features] that rewrites [fuel_type], into the
    table the page is given: on a column of strings, gaps or not, it leaves
    in every row the lower-case form of the string the row held, and a gap
    where there was none. *)
Theorem loader_car_listing (raw : DataFrame) (this_year : Z) (w : world) :
  (∀ c, c ∈ ["price"; "year"; "mileage_min"; "mileage_max"] → c ∈ column_names raw) →
  (∃ l d,
     (load_car_data (inr raw) this_year w).1 = inr l
     ∧ heap (load_car_data (inr raw) this_year w).2 !! l = Some d
     ∧ ∀ r, r ∈ rows d →
         ∃ r0, r0 ∈ rows raw
           ∧ cell r "mileage_min" = to_numeric1 (cell r0 "mileage_min")
           ∧ cell r "mileage_max" = to_numeric1 (cell r0 "mileage_max")
           ∧ (cell r "mileage_min" = NaN ∨ cell r "mileage_max" = NaN →
              cell r "mileage_avg" = NaN)
           ∧ (∀ (p q : Q) (lo hi : Z),
                cell r "mileage_min" = Num p → cell r "mileage_max" = Num q →
                (p == inject_Z lo)%Q → (q == inject_Z hi)%Q →
                (Z.abs lo < 2 ^ 52)%Z → (Z.abs hi < 2 ^ 52)%Z →
                ∃ avg, cell r "mileage_avg" = Num avg
                  ∧ (avg == (inject_Z lo + inject_Z hi) / 2)%Q
                  ∧ ((0 ≤ lo)%Z → (0 ≤ hi)%Z → (0 <= avg)%Q))
           ∧ cell r "fuel_type" = cell r0 "fuel_type")
  ∧ (∀ w1 df d1 s,
       heap w1 !! df = Some d1 →
       getitem d1 "fuel_type" = inr s → s_dtype s = object →
       (∃ r x, r ∈ rows d1 ∧ cell r "fuel_type" = Str x) →
       ∃ d2, lower_fuel_type df w1 = (inr (), put_frame w1 df d2)
         ∧ Forall2
             (λ r2 r1,
                match cell r1 "fuel_type" with
                | Str x => cell r2 "fuel_type" = Str (str_lower x)
                | _ => cell r2 "fuel_type" = NaN
                end)
             (rows d2) (rows d1)).
Proof.
  intros Hcols. split.
  - destruct (load_car_data_run raw this_year w Hcols)
      as (ints & l & d & w' & Hrun & Hl & _ & Hrows).
    exists l, d. rewrite Hrun. split; [done|]. split; [done|].
    intros r Hr. rewrite Hrows in Hr.
    apply list_elem_of_In, in_map_iff in Hr as (r1 & <- & Hr1).
    apply filter_In in Hr1 as [Hr1 _].
    apply in_map_iff in Hr1 as (r0 & <- & Hr0).
    exists r0. split; [by apply list_elem_of_In|].
    assert (cell (finish_row this_year ints (prepare_row r0)) "mileage_min"
            = to_numeric1 (cell r0 "mileage_min")) as Hmin.
    { unfold finish_row, process_row, prepare_row. by cells. }
    assert (cell (finish_row this_year ints (prepare_row r0)) "mileage_max"
            = to_numeric1 (cell r0 "mileage_max")) as Hmax.
    { unfold finish_row, process_row, prepare_row. by cells. }
    assert (cell (finish_row this_year ints (prepare_row r0)) "mileage_avg"
            = average_cell ints
                (cell (finish_row this_year ints (prepare_row r0)) "mileage_min")
                (cell (finish_row this_year ints (prepare_row r0)) "mileage_max"))
      as Havg.
    { rewrite Hmin, Hmax. unfold finish_row, process_row, prepare_row. by cells. }
    split; [done|]. split; [done|]. split; [|split].
    + rewrite Havg. intros [->| ->]; [done|].
      by destruct (cell (finish_row this_year ints (prepare_row r0)) "mileage_min").
    + intros p q lo hi Hp Hq Hlo Hhi Hlo52 Hhi52. rewrite Havg, Hp, Hq.
      cbn [average_cell]. eexists. split; [done|].
      pose proof (average_of_whole ints p q lo hi Hlo Hhi Hlo52 Hhi52) as Heq.
      split; [done|]. intros H1 H2. rewrite Heq.
      apply Qle_shift_div_l; [done|]. rewrite Qmult_0_l.
      rewrite <- inject_Z_plus. change 0%Q with (inject_Z 0).
      rewrite <- Zle_Qle. lia.
    + unfold finish_row, process_row, prepare_row. by cells.
  - intros w1 df d1 s Hd1 Hs Hobj (r & x & Hr & Hx). eexists. split.
    { eapply lower_fuel_type_run; [done|done|].
      by eapply has_str_accessor_strings. }
    cbn [rows]. clear. induction (rows d1) as [|r1 rs IH]; simpl; constructor; [|done].
    rewrite cell_set_cell_eq. by destruct (cell r1 "fuel_type").
Qed.

(** * Further properties *)

(** ** [predict_price]: what reaches the forest, and what comes back *)

Lemma dict_set_fresh k v (d : list (string * scalar)) :
  k ∉ d.*1 → dict_set k v d = d ++ [(k, v)].
Proof.
  induction d as [|[k' v'] d IH]; simpl; intros Hk; [done|].
  apply not_elem_of_cons in Hk as [Hne Hk].
  rewrite decide_False by done. by rewrite IH.
Qed.

Lemma encoded_row_names encoders inputs features :
  (∀ f, f ∈ features → is_Some (encoded_value encoders inputs f)) →
  (encoded_row encoders inputs features).*1 = features.
Proof.
  induction features as [|f features IH]; intros Hall; simpl; [done|].
  destruct (Hall f) as [v Hv]; [by left|]. rewrite Hv. simpl. f_equal.
  apply IH. intros f' Hf'. apply Hall. by right.
Qed.

Lemma encoded_row_cons encoders inputs f features c :
  encoded_value encoders inputs f = Some c →
  encoded_row encoders inputs (f :: features)
  = (f, c) :: encoded_row encoders inputs features.
Proof. intros Hc. unfold encoded_row. simpl. by rewrite Hc. Qed.

(** When every feature yields a cell, the loop completes with the cells in
    feature order appended to what it started from, and shows nothing. *)
Lemma prepare_input_completes encoders inputs features acc w :
  NoDup (acc.*1 ++ features) →
  (∀ f, f ∈ features → is_Some (encoded_value encoders inputs f)) →
  prepare_input encoders inputs features acc w
  = (inr (Some (acc ++ encoded_row encoders inputs features)), w).
Proof.
  revert acc. induction features as [|f features IH]; intros acc Hnd Hall.
  { simpl. by rewrite app_nil_r. }
  destruct (Hall f) as [c Hc]; [by left|].
  assert (f ∉ acc.*1) as Hfresh.
  { apply NoDup_app in Hnd as (_ & Hdisj & _). intros Hin.
    apply (Hdisj f Hin). by left. }
  assert (∀ v, NoDup ((dict_set f v acc).*1 ++ features)) as Hnd'.
  { intros v. rewrite dict_set_fresh by done. rewrite fmap_app. simpl.
    by rewrite <- app_assoc. }
  assert (∀ f', f' ∈ features → is_Some (encoded_value encoders inputs f')) as Hall'.
  { intros f' Hf'. apply Hall. by right. }
  rewrite (encoded_row_cons _ _ _ _ c) by done.
  unfold encoded_value in Hc.
  destruct (inputs !! f) as [v|] eqn:Hv; [|done].
  destruct (encoders !! f) as [enc|] eqn:Henc.
  - destruct (encode enc (py_str v)) as [e|i] eqn:Hi; [done|].
    injection Hc as <-.
    rewrite (prepare_input_encoded_seen _ _ _ _ _ enc v i) by done.
    rewrite IH by done. rewrite dict_set_fresh by done.
    by rewrite <- app_assoc.
  - injection Hc as <-.
    rewrite (prepare_input_plain _ _ _ _ _ v) by done.
    rewrite IH by done. rewrite dict_set_fresh by done.
    by rewrite <- app_assoc.
Qed.

(** X1. When every model feature has a value and every encoded value is one
    of its encoder's classes, [predict_price] hands the forest one row whose
    cells are, in feature order, the code of each encoded value and each
    other value as supplied.  It returns the first price the forest answers
    and shows nothing; a forest that raises, or answers with no price, gives
    [None] and one error message. *)
Theorem predict_price_encodes (prediction_model : Model)
    (encoders : gmap string LabelEncoder) (model_features : list string)
    (inputs : gmap string scalar) (w : world) :
  NoDup model_features →
  (∀ f, f ∈ model_features → is_Some (encoded_value encoders inputs f)) →
  let input_data := encoded_row encoders inputs model_features in
  input_data.*1 = model_features
  ∧ predict_price prediction_model encoders model_features inputs w
    = match forest_predict prediction_model (frame_of_dict input_data) with
      | inr (predicted_price :: _) => (inr (Some predicted_price), w)
      | inr [] =>
          (inr None, add_to_screen w [(st_error, ErrorInPrediction IndexError)])
      | inl e => (inr None, add_to_screen w [(st_error, ErrorInPrediction e)])
      end.
Proof.
  intros Hnd Hall input_data. split; [by apply encoded_row_names|].
  unfold predict_price, try_except. rewrite run_bind.
  rewrite prepare_input_completes by done. cbn [app]. fold input_data.
  destruct (forest_predict prediction_model (frame_of_dict input_data))
    as [e|[|p ps]]; py_run; done.
Qed.

(** The three ways the loop can end: with the data and nothing shown, at an
    unrecognized value with one warning, or at a feature without a value
    with a [KeyError]. *)
Lemma prepare_input_outcome encoders inputs features acc w :
  (∃ data, prepare_input encoders inputs features acc w = (inr (Some data), w))
  ∨ (∃ f v, f ∈ features ∧ unrecognized encoders inputs f v
       ∧ prepare_input encoders inputs features acc w
         = (inr None, add_to_screen w [(st_warning, UnknownCategory f v)]))
  ∨ (∃ f, f ∈ features ∧ inputs !! f = None
       ∧ prepare_input encoders inputs features acc w = (inl (KeyError f), w)).
Proof.
  revert acc. induction features as [|feature rest IH]; intros acc.
  { left. by eexists. }
  assert (∀ acc',
    prepare_input encoders inputs (feature :: rest) acc w
    = prepare_input encoders inputs rest acc' w →
    (∃ data, prepare_input encoders inputs (feature :: rest) acc w
             = (inr (Some data), w))
    ∨ (∃ f v, f ∈ feature :: rest ∧ unrecognized encoders inputs f v
         ∧ prepare_input encoders inputs (feature :: rest) acc w
           = (inr None, add_to_screen w [(st_warning, UnknownCategory f v)]))
    ∨ (∃ f, f ∈ feature :: rest ∧ inputs !! f = None
         ∧ prepare_input encoders inputs (feature :: rest) acc w
           = (inl (KeyError f), w))) as Hstep.
  { intros acc' ->. destruct (IH acc') as [?|[(f & v & Hf & ?)|(f & Hf & ?)]].
    - by left.
    - right; left. exists f, v. split; [by right|done].
    - right; right. exists f. split; [by right|done]. }
  destruct (inputs !! feature) as [v|] eqn:Hv.
  2:{ right; right. exists feature. split; [by left|]. split; [done|].
      by apply prepare_input_no_value. }
  destruct (encoders !! feature) as [enc|] eqn:Henc.
  - destruct (decide (py_str v ∈ classes_ enc)) as [Hseen|Hnew].
    + destruct (encode_seen enc _ Hseen) as (i & Hi & _).
      eapply Hstep. by eapply prepare_input_encoded_seen.
    + right; left. exists feature, v. split; [by left|].
      split; [by exists enc|]. by eapply prepare_input_encoded_unseen.
  - eapply Hstep. by eapply prepare_input_plain.
Qed.

(** X2. [predict_price] never raises and never touches a table or the
    generator.  Either it returns a price and shows nothing, or it returns
    [None] and shows exactly one message: the warning about an unrecognized
    value, or the error of whatever went wrong (a feature without a value,
    the forest). *)
Theorem predict_price_price_or_message (prediction_model : Model)
    (encoders : gmap string LabelEncoder) (model_features : list string)
    (inputs : gmap string scalar) (w : world) :
  (∃ predicted_price,
     predict_price prediction_model encoders model_features inputs w
     = (inr (Some predicted_price), w))
  ∨ (∃ f v, unrecognized encoders inputs f v
       ∧ predict_price prediction_model encoders model_features inputs w
         = (inr None, add_to_screen w [(st_warning, UnknownCategory f v)]))
  ∨ (∃ e,
       predict_price prediction_model encoders model_features inputs w
       = (inr None, add_to_screen w [(st_error, ErrorInPrediction e)])).
Proof.
  unfold predict_price, try_except. rewrite run_bind.
  destruct (prepare_input_outcome encoders inputs model_features [] w)
    as [[data ->]|[(f & v & _ & Hu & ->)|(f & _ & _ & ->)]].
  - destruct (forest_predict prediction_model (frame_of_dict data))
      as [e|[|p ps]]; py_run.
    + right; right. by eexists.
    + right; right. by eexists.
    + left. by eexists.
  - right; left. exists f, v. split; [done|]. by py_run.
  - right; right. exists (KeyError f). by py_run.
Qed.

(** The loop passes over features that yield a cell. *)
Lemma prepare_input_prefix encoders inputs pre rest acc w :
  (∀ f, f ∈ pre → is_Some (encoded_value encoders inputs f)) →
  ∃ acc', prepare_input encoders inputs (pre ++ rest) acc w
          = prepare_input encoders inputs rest acc' w.
Proof.
  revert acc. induction pre as [|f pre IH]; intros acc Hall.
  { by exists acc. }
  destruct (Hall f) as [c Hc]; [by left|].
  assert (∀ f', f' ∈ pre → is_Some (encoded_value encoders inputs f')) as Hall'.
  { intros f' Hf'. apply Hall. by right. }
  unfold encoded_value in Hc. rewrite <- app_comm_cons.
  destruct (inputs !! f) as [v|] eqn:Hv; [|done].
  destruct (encoders !! f) as [enc|] eqn:Henc.
  - destruct (encode enc (py_str v)) as [e|i] eqn:Hi; [done|].
    rewrite (prepare_input_encoded_seen _ _ _ _ _ enc v i) by done.
    by apply IH.
  - rewrite (prepare_input_plain _ _ _ _ _ v) by done. by apply IH.
Qed.

(** X3. A model feature without a value among the inputs is reported, not
    raised: when every feature before it yields a cell, [predict_price]
    returns [None] and shows the prediction error of the [KeyError] naming
    that feature; the forest is not asked. *)
Theorem predict_price_missing_input (prediction_model : Model)
    (encoders : gmap string LabelEncoder) (before after : list string)
    (feature : string) (inputs : gmap string scalar) (w : world) :
  (∀ f, f ∈ before → is_Some (encoded_value encoders inputs f)) →
  inputs !! feature = None →
  predict_price prediction_model encoders (before ++ feature :: after) inputs w
  = (inr None,
     add_to_screen w [(st_error, ErrorInPrediction (KeyError feature))]).
Proof.
  intros Hbefore Hnone. unfold predict_price, try_except. rewrite run_bind.
  destruct (prepare_input_prefix encoders inputs before (feature :: after) [] w
              Hbefore) as [acc' ->].
  rewrite prepare_input_no_value by done. by py_run.
Qed.

Lemma prepare_input_ext encoders inputs1 inputs2 features acc w :
  (∀ f, f ∈ features → inputs1 !! f = inputs2 !! f) →
  prepare_input encoders inputs1 features acc w
  = prepare_input encoders inputs2 features acc w.
Proof.
  revert acc. induction features as [|f features IH]; intros acc Hsame; [done|].
  assert (∀ f', f' ∈ features → inputs1 !! f' = inputs2 !! f') as Hsame'.
  { intros f' Hf'. apply Hsame. by right. }
  pose proof (Hsame f ltac:(by left)) as Hf.
  destruct (inputs1 !! f) as [v|] eqn:Hv.
  2:{ by rewrite !prepare_input_no_value. }
  symmetry in Hf.
  destruct (encoders !! f) as [enc|] eqn:Henc.
  - destruct (decide (py_str v ∈ classes_ enc)) as [Hseen|Hnew].
    + destruct (encode_seen enc _ Hseen) as (i & Hi & _).
      rewrite !(prepare_input_encoded_seen _ _ _ _ _ enc v i) by done.
      by apply IH.
    + by rewrite !(prepare_input_encoded_unseen _ _ _ _ _ enc v).
  - rewrite !(prepare_input_plain _ _ _ _ _ v) by done. by apply IH.
Qed.

(** X4. [predict_price] reads the inputs of the model features and no
    others: two input dictionaries that agree on the model features give the
    same answer and the same output, whatever else they hold. *)
Theorem predict_price_reads_model_features (prediction_model : Model)
    (encoders : gmap string LabelEncoder) (model_features : list string)
    (inputs1 inputs2 : gmap string scalar) (w : world) :
  (∀ f, f ∈ model_features → inputs1 !! f = inputs2 !! f) →
  predict_price prediction_model encoders model_features inputs1 w
  = predict_price prediction_model encoders model_features inputs2 w.
Proof.
  intros Hsame. unfold predict_price, try_except. rewrite !run_bind.
  by rewrite (prepare_input_ext encoders inputs1 inputs2).
Qed.

(** ** Training: the paths that end without a model *)

Lemma dropna_frame_first_missing cols1 c cols2 d :
  (∀ c', c' ∈ cols1 → c' ∈ column_names d) → c ∉ column_names d →
  dropna_frame (cols1 ++ c :: cols2) d = inl (KeyError c).
Proof.
  intros Hcols Hc. unfold dropna_frame.
  assert (list_find (λ c, negb (has_column d c)) (cols1 ++ c :: cols2)
          = Some (length cols1, c)) as ->; [|done].
  apply list_find_Some. split; [by apply list_lookup_middle|]. split.
  - unfold has_column. by rewrite bool_decide_eq_false_2.
  - intros j y Hy Hlt. rewrite lookup_app_l in Hy by done.
    assert (has_column d y = true) as ->; [|by intros ?].
    apply has_column_true, Hcols. by eapply list_elem_of_lookup_2.
Qed.

(** X5. A table that has every schema feature but no [price] column is not
    refused with a warning: the missing column surfaces as the [KeyError] of
    [dropna], which training catches.  It returns no model and shows one
    data-preparation error. *)
Theorem train_without_price (w : world) (df : nat) (d : DataFrame)
    (vehicle_type : string) :
  heap w !! df = Some d →
  (∀ f, f ∈ schema vehicle_type → f ∈ column_names d) →
  "price" ∉ column_names d →
  (train_price_prediction_model df vehicle_type w).1 = inr Nones
  ∧ screen (train_price_prediction_model df vehicle_type w).2
    = screen w ++ [(st_error, ErrorInDataPreparation (KeyError "price"))].
Proof.
  intros Hd Hcols Hprice.
  destruct (train_run w df d vehicle_type Hd) as (-> & -> & _).
  unfold train_outcome. rewrite schema_present_no_missing by done.
  rewrite bool_decide_eq_true_2 by done. cbn [negb].
  by rewrite dropna_frame_first_missing.
Qed.

(** The last stage, by what the library answers. *)
Lemma split_and_fit_run d le_dict features X y w :
  select_frame d features = inr X → getitem d "price" = inr y →
  split_and_fit d le_dict features w
  = match split_with_seed 42 0.2%Q X y with
    | inl e => (inl e, w)
    | inr (X_train, X_test, y_train, y_test) =>
        match forest_fit_with_seed 100 42 X_train y_train with
        | inl e => (inr Nones, add_to_screen w [(st_error, ErrorInModelTraining e)])
        | inr model =>
            match forest_score model X_train y_train with
            | inl e =>
                (inr Nones, add_to_screen w [(st_error, ErrorInModelTraining e)])
            | inr train_score =>
                match forest_score model X_test y_test with
                | inl e =>
                    (inr Nones,
                     add_to_screen w [(st_error, ErrorInModelTraining e)])
                | inr test_score =>
                    (inr (Some model, Some le_dict, Some train_score,
                          Some test_score, Some features), w)
                end
            end
        end
    end.
Proof.
  intros HX Hy.
  unfold split_and_fit, train_test_split, fit_and_score, try_except,
    RandomForestRegressor_fit, check_random_state.
  rewrite HX, Hy. py_run.
  destruct (split_with_seed 42 0.2%Q X y) as [e|[[[Xa Xb] ya] yb]]; py_run; [done|].
  destruct (forest_fit_with_seed 100 42 Xa ya) as [e|m]; py_run; [done|].
  destruct (forest_score m Xa ya) as [e|s1]; py_run; [done|].
  destruct (forest_score m Xb yb) as [e|s2]; py_run; done.
Qed.

(** X6. Once the gate of 100 complete rows is passed, a failure of the
    library is reported, never raised, and the message tells where it
    happened: an exception of [train_test_split] is shown as a data
    preparation error, an exception of the forest's [fit] or of either
    [score] as a model training error.  In each case no model is returned. *)
Theorem train_library_failures (w : world) (df : nat) (d : DataFrame)
    (vehicle_type : string) :
  heap w !! df = Some d →
  (∀ f, f ∈ schema vehicle_type ++ ["price"] → f ∈ column_names d) →
  let usable :=
    List.filter (complete_on (schema vehicle_type ++ ["price"])) (rows d) in
  (100 ≤ length usable)%nat →
  let out := train_price_prediction_model df vehicle_type w in
  ∃ le_dict d' X y,
    encode_frame (mkDataFrame (columns d) usable) (schema vehicle_type) ∅
      = (inr le_dict, d')
    ∧ select_frame d' (schema vehicle_type) = inr X
    ∧ getitem d' "price" = inr y
    ∧ (∀ e, split_with_seed 42 0.2%Q X y = inl e →
         out.1 = inr Nones
         ∧ screen out.2 = screen w ++ [(st_error, ErrorInDataPreparation e)])
    ∧ (∀ X_train X_test y_train y_test,
         split_with_seed 42 0.2%Q X y = inr (X_train, X_test, y_train, y_test) →
         (∀ e, forest_fit_with_seed 100 42 X_train y_train = inl e →
            out.1 = inr Nones
            ∧ screen out.2 = screen w ++ [(st_error, ErrorInModelTraining e)])
         ∧ (∀ model e,
              forest_fit_with_seed 100 42 X_train y_train = inr model →
              forest_score model X_train y_train = inl e
              ∨ (∃ train_score,
                   forest_score model X_train y_train = inr train_score
                   ∧ forest_score model X_test y_test = inl e) →
              out.1 = inr Nones
              ∧ screen out.2 = screen w ++ [(st_error, ErrorInModelTraining e)])).
Proof.
  intros Hd Hcols usable Hge out. unfold out.
  destruct (train_run w df d vehicle_type Hd) as (-> & -> & _).
  unfold train_outcome.
  rewrite schema_present_no_missing
    by (intros f Hf; apply Hcols, elem_of_app; by left).
  rewrite dropna_frame_ok by done. cbn [negb bool_decide decide_rel].
  rewrite bool_decide_eq_true_2 by done. unfold len. cbn [negb rows].
  fold usable. apply Nat.ltb_ge in Hge. rewrite Hge.
  destruct (encode_frame_spec (schema vehicle_type)
              (mkDataFrame (columns d) usable) ∅)
    as (le_dict & d' & Hrun & Hnames & _ & _ & _).
  { apply NoDup_schema. }
  { intros f Hf. apply Hcols, elem_of_app. by left. }
  destruct (select_frame_ok d' (schema vehicle_type)) as [X HX].
  { intros f Hf. rewrite Hnames. apply Hcols, elem_of_app. by left. }
  destruct (getitem_ok d' "price") as [y Hy].
  { rewrite Hnames. apply Hcols, elem_of_app. right. by left. }
  exists le_dict, d', X, y. split; [done|]. split; [done|]. split; [done|].
  rewrite Hrun, (split_and_fit_run d' le_dict _ X y) by done. split.
  - intros e ->. done.
  - intros Xa Xb ya yb ->. split.
    + intros e ->. done.
    + intros m e -> [->|(s1 & -> & ->)]; done.
Qed.

(** The encoders the loop records are those it started with and encoders of
    the columns it went through. *)
Lemma encode_frame_keys cols : ∀ d le0 le d',
  encode_frame d cols le0 = (inr le, d') →
  ∀ f, is_Some (le !! f) → f ∈ cols ∨ is_Some (le0 !! f).
Proof.
  induction cols as [|col cols IH]; intros d le0 le d' Hrun f Hf; simpl in Hrun.
  { injection Hrun as <- _. by right. }
  destruct (getitem d col) as [e|s]; [done|].
  destruct (decide (s_dtype s = object)) as [Hobj|Hnum].
  - unfold fit_transform in Hrun.
    destruct (transform _ _) as [e1|codes]; [done|].
    destruct (setitem_frame _ _ _) as [e2|d1]; [done|].
    destruct (IH _ _ _ _ Hrun f Hf) as [Hin|Hin]; [left; by right|].
    destruct (decide (col = f)) as [->|Hne]; [left; by left|].
    rewrite lookup_insert_ne in Hin by done. by right.
  - destruct (IH _ _ _ _ Hrun f Hf) as [Hin|Hin]; [left; by right|by right].
Qed.

(** However the last stage ends on an empty screen: with an exception and
    nothing shown, with no model and one error shown, or with the model, the
    encoders and features it was given, and nothing shown. *)
Lemma split_and_fit_outcome d le_dict features :
  (∃ e, split_and_fit d le_dict features blank = (inl e, blank))
  ∨ (∃ e, split_and_fit d le_dict features blank
          = (inr Nones, add_to_screen blank [(st_error, ErrorInModelTraining e)]))
  ∨ (∃ m s1 s2, split_and_fit d le_dict features blank
                = (inr (Some m, Some le_dict, Some s1, Some s2, Some features),
                   blank)).
Proof.
  destruct (select_frame d features) as [e|X] eqn:HX.
  { left. exists e. unfold split_and_fit. rewrite HX. by py_run. }
  destruct (getitem d "price") as [e|y] eqn:Hy.
  { left. exists e. unfold split_and_fit. rewrite HX, Hy. by py_run. }
  rewrite (split_and_fit_run d le_dict features X y) by done.
  destruct (split_with_seed 42 0.2%Q X y) as [e|[[[Xa Xb] ya] yb]];
    [left; by eexists|].
  destruct (forest_fit_with_seed 100 42 Xa ya) as [e|m];
    [right; left; by eexists|].
  destruct (forest_score m Xa ya) as [e|s1]; [right; left; by eexists|].
  destruct (forest_score m Xb yb) as [e|s2]; [right; left; by eexists|].
  right; right. by eexists _, _, _.
Qed.

(** X7. Training is all or nothing.  Either it returns five [None] and shows
    exactly one message, a warning or an error; or it returns a model, the
    encoders, both scores and the features, and shows nothing.  In that case
    the features are the schema of the vehicle type, and only schema features
    have an encoder. *)
Theorem train_all_or_nothing (w : world) (df : nat) (d : DataFrame)
    (vehicle_type : string) :
  heap w !! df = Some d →
  let out := train_price_prediction_model df vehicle_type w in
  (out.1 = inr Nones
   ∧ ∃ lv msg, screen out.2 = screen w ++ [(lv, msg)]
       ∧ (lv = st_warning ∨ lv = st_error))
  ∨ (∃ model le_dict train_score test_score,
       out.1 = inr (Some model, Some le_dict, Some train_score, Some test_score,
                    Some (schema vehicle_type))
       ∧ screen out.2 = screen w
       ∧ ∀ f, is_Some (le_dict !! f) → f ∈ schema vehicle_type).
Proof.
  intros Hd out. unfold out.
  destruct (train_run w df d vehicle_type Hd) as (-> & -> & _).
  unfold train_outcome.
  destruct (negb (bool_decide (_ = []))).
  { left. split; [done|]. eexists _, _. split; [done|by left]. }
  destruct (dropna_frame _ d) as [e|cl].
  { left. split; [done|]. eexists _, _. split; [done|by right]. }
  destruct (len cl <? 100)%nat.
  { left. split; [done|]. eexists _, _. split; [done|by left]. }
  destruct (encode_frame cl (schema vehicle_type) ∅) as [[e|le_dict] d'] eqn:Henc.
  { left. split; [done|]. eexists _, _. split; [done|by right]. }
  destruct (split_and_fit_outcome d' le_dict (schema vehicle_type))
    as [[e ->]|[[e ->]|(m & s1 & s2 & ->)]].
  - left. split; [done|]. eexists _, _. split; [done|by right].
  - left. split; [done|]. eexists _, _. split; [done|by right].
  - right. exists m, le_dict, s1, s2. split; [done|].
    split; [by rewrite app_nil_r|].
    intros f Hf. destruct (encode_frame_keys _ _ _ _ _ Henc f Hf) as [?|Hin]; [done|].
    rewrite lookup_empty in Hin. by destruct Hin.
Qed.

(** ** The page as a whole *)

Lemma screen_only_keeps (L : gset nat) {A} (m : py A) :
  screen_only m → keeps L m (λ _, True).
Proof. intros Hm w _. rewrite (Hm w). by split. Qed.

Lemma screen_only_number v : screen_only (number v).
Proof. destruct v; first [apply screen_only_ret | apply screen_only_raise]. Qed.

Lemma screen_only_similar_filter d vehicle_type features inputs :
  screen_only (similar_filter d vehicle_type features inputs).
Proof.
  unfold similar_filter.
  repeat first
    [ apply screen_only_ret
    | apply screen_only_lift
    | apply screen_only_kwarg
    | apply screen_only_number
    | apply screen_only_bind; [|intros ?]
    | match goal with |- screen_only (if ?b then _ else _) => destruct b end ].
Qed.

Lemma screen_only_display_frame vehicle_type similar_vehicles :
  screen_only (display_frame vehicle_type similar_vehicles).
Proof.
  unfold display_frame.
  repeat first [ apply screen_only_lift | apply screen_only_bind; [|intros ?] ].
Qed.

Lemma keeps_similar_listings (L : gset nat) df vehicle_type features inputs :
  keeps L (similar_listings df vehicle_type features inputs) (λ _, True).
Proof.
  unfold similar_listings. eapply keeps_bind; [apply keeps_deref|]. intros d _.
  apply screen_only_keeps.
  apply screen_only_bind; [apply screen_only_similar_filter|]. intros mask.
  destruct (negb _); [|apply screen_only_show].
  apply screen_only_bind; [apply screen_only_display_frame|]. intros shown.
  apply screen_only_show.
Qed.

Lemma keeps_report_prediction (L : gset nat) df vehicle_type features inputs p :
  keeps L (report_prediction df vehicle_type features inputs p) (λ _, True).
Proof.
  unfold report_prediction. cbn [price_range].
  eapply keeps_bind; [apply keeps_show|]. intros _ _.
  eapply keeps_bind; [apply keeps_show|]. intros _ _.
  eapply keeps_bind; [apply keeps_similar_listings|]. intros _ _.
  apply keeps_show.
Qed.

Lemma screen_only_input_form d vehicle_type features ws :
  screen_only (input_form d vehicle_type features ws).
Proof.
  unfold input_form.
  repeat first
    [ apply screen_only_ret
    | apply screen_only_lift
    | apply screen_only_bind; [|intros ?]
    | match goal with |- screen_only (if ?b then _ else _) => destruct b end ].
Qed.

Lemma keeps_render_price_prediction (L : gset nat) df vehicle_type ws :
  keeps L (render_price_prediction df vehicle_type ws) (λ _, True).
Proof.
  unfold render_price_prediction.
  eapply keeps_bind; [apply keeps_train|].
  intros [[[[[m|] [le|]] [s1|]] [s2|]] [fs|]] _; try apply keeps_show.
  destruct (negb _ && negb _); [|apply keeps_show].
  eapply keeps_bind; [apply keeps_show|]. intros _ _.
  eapply keeps_bind; [apply keeps_deref|]. intros d _.
  eapply keeps_bind; [apply screen_only_keeps, screen_only_input_form|].
  intros _ _.
  destruct (w_predict ws); [|by apply keeps_ret].
  eapply keeps_bind.
  { apply screen_only_keeps, screen_only_predict_price. }
  intros [p|] _; [apply keeps_report_prediction|by apply keeps_ret].
Qed.

(** X8. The Price Prediction page as a whole (training, prediction, similar
    listings) never writes to a table that existed before the call: whatever
    the widgets hold and however the page ends, with its output complete or
    with an exception on the way, every table of the caller's store, [df]
    included, is afterwards what it was. *)
Theorem page_leaves_caller_tables (df : nat) (vehicle_type : string)
    (ws : widgets) (w : world) :
  ∀ l d, heap w !! l = Some d →
    heap (render_price_prediction df vehicle_type ws w).2 !! l = Some d.
Proof.
  intros l d Hl.
  destruct (keeps_render_price_prediction (dom (heap w)) df vehicle_type ws w)
    as [Hkeep _]; [done|].
  rewrite Hkeep; [done|]. apply elem_of_dom. by eexists.
Qed.

Lemma getitem_dtype d1 d2 c s1 :
  columns d1 = columns d2 → getitem d1 c = inr s1 →
  ∃ s2, getitem d2 c = inr s2 ∧ s_dtype s2 = s_dtype s1.
Proof.
  intros Hcols. unfold getitem. rewrite Hcols.
  destruct (list_find _ (columns d2)) as [[i [c' t]]|]; [|done].
  intros [= <-]. by eexists.
Qed.

(** The encoding loop on columns that are all numeric: nothing is encoded,
    no encoder is recorded. *)
Lemma encode_frame_numeric cols : ∀ d le0 le d',
  (∀ f s, f ∈ cols → getitem d f = inr s → s_dtype s = numeric) →
  encode_frame d cols le0 = (inr le, d') → le = le0.
Proof.
  induction cols as [|col cols IH]; intros d le0 le d' Hnum Hrun; simpl in Hrun.
  { by injection Hrun as <- _. }
  destruct (getitem d col) as [e|s] eqn:Hs; [done|].
  assert (s_dtype s = numeric) as Ht by (eapply Hnum; [by left|done]).
  rewrite decide_False in Hrun by (by rewrite Ht).
  eapply IH; [|done]. intros f s' Hf. apply Hnum. by right.
Qed.

(** X9. A table whose schema columns are all numeric has nothing to encode,
    so a training that succeeds on it returns an empty encoder dictionary;
    the page takes the empty dictionary for a failure: it shows neither the
    accuracies nor the form, only ``failed to initialize'', although a model
    was fitted and no warning or error preceded. *)
Theorem page_refuses_model_without_encoders (w : world) (df : nat)
    (d : DataFrame) (vehicle_type : string) (ws : widgets) (model : Model)
    (le_dict : gmap string LabelEncoder) (train_score test_score : Q)
    (features : list string) :
  heap w !! df = Some d →
  (∀ f s, f ∈ schema vehicle_type → getitem d f = inr s → s_dtype s = numeric) →
  (train_price_prediction_model df vehicle_type w).1
    = inr (Some model, Some le_dict, Some train_score, Some test_score,
           Some features) →
  le_dict = ∅
  ∧ (render_price_prediction df vehicle_type ws w).1 = inr ()
  ∧ screen (render_price_prediction df vehicle_type ws w).2
    = screen w ++ [(st_error, FailedToInitialize)].
Proof.
  intros Hd Hnum Hmodel.
  assert (le_dict = ∅
          ∧ screen (train_price_prediction_model df vehicle_type w).2 = screen w)
    as [-> Hscreen].
  { destruct (train_run w df d vehicle_type Hd) as (Hres & -> & _).
    rewrite Hres in Hmodel. revert Hmodel. unfold train_outcome.
    destruct (negb (bool_decide (_ = []))); [done|].
    destruct (dropna_frame _ d) as [e|cl] eqn:Hcl; [done|].
    destruct (len cl <? 100)%nat; [done|].
    destruct (encode_frame cl (schema vehicle_type) ∅) as [[e|le] d'] eqn:Henc;
      [done|].
    assert (le = ∅) as ->.
    { eapply encode_frame_numeric; [|done]. intros f s Hf Hs.
      assert (columns cl = columns d) as Hcols.
      { by apply dropna_frame_inv in Hcl as [-> _]. }
      destruct (getitem_dtype cl d f s Hcols Hs) as (s2 & Hs2 & Ht).
      rewrite <- Ht. by eapply Hnum. }
    destruct (split_and_fit_outcome d' ∅ (schema vehicle_type))
      as [[e ->]|[[e ->]|(m & s1 & s2 & ->)]]; [done|done|].
    cbn [fst snd]. intros [= _ <- _ _ _]. by rewrite app_nil_r. }
  split; [done|]. unfold render_price_prediction. rewrite run_bind.
  destruct (train_price_prediction_model df vehicle_type w) as [r w'].
  cbn [fst snd] in *. subst r. rewrite map_size_empty.
  rewrite bool_decide_eq_true_2 by done. cbn [negb andb]. rewrite run_show.
  cbn [fst snd add_to_screen screen]. by rewrite Hscreen.
Qed.

Lemma select_frame_missing d cols :
  (∃ c, c ∈ cols ∧ (c ∉ column_names d)) →
  ∃ c, c ∈ cols ∧ (c ∉ column_names d) ∧ select_frame d cols = inl (KeyError c).
Proof.
  intros (c0 & Hc0 & Hno). unfold select_frame.
  destruct (list_find (λ c, negb (has_column d c)) cols) as [[i c]|] eqn:Hfind.
  - apply list_find_Some in Hfind as (Hi & Hc & _).
    exists c. split; [by eapply list_elem_of_lookup_2|]. split; [|done].
    intros Hin. apply has_column_true in Hin. by rewrite Hin in Hc.
  - exfalso. rewrite list_find_None, Forall_forall in Hfind.
    apply (Hfind c0 Hc0). unfold has_column.
    by rewrite bool_decide_eq_false_2.
Qed.

(** X10. The display columns are looked up only when some listing matches,
    and outside any [try]: on a table that lacks one of them ([ad_url], say)
    while some listing is comparable, the similar-listings block raises the
    [KeyError] of a missing display column and shows nothing, and the page
    block around it ends there, after the estimate and the range and before
    the feature importances. *)
Theorem similar_listings_need_display_columns (w : world) (df : nat)
    (d : DataFrame) (vehicle_type : string) (ws : widgets) (predicted_price : Q) :
  heap w !! df = Some d →
  (∀ c, c ∈ ["make"; "model"; "year"] → c ∈ column_names d) →
  numeric_column d "year" →
  (vehicle_type = "car" →
     "mileage_avg" ∈ column_names d ∧ numeric_column d "mileage_avg") →
  (∃ r, r ∈ rows d ∧ comparable vehicle_type ws r = true) →
  (∃ c, c ∈ display_cols vehicle_type ∧ (c ∉ column_names d)) →
  let inputs := collect_inputs vehicle_type (schema vehicle_type) ws in
  ∃ c, c ∈ display_cols vehicle_type ∧ (c ∉ column_names d)
    ∧ similar_listings df vehicle_type (schema vehicle_type) inputs w
      = (inl (KeyError c), w)
    ∧ report_prediction df vehicle_type (schema vehicle_type) inputs
        predicted_price w
      = (inl (KeyError c),
         add_to_screen w
           [(st_success, EstimatedPrice predicted_price);
            (st_info, SuggestedPriceRange (price_range predicted_price).1
                        (price_range predicted_price).2)]).
Proof.
  intros Hd Hbasic Hyear Hmil (r & Hr & Hcomp) Hmissing inputs.
  assert (∀ w0, heap w0 = heap w →
            similar_listings df vehicle_type (schema vehicle_type) inputs w0
            = (display_frame vehicle_type
                 (mkDataFrame (columns d)
                    (List.filter (comparable vehicle_type ws) (rows d)))
               ≫= λ display_df, show st_write (SimilarListings display_df)) w0)
    as Hrun.
  { intros w0 Hw0. unfold inputs.
    rewrite (similar_listings_run w0 df d) by (done || by rewrite Hw0).
    destruct (List.filter _ (rows d)) as [|r1 rs] eqn:Hfilter; [|done].
    assert (r ∈ List.filter (comparable vehicle_type ws) (rows d)) as Hin
      by (by apply elem_of_List_filter).
    rewrite Hfilter in Hin. by apply elem_of_nil in Hin. }
  destruct (select_frame_missing
              (mkDataFrame (columns d)
                 (List.filter (comparable vehicle_type ws) (rows d)))
              (display_cols vehicle_type) Hmissing)
    as (c & Hc & Hno & Hsel).
  exists c. split; [done|]. split; [done|]. split.
  - rewrite Hrun by done. unfold display_frame. rewrite !run_bind.
    by rewrite Hsel.
  - unfold report_prediction. cbn [price_range fst snd]. py_run.
    rewrite Hrun by done. unfold display_frame. rewrite !run_bind.
    rewrite Hsel. py_run. by rewrite add_to_screen_app.
Qed.

Lemma collect_inputs_complete vehicle_type ws f :
  f ∈ schema vehicle_type →
  is_Some (collect_inputs vehicle_type (schema vehicle_type) ws !! f).
Proof.
  unfold schema. destruct (decide (vehicle_type = "car")) as [->|Hne]; intros Hf.
  - change (if decide ("car" = "car") then car_features else motorcycle_features)
      with (schema "car").
    rewrite collect_inputs_car. unfold car_features in Hf.
    repeat (apply elem_of_cons in Hf as [->|Hf]; [by eexists|]).
    by apply elem_of_nil in Hf.
  - rewrite collect_inputs_other by done. unfold motorcycle_features in Hf.
    repeat (apply elem_of_cons in Hf as [->|Hf]; [by eexists|]).
    by apply elem_of_nil in Hf.
Qed.

Lemma encoded_value_None encoders inputs f v :
  inputs !! f = Some v → encoded_value encoders inputs f = None →
  unrecognized encoders inputs f v.
Proof.
  intros Hv. unfold encoded_value. rewrite Hv.
  destruct (encoders !! f) as [enc|] eqn:Henc; [|done].
  destruct (encode enc (py_str v)) as [e|i] eqn:Hi; [|done].
  intros _. exists enc. split; [done|]. split; [done|].
  intros Hseen. destruct (encode_seen enc _ Hseen) as (i & Hi' & _). congruence.
Qed.

(** X11. On the page the form supplies a value for every feature of the
    schema, for cars and for motorcycles alike, so a prediction never stops
    at a missing input.  It ends in one of two ways: at a value some encoder
    does not know, with the warning and no price; or with the forest asked
    about the row of all schema features, in schema order. *)
Theorem page_prediction_outcomes (prediction_model : Model)
    (encoders : gmap string LabelEncoder) (vehicle_type : string)
    (ws : widgets) (w : world) :
  let features := schema vehicle_type in
  let inputs := collect_inputs vehicle_type features ws in
  let input_data := encoded_row encoders inputs features in
  (∀ f, f ∈ features → is_Some (inputs !! f))
  ∧ ((∃ f v, f ∈ features ∧ unrecognized encoders inputs f v
        ∧ predict_price prediction_model encoders features inputs w
          = (inr None, add_to_screen w [(st_warning, UnknownCategory f v)]))
     ∨ (input_data.*1 = features
        ∧ predict_price prediction_model encoders features inputs w
          = match forest_predict prediction_model (frame_of_dict input_data) with
            | inr (predicted_price :: _) => (inr (Some predicted_price), w)
            | inr [] =>
                (inr None,
                 add_to_screen w [(st_error, ErrorInPrediction IndexError)])
            | inl e =>
                (inr None, add_to_screen w [(st_error, ErrorInPrediction e)])
            end)).
Proof.
  intros features inputs input_data.
  assert (∀ f, f ∈ features → is_Some (inputs !! f)) as Hcomplete.
  { intros f Hf. by apply collect_inputs_complete. }
  split; [done|].
  destruct (decide (Forall (λ f, is_Some (encoded_value encoders inputs f))
                      features)) as [Hall|Hsome].
  - right. rewrite Forall_forall in Hall.
    split; [by apply encoded_row_names|].
    unfold predict_price, try_except. rewrite run_bind.
    rewrite prepare_input_completes by (done || apply NoDup_schema).
    cbn [app]. fold input_data.
    destruct (forest_predict prediction_model (frame_of_dict input_data))
      as [e|[|p ps]]; py_run; done.
  - left. apply not_Forall_Exists in Hsome; [|apply _].
    apply Exists_exists in Hsome as (f & Hf & Hnone).
    destruct (Hcomplete f Hf) as [v Hv].
    destruct (prepare_input_unknown encoders inputs features [] w Hcomplete)
      as (f' & v' & Hf' & Hu & Hrun).
    { exists f, v. split; [done|]. apply encoded_value_None; [done|].
      destruct (encoded_value encoders inputs f) as [c|] eqn:Hc; [|done].
      exfalso. apply Hnone. cbn beta. rewrite Hc. by eexists. }
    exists f', v'. split; [done|]. split; [done|].
    unfold predict_price, try_except. rewrite run_bind, Hrun. by py_run.
Qed.

(** ** The loader: failures and the store *)

Lemma try_except_catch_all {A} (body : py A) handler w :
  try_except body is_Exception handler w
  = match body w with
    | (inr a, w') => (inr a, w')
    | (inl e, w') => handler e w'
    end.
Proof. unfold try_except. by destruct (body w) as [[e|a] w']. Qed.

Lemma silent_ret {A} (a : A) : silent (mret a).
Proof. by intros w. Qed.

Lemma silent_lift {A} (r : exn + A) : silent (lift r).
Proof. intros w. by destruct r. Qed.

Lemma silent_bind {A B} (m : py A) (f : A → py B) :
  silent m → (∀ a, silent (f a)) → silent (m ≫= f).
Proof.
  intros Hm Hf w. rewrite run_bind. specialize (Hm w).
  destruct (m w) as [[e|a] w']; [done|]. rewrite (Hf a w'). done.
Qed.

Lemma silent_deref l : silent (deref l).
Proof. intros w. unfold deref. by destruct (heap w !! l). Qed.

Lemma silent_new_frame d : silent (new_frame d).
Proof. by intros w. Qed.

Lemma silent_setitem l c s : silent (setitem l c s).
Proof.
  unfold setitem. apply silent_bind; [apply silent_deref|]. intros d.
  apply silent_bind; [apply silent_lift|]. intros d'. by intros w.
Qed.

(** Discharge [silent] goals on straight-line code. *)
Ltac silence :=
  repeat first
    [ apply silent_ret | apply silent_lift | apply silent_deref
    | apply silent_new_frame | apply silent_setitem
    | apply silent_bind; [|intros ?]
    | match goal with |- silent (if ?b then _ else _) => destruct b end ].

Lemma silent_process_vehicle_data this_year df :
  silent (process_vehicle_data this_year df).
Proof. unfold process_vehicle_data. silence. Qed.

(** X14. [load_car_data] never raises, whatever [pd.read_csv] produced.  It
    returns a table; either it has shown nothing, or it has shown exactly one
    error and the table it returns is the empty one; when it was
    [pd.read_csv] that raised, the error shown is its exception. *)
Theorem load_car_data_never_raises (read_csv : exn + DataFrame) (this_year : Z)
    (w : world) :
  ∃ l,
    (load_car_data read_csv this_year w).1 = inr l
    ∧ (screen (load_car_data read_csv this_year w).2 = screen w
       ∨ ∃ e,
           screen (load_car_data read_csv this_year w).2
             = screen w ++ [(st_error, FailedToLoadCarData e)]
           ∧ heap (load_car_data read_csv this_year w).2 !! l
             = Some (mkDataFrame [] [])
           ∧ ∀ e0, read_csv = inl e0 → e0 = e).
Proof.
  unfold load_car_data. rewrite try_except_catch_all.
  match goal with |- context [match ?b w with _ => _ end] => set (body := b) end.
  assert (silent body) as Hsilent.
  { unfold body. silence. }
  assert (∀ e, read_csv = inl e → body w = (inl e, w)) as Hcsv.
  { intros e ->. unfold body. by py_run. }
  specialize (Hsilent w). clearbody body.
  destruct (body w) as [[e|l] w'] eqn:Hbody; cbn [fst snd] in *.
  - py_run. eexists. split; [done|]. right. exists e.
    split; [cbn [screen put_frame add_to_screen]; by rewrite Hsilent|].
    split; [apply lookup_put_frame|].
    intros e0 He0. specialize (Hcsv e0 He0). congruence.
  - exists l. split; [done|]. by left.
Qed.

Lemma getitem_missing d c : c ∉ column_names d → getitem d c = inl (KeyError c).
Proof.
  intros Hc. unfold getitem. apply find_column_None in Hc. by rewrite Hc.
Qed.

Lemma fresh_after_put w l d msgs :
  fresh (dom (heap (add_to_screen (put_frame w l d) msgs))) ∉ dom (heap w).
Proof.
  intros Hin.
  apply (is_fresh (dom (heap (add_to_screen (put_frame w l d) msgs)))).
  revert Hin. generalize (fresh (dom (heap (add_to_screen (put_frame w l d) msgs)))).
  intros l' Hin. cbn [heap put_frame add_to_screen]. rewrite dom_insert.
  apply elem_of_union. by right.
Qed.

(** X15. What makes the loader fail.  When [pd.read_csv] raises, when the
    export has no [price] column, or when it has one but no [year] column,
    the loader shows the error (the exception of [read_csv], or the
    [KeyError] naming the missing column) and returns a new, empty table. *)
Theorem load_car_data_failures (this_year : Z) (w : world) :
  let failed_with e out :=
    screen out.2 = screen w ++ [(st_error, FailedToLoadCarData e)]
    ∧ ∃ l, out.1 = inr l ∧ (l ∉ dom (heap w))
        ∧ heap out.2 !! l = Some (mkDataFrame [] []) in
  (∀ e, failed_with e (load_car_data (inl e) this_year w))
  ∧ (∀ raw, "price" ∉ column_names raw →
       failed_with (KeyError "price") (load_car_data (inr raw) this_year w))
  ∧ (∀ raw, "price" ∈ column_names raw → "year" ∉ column_names raw →
       failed_with (KeyError "year") (load_car_data (inr raw) this_year w)).
Proof.
  cbn zeta. split; [|split].
  - intros e. unfold load_car_data, try_except. py_run. split; [done|].
    eexists. split; [done|]. split; [apply is_fresh|apply lookup_put_frame].
  - intros raw Hprice. unfold load_car_data, try_except. py_run.
    rewrite getitem_missing by done. py_run. split; [done|].
    eexists. split; [done|].
    split; [apply fresh_after_put|apply lookup_put_frame].
  - intros raw Hprice Hyear. unfold load_car_data, try_except. py_run.
    destruct (getitem_run raw "price" Hprice) as [tp ->]. py_run.
    erewrite run_setitem_derived;
      [| apply lookup_put_frame | unfold to_numeric; cbn [s_values]; apply map_map].
    rewrite put_frame_twice. py_run.
    rewrite getitem_missing.
    2:{ unfold column_names. cbn [columns s_dtype to_numeric].
        by rewrite set_dtype_names. }
    py_run. split; [done|].
    eexists. split; [done|].
    split; [apply fresh_after_put|apply lookup_put_frame].
Qed.

(** Step through straight-line code that writes only through [l]. *)
Ltac keep_going L l :=
  repeat first
    [ by apply keeps_ret
    | apply keeps_raise
    | apply keeps_deref
    | apply keeps_lift with (Q := λ _, True); done
    | by apply (keeps_setitem L l)
    | match goal with |- keeps _ (if ?b then _ else _) _ => destruct b end
    | eapply keeps_bind; [|intros ? _] ].

Lemma keeps_process_vehicle_data (L : gset nat) this_year df :
  df ∉ L → keeps L (process_vehicle_data this_year df) (λ _, True).
Proof.
  intros Hdf. unfold process_vehicle_data.
  eapply keeps_bind; [apply keeps_deref|]. intros d _.
  eapply keeps_bind; [apply keeps_lift with (Q := λ _, True); done|]. intros y _.
  eapply keeps_bind; [apply keeps_lift with (Q := λ _, True); done|]. intros a _.
  eapply keeps_bind; [by apply keeps_setitem|]. intros _ _.
  eapply keeps_bind; [apply keeps_deref|]. intros d1 _.
  destruct (has_column d1 "mileage_min" && has_column d1 "mileage_max");
    [|by apply keeps_ret].
  keep_going L df.
Qed.

Lemma keeps_load_car_data (L : gset nat) read_csv this_year :
  keeps L (load_car_data read_csv this_year) (λ l, l ∉ L).
Proof.
  unfold load_car_data. apply keeps_try_except.
  - eapply keeps_bind; [apply keeps_lift with (Q := λ _, True); done|].
    intros raw _.
    eapply keeps_bind; [apply keeps_new_frame|]. intros l1 Hl1. cbn beta.
    repeat (cbn zeta; eapply keeps_bind;
           [ first [ apply keeps_deref
                   | apply keeps_lift with (Q := λ _, True); done
                   | by apply keeps_setitem ] | intros ? _ ]).
    cbn zeta. eapply keeps_bind; [apply keeps_new_frame|]. intros l2 Hl2. cbn beta.
    repeat (cbn zeta; eapply keeps_bind;
          [ first [ apply keeps_deref
                  | apply keeps_lift with (Q := λ _, True); done
                  | by apply keeps_setitem ] | intros ? _ ]).
    eapply keeps_bind; [by apply keeps_process_vehicle_data|]. intros _ _.
    by apply keeps_ret.
  - intros e. eapply keeps_bind; [apply keeps_show|]. intros _ _.
    apply keeps_new_frame.
Qed.

(** X16. The table the loader returns is a new object: its reference was not
    in the store before the call, and every table that was there is still
    there, unchanged.  This holds on the failure path too. *)
Theorem load_car_data_allocates (read_csv : exn + DataFrame) (this_year : Z)
    (w : world) :
  ∃ l,
    (load_car_data read_csv this_year w).1 = inr l
    ∧ (l ∉ dom (heap w))
    ∧ heap w ⊆ heap (load_car_data read_csv this_year w).2.
Proof.
  destruct (keeps_load_car_data (dom (heap w)) read_csv this_year w)
    as [Hkeep Hnew]; [done|].
  assert (∃ l, (load_car_data read_csv this_year w).1 = inr l) as [l Hl].
  { unfold load_car_data. rewrite try_except_catch_all.
    match goal with |- context [match ?b w with _ => _ end] =>
      destruct (b w) as [[e|l] w'] end; [|by eexists].
    py_run. by eexists. }
  exists l. split; [done|]. split; [by apply Hnew|].
  apply map_subseteq_spec. intros l' d Hl'. rewrite Hkeep; [done|].
  apply elem_of_dom. by eexists.
Qed.

(** ** The loader on an export without odometer columns *)

Lemma set_dtype_elem c t (cs : list (string * dtype)) c' :
  c' ∈ (set_dtype c t cs).*1 ↔ c' = c ∨ c' ∈ cs.*1.
Proof.
  induction cs as [|[c0 t0] cs IH]; simpl.
  - rewrite elem_of_cons. split; intros [?|?]; auto.
  - destruct (decide (c0 = c)) as [->|Hne]; simpl.
    + rewrite !elem_of_cons. split; [intros [?|?]|intros [?|[?|?]]]; auto.
    + rewrite !elem_of_cons, IH. split; [intros [?|[?|?]]|intros [?|[?|?]]]; auto.
Qed.

(** The loader up to [process_vehicle_data], on an export with [price] and
    [year] columns: a new table holds the kept rows, their years whole
    numbers, under the columns of the export; what remains is
    [process_vehicle_data] on that table, inside the [try]. *)
Lemma load_car_data_upto_process raw this_year w :
  "price" ∈ column_names raw → "year" ∈ column_names raw →
  ∃ l d w1,
    heap w1 !! l = Some d ∧ screen w1 = screen w
    ∧ (∀ c, c ∈ column_names d ↔ c ∈ column_names raw)
    ∧ rows d = map (set_cell "year" (λ r, int_cell (cell r "year")))
                 (List.filter (keep_row this_year) (map prepare_row (rows raw)))
    ∧ (∀ r, r ∈ rows d → ∃ q, cell r "year" = Num q)
    ∧ load_car_data (inr raw) this_year w
      = match process_vehicle_data this_year l w1 with
        | (inr _, w2) => (inr l, w2)
        | (inl e, w2) =>
            (show st_error (FailedToLoadCarData e);;
             new_frame (mkDataFrame [] [])) w2
        end.
Proof.
  intros Hp Hy. unfold load_car_data. rewrite try_except_catch_all. py_run.
  set (l1 := fresh (dom (heap w))).
  destruct (getitem_run raw "price") as [tp ->]; [done|]. py_run.
  erewrite run_setitem_derived;
    [| apply lookup_put_frame | unfold to_numeric; cbn [s_values]; apply map_map].
  rewrite put_frame_twice. py_run.
  set (d1 := mkDataFrame _ (map (set_cell "price" _) _)).
  assert (∀ c, c ∈ column_names d1 ↔ c ∈ column_names raw) as Hd1.
  { intros c. unfold d1, column_names. cbn [columns]. rewrite set_dtype_elem.
    split; [intros [->|?]; done|by right]. }
  destruct (getitem_run d1 "year") as [ty ->]; [by apply Hd1|]. py_run.
  erewrite run_setitem_derived;
    [| apply lookup_put_frame | unfold to_numeric; cbn [s_values]; apply map_map].
  rewrite put_frame_twice. py_run.
  set (d2 := mkDataFrame _ (map (set_cell "year" _) _)).
  assert (∀ c, c ∈ column_names d2 ↔ c ∈ column_names raw) as Hd2.
  { intros c. unfold d2, column_names. cbn [columns]. rewrite set_dtype_elem.
    fold (column_names d1). rewrite Hd1. split; [intros [->|?]; done|by right]. }
  assert (rows d2 = map prepare_row (rows raw)) as Hrows2.
  { unfold d2, d1. cbn [rows]. by rewrite map_map. }
  destruct (getitem_run d2 "price") as [tp2 ->]; [by apply Hd2|].
  destruct (getitem_run d2 "year") as [ty2 ->]; [by apply Hd2|].
  assert (∀ r s, r ∈ rows d2 → cell r "price" ≠ Str s) as Hprice.
  { intros r s Hr. rewrite Hrows2 in Hr.
    apply list_elem_of_In, in_map_iff in Hr as (r0 & <- & _).
    apply prepare_row_price. }
  assert (∀ r s, r ∈ rows d2 → cell r "year" ≠ Str s) as Hyear.
  { intros r s Hr. rewrite Hrows2 in Hr.
    apply list_elem_of_In, in_map_iff in Hr as (r0 & <- & _).
    apply prepare_row_year. }
  repeat (py_run;
          first [ rewrite (compare_with_run _ _ (λ r, cell r "price")) by done
                | rewrite (compare_with_run _ _ (λ r, cell r "year")) by done ]).
  py_run. unfold not_isna, mask_and. cbn [s_values].
  rewrite !map_map, !zip_with_map_same. unfold where_frame.
  change (select_rows _ (rows d2))
    with (select_rows (map (keep_row this_year) (rows d2)) (rows d2)).
  rewrite select_rows_map.
  set (l2 := fresh (dom (heap (put_frame w l1 d2)))).
  set (d3 := mkDataFrame (columns d2) _).
  assert (∀ r, r ∈ rows d3 → ∃ q, cell r "year" = Num q) as Hyears.
  { intros r Hr. unfold d3 in Hr. cbn [rows] in Hr.
    apply elem_of_List_filter in Hr as [Hr Hkeep]. rewrite Hrows2 in Hr.
    apply list_elem_of_In, in_map_iff in Hr as (r0 & <- & _).
    by apply keep_row_year in Hkeep. }
  destruct (getitem_run d3 "year") as [ty3 ->]; [by apply Hd2|]. py_run.
  unfold astype_int. cbn [s_values].
  rewrite (map_or_raise_map_ok _ _ (λ r, int_cell (cell r "year"))).
  2:{ intros r Hr. destruct (Hyears r Hr) as [q ->]. done. }
  py_run.
  erewrite run_setitem_derived by (apply lookup_put_frame || reflexivity).
  rewrite put_frame_twice.
  set (d4 := mkDataFrame _ (map (set_cell "year" _) _)).
  exists l2, d4, (put_frame (put_frame w l1 d2) l2 d4).
  split; [apply lookup_put_frame|]. split; [done|]. split.
  { intros c. unfold d4, column_names. cbn [columns s_dtype]. rewrite set_dtype_elem.
    change ((columns d3).*1) with (column_names d2). rewrite Hd2.
    split; [intros [->|?]; done|by right]. }
  split.
  { unfold d4, d3. cbn [rows]. by rewrite Hrows2. }
  split.
  { intros r Hr. unfold d4 in Hr. cbn [rows] in Hr.
    apply list_elem_of_In, in_map_iff in Hr as (r3 & <- & Hr3).
    apply list_elem_of_In in Hr3. destruct (Hyears r3 Hr3) as [q Hq].
    rewrite cell_set_cell_eq, Hq. by eexists. }
  rewrite run_bind.
  destruct (process_vehicle_data this_year l2 _) as [[e|[]] w2]; py_run; done.
Qed.

(** [process_vehicle_data] on a table that lacks an odometer column: [age]
    is added and nothing else. *)
Lemma process_vehicle_data_run_plain w df d this_year :
  heap w !! df = Some d → "year" ∈ column_names d →
  (∀ r, r ∈ rows d → ∃ q, cell r "year" = Num q) →
  ¬ ("mileage_min" ∈ column_names d ∧ "mileage_max" ∈ column_names d) →
  process_vehicle_data this_year df w
  = (inr (), put_frame w df
               (mkDataFrame (set_dtype "age" numeric (columns d))
                  (map (set_cell "age" (λ r, age_cell this_year (cell r "year")))
                       (rows d)))).
Proof.
  intros Hd Hy Hyears Hodo. unfold process_vehicle_data. py_run.
  destruct (getitem_run d "year") as [ty ->]; [done|]. py_run.
  unfold rsub. cbn [s_values].
  rewrite (map_or_raise_map_ok _ _ (λ r, age_cell this_year (cell r "year"))).
  2:{ intros r Hr. destruct (Hyears r Hr) as [q ->]. done. }
  py_run. erewrite run_setitem_derived by (done || reflexivity). py_run.
  cbn [s_dtype].
  set (d1 := mkDataFrame _ (map (set_cell "age" _) _)).
  assert (has_column d1 "mileage_min" && has_column d1 "mileage_max" = false)
    as ->; [|by py_run].
  apply andb_false_iff. unfold has_column.
  destruct (decide ("mileage_min" ∈ column_names d)) as [Hmin|Hmin].
  - right. apply bool_decide_eq_false_2. intros Hin.
    unfold d1, column_names in Hin. cbn [columns] in Hin.
    apply set_dtype_elem in Hin as [?|Hin]; [done|]. by apply Hodo.
  - left. apply bool_decide_eq_false_2. intros Hin.
    unfold d1, column_names in Hin. cbn [columns] in Hin.
    apply set_dtype_elem in Hin as [?|Hin]; [done|]. by apply Hmin.
Qed.

(** The loader on any export with [price] and [year] columns: it returns a
    new table whose rows are the kept rows of the export, finished one by
    one, and shows nothing. *)
Lemma load_car_data_rows raw this_year w :
  "price" ∈ column_names raw → "year" ∈ column_names raw →
  ∃ ints l d w',
    load_car_data (inr raw) this_year w = (inr l, w')
    ∧ heap w' !! l = Some d ∧ screen w' = screen w
    ∧ rows d = map (loaded_row raw this_year ints)
                 (List.filter (keep_row this_year) (map prepare_row (rows raw))).
Proof.
  intros Hp Hy.
  destruct (load_car_data_upto_process raw this_year w Hp Hy)
    as (l & d & w1 & Hl & Hscreen & Hcols & Hrows & Hyears & ->).
  unfold loaded_row, has_column.
  destruct (decide ("mileage_min" ∈ column_names raw
                    ∧ "mileage_max" ∈ column_names raw)) as [[Hmin Hmax]|Hodo].
  - rewrite !bool_decide_eq_true_2 by done. cbn [andb].
    destruct (process_vehicle_data_run w1 l d this_year Hl) as (ints & cs & -> & _).
    { intros c Hc. apply Hcols.
      repeat (apply elem_of_cons in Hc as [->|Hc]; [done|]).
      by apply elem_of_nil in Hc. }
    { done. }
    exists ints. eexists _, _, _. split; [done|]. split; [apply lookup_put_frame|].
    split; [done|]. cbn [rows]. rewrite Hrows, map_map. done.
  - rewrite (process_vehicle_data_run_plain w1 l d) by (done || by rewrite !Hcols).
    assert (bool_decide ("mileage_min" ∈ column_names raw)
            && bool_decide ("mileage_max" ∈ column_names raw) = false) as ->.
    { apply andb_false_iff.
      destruct (decide ("mileage_min" ∈ column_names raw)) as [Hmin|Hmin].
      - right. apply bool_decide_eq_false_2. intros Hmax. by apply Hodo.
      - left. by apply bool_decide_eq_false_2. }
    exists false. eexists _, _, _. split; [done|]. split; [apply lookup_put_frame|].
    split; [done|]. cbn [rows]. rewrite Hrows, map_map. done.
Qed.

(** X17. An export that lacks an odometer column still loads: the loader
    adds [age] and nothing else, so the table it returns has exactly the
    columns of the export and [age], and no [mileage_avg] unless the export
    had one.  Training a car model on that table is then refused with the
    missing-features warning, [mileage_avg] among the features listed. *)
Theorem loader_without_odometer (raw : DataFrame) (this_year : Z) (w : world) :
  "price" ∈ column_names raw → "year" ∈ column_names raw →
  ¬ ("mileage_min" ∈ column_names raw ∧ "mileage_max" ∈ column_names raw) →
  ∃ l d,
    (load_car_data (inr raw) this_year w).1 = inr l
    ∧ heap (load_car_data (inr raw) this_year w).2 !! l = Some d
    ∧ screen (load_car_data (inr raw) this_year w).2 = screen w
    ∧ (∀ c, c ∈ column_names d ↔ c = "age" ∨ c ∈ column_names raw)
    ∧ ("mileage_avg" ∉ column_names raw →
       let out := train_price_prediction_model l "car"
                    (load_car_data (inr raw) this_year w).2 in
       out.1 = inr Nones
       ∧ ∃ missing, "mileage_avg" ∈ missing
           ∧ screen out.2 = screen w ++ [(st_warning, MissingFeatures "car" missing)]).
Proof.
  intros Hp Hy Hodo.
  destruct (load_car_data_upto_process raw this_year w Hp Hy)
    as (l & d & w1 & Hl & Hscreen & Hcols & _ & Hyears & ->).
  rewrite (process_vehicle_data_run_plain w1 l d) by (done || by rewrite !Hcols).
  set (d' := mkDataFrame _ _).
  assert (∀ c, c ∈ column_names d' ↔ c = "age" ∨ c ∈ column_names raw) as Hcols'.
  { intros c. unfold d', column_names. cbn [columns]. rewrite set_dtype_elem.
    fold (column_names d). by rewrite Hcols. }
  exists l, d'. cbn [fst snd]. split; [done|].
  split; [apply lookup_put_frame|]. split; [done|]. split; [done|].
  intros Hno. cbn zeta.
  destruct (train_run (put_frame w1 l d') l d' "car") as (-> & -> & _);
    [apply lookup_put_frame|].
  unfold train_outcome.
  assert ("mileage_avg" ∈ List.filter (λ f, negb (has_column d' f)) (schema "car"))
    as Hin.
  { apply elem_of_List_filter. split.
    - apply (bool_decide_unpack _). by vm_compute.
    - unfold has_column. rewrite bool_decide_eq_false_2; [done|].
      rewrite Hcols'. by intros [?|?]. }
  rewrite bool_decide_eq_false_2.
  2:{ intros Hnil. rewrite Hnil in Hin. by apply elem_of_nil in Hin. }
  cbn [negb fst snd]. split; [done|]. eexists. split; [exact Hin|].
  cbn [screen put_frame]. by rewrite Hscreen.
Qed.

(** ** The loader: what a loaded listing satisfies *)

Lemma truncate_bounds (a b : Z) (q : Q) :
  (0 ≤ a)%Z → (inject_Z a <= q)%Q → (q <= inject_Z b)%Q →
  ∃ y, truncate q = inject_Z y ∧ (a ≤ y ≤ b)%Z.
Proof.
  destruct q as [n dn]. unfold Qle, truncate. cbn [Qnum Qden inject_Z].
  intros Ha Hlo Hhi. exists (Z.quot n (Z.pos dn)). split; [done|].
  rewrite Z.quot_div_nonneg by lia. split.
  - apply Z.div_le_lower_bound; lia.
  - apply Z.div_le_upper_bound; lia.
Qed.

Lemma cmp_cell_Num op x v :
  cmp_cell op x v = true → ∃ q, v = Num q ∧ op q x = true.
Proof. destruct v as [|q|s]; try done. intros H. by exists q. Qed.

(** What the filter and the finishing steps leave in a row. *)
Lemma loaded_row_range raw this_year ints r0 :
  keep_row this_year (prepare_row r0) = true →
  ∃ p y,
    cell (loaded_row raw this_year ints (prepare_row r0)) "price" = Num p
    ∧ (0 < p)%Q ∧ (p < 1000000)%Q
    ∧ cell (loaded_row raw this_year ints (prepare_row r0)) "year" = Num (inject_Z y)
    ∧ (1900 ≤ y ≤ this_year)%Z
    ∧ cell (loaded_row raw this_year ints (prepare_row r0)) "age"
      = Num (inject_Z this_year - inject_Z y)%Q.
Proof.
  unfold keep_row. rewrite !andb_true_iff.
  intros [[[[Hpos Hcap] _] Hold] Hnew].
  apply cmp_cell_Num in Hpos as (p & Hp & Hpos).
  rewrite Hp in Hcap. cbn [cmp_cell] in Hcap.
  apply cmp_cell_Num in Hold as (q & Hq & Hold).
  rewrite Hq in Hnew. cbn [cmp_cell] in Hnew.
  apply Qle_bool_iff in Hold, Hnew.
  destruct (truncate_bounds 1900 this_year q) as (y & Hy & Hrange);
    [lia|done|done|].
  exists p, y. unfold loaded_row, finish_row, process_row.
  destruct (has_column raw "mileage_min" && has_column raw "mileage_max"); cells;
    rewrite Hp, Hq; cbn [int_cell age_cell]; rewrite Hy.
  all: unfold Qlt_bool in Hpos, Hcap; apply negb_true_iff in Hpos, Hcap.
  all: split; [done|]; split;
    [apply Qnot_le_lt; intros Hle; apply Qle_bool_iff in Hle; congruence|];
    split;
    [apply Qnot_le_lt; intros Hle; apply Qle_bool_iff in Hle; congruence|];
    done.
Qed.

(** X12. From an export with [price] and [year] columns the loader returns
    a table and shows nothing, and every listing of that table has a price
    that is a number strictly between 0 and 1000000, a year that is a whole
    number from 1900 to the current year, and an age that is the current
    year minus that year, hence not negative. *)
Theorem loader_listings_in_range (raw : DataFrame) (this_year : Z) (w : world) :
  "price" ∈ column_names raw → "year" ∈ column_names raw →
  ∃ l d,
    (load_car_data (inr raw) this_year w).1 = inr l
    ∧ heap (load_car_data (inr raw) this_year w).2 !! l = Some d
    ∧ screen (load_car_data (inr raw) this_year w).2 = screen w
    ∧ ∀ r, r ∈ rows d →
        ∃ p y,
          cell r "price" = Num p ∧ (0 < p)%Q ∧ (p < 1000000)%Q
          ∧ cell r "year" = Num (inject_Z y) ∧ (1900 ≤ y ≤ this_year)%Z
          ∧ cell r "age" = Num (inject_Z (this_year - y))
          ∧ (0 ≤ this_year - y)%Z.
Proof.
  intros Hprice Hyear.
  destruct (load_car_data_rows raw this_year w Hprice Hyear)
    as (ints & l & d & w' & Hrun & Hl & Hscreen & Hrows).
  exists l, d. rewrite Hrun. split; [done|]. split; [done|]. split; [done|].
  intros r Hr. rewrite Hrows in Hr.
  apply list_elem_of_In, in_map_iff in Hr as (r1 & <- & Hr1).
  apply filter_In in Hr1 as [Hr1 Hkeep].
  apply in_map_iff in Hr1 as (r0 & <- & _).
  destruct (loaded_row_range raw this_year ints r0 Hkeep)
    as (p & y & Hp & Hpos & Hcap & Hy & Hrange & Hage).
  exists p, y. split; [done|]. split; [done|]. split; [done|].
  split; [done|]. split; [done|]. split; [|lia].
  rewrite Hage. f_equal. unfold Qminus, Qplus, Qopp, inject_Z. cbn [Qnum Qden].
  f_equal. lia.
Qed.

Lemma filter_sublist {A} (P : A → bool) (l : list A) : sublist (List.filter P l) l.
Proof.
  induction l as [|x l IH]; simpl; [done|].
  destruct (P x); by constructor.
Qed.

(** X13. The loader only filters and annotates.  From an export with
    [price] and [year] columns, the rows of the table it returns come from
    rows of the export, in the order of the export and each at most once;
    and in every column other than [price], [year], [age] and the three
    odometer columns, a returned row holds exactly what its row of the
    export held. *)
Theorem loader_keeps_order_and_other_columns (raw : DataFrame) (this_year : Z)
    (w : world) :
  "price" ∈ column_names raw → "year" ∈ column_names raw →
  ∃ l d kept,
    (load_car_data (inr raw) this_year w).1 = inr l
    ∧ heap (load_car_data (inr raw) this_year w).2 !! l = Some d
    ∧ sublist kept (rows raw)
    ∧ Forall2 (λ r r0, ∀ c, c ∉ loader_columns → r !! c = r0 !! c) (rows d) kept.
Proof.
  intros Hprice Hyear.
  destruct (load_car_data_rows raw this_year w Hprice Hyear)
    as (ints & l & d & w' & Hrun & Hl & _ & Hrows).
  exists l, d,
    (List.filter (λ r0, keep_row this_year (prepare_row r0)) (rows raw)).
  rewrite Hrun. split; [done|]. split; [done|]. split; [apply filter_sublist|].
  rewrite Hrows. clear.
  induction (rows raw) as [|r0 rs IH]; simpl; [constructor|].
  destruct (keep_row this_year (prepare_row r0)); simpl; [|done].
  constructor; [|done].
  intros c Hc. unfold loader_columns in Hc.
  unfold loaded_row, finish_row, process_row, prepare_row, set_cell.
  destruct (has_column raw "mileage_min" && has_column raw "mileage_max").
  all: rewrite !lookup_insert_ne; [done|..];
    intros <-; apply Hc; repeat first [by left | right].
Qed.

(** ** The Market Overview page and the table it is given *)

Lemma overview_row_cells r :
  cell (overview_row r) "price_segment" = segment_cell (cell r "price")
  ∧ cell (overview_row r) "fuel_type" = lower_cell (cell r "fuel_type")
  ∧ ∀ c, c ≠ "price_segment" → c ≠ "fuel_type" → overview_row r !! c = r !! c.
Proof.
  unfold overview_row. split; [by cells|]. split; [by cells|].
  intros c H1 H2. unfold set_cell. by rewrite !lookup_insert_ne.
Qed.

(** A column in which some listing holds a value has something to count. *)
Lemma counted_has_value d c s :
  getitem d c = inr s → has_value d c → ∃ v vs, counted s = v :: vs.
Proof.
  intros Hs (r & Hr & Hv). unfold counted.
  assert (cell r c ∈ List.filter notna (s_values s)) as Hin.
  { apply elem_of_List_filter. split; [|done].
    rewrite (getitem_values _ _ _ Hs).
    apply list_elem_of_In, (in_map (λ r, cell r c)), list_elem_of_In, Hr. }
  destruct (List.filter notna (s_values s)) as [|v vs]; [|by eexists _, _].
  by apply elem_of_nil in Hin.
Qed.

(** Drawing a chart of a column in which some listing holds a value. *)
Lemma chart_run (px : list scalar → exn + unit) d c s w :
  getitem d c = inr s → has_value d c → (∀ v vs, px (v :: vs) = inr ()) →
  lift (px (counted s)) w = (inr (), w).
Proof.
  intros Hs Hv Hpx. destruct (counted_has_value d c s Hs Hv) as (v & vs & ->).
  by rewrite Hpx.
Qed.

Lemma has_value_set_cell_ne d c c' f cs :
  c ≠ c' → has_value d c' →
  has_value (mkDataFrame cs (map (set_cell c f) (rows d))) c'.
Proof.
  intros Hne (r & Hr & Hv). exists (set_cell c f r). split.
  - cbn [rows]. apply list_elem_of_In, in_map, list_elem_of_In, Hr.
  - by rewrite cell_set_cell_ne.
Qed.

(** [render_car_features] on a table with transmissions to count and a
    [fuel_type] column of strings with a string in it: the [fuel_type] cells
    of that very table are replaced by their lower-case form. *)
Lemma render_car_features_run w df d s :
  plotly_draws →
  heap w !! df = Some d → "transmission" ∈ column_names d →
  has_value d "transmission" →
  getitem d "fuel_type" = inr s → s_dtype s = object →
  (∃ r x, r ∈ rows d ∧ cell r "fuel_type" = Str x) →
  render_car_features df w
  = (inr (), put_frame w df
               (mkDataFrame (set_dtype "fuel_type" object (columns d))
                  (map (set_cell "fuel_type" (λ r, lower_cell (cell r "fuel_type")))
                       (rows d)))).
Proof.
  intros Hpx Hd Htr Htrv Hs Hobj (r & x & Hr & Hx). unfold render_car_features.
  py_run. destruct (getitem_ok d "transmission" Htr) as [tr Htrs].
  rewrite Htrs. py_run.
  rewrite (chart_run px_pie d "transmission" tr w Htrs Htrv)
    by (intros; apply Hpx).
  py_run.
  rewrite (lower_fuel_type_run w df d s Hd Hs)
    by (by eapply has_str_accessor_strings).
  py_run.
  set (d2 := mkDataFrame _ _).
  destruct (getitem_ok d2 "fuel_type") as [fl Hfl].
  { unfold d2, column_names. cbn [columns]. apply set_dtype_has. }
  rewrite Hfl. py_run.
  rewrite (chart_run px_pie d2 "fuel_type" fl _ Hfl); [done| |intros; apply Hpx].
  exists (set_cell "fuel_type" (λ r, lower_cell (cell r "fuel_type")) r). split.
  - unfold d2. cbn [rows]. apply list_elem_of_In, in_map, list_elem_of_In, Hr.
  - by rewrite cell_set_cell_eq, Hx.
Qed.

(** The start of the page: [price_segment] is written into the table. *)
Lemma render_market_overview_segment w df d vehicle_type
    (segment : scalar → exn + scalar) (seg : scalar → scalar) :
  heap w !! df = Some d → "price" ∈ column_names d →
  (∀ r, r ∈ rows d → segment (cell r "price") = inr (seg (cell r "price"))) →
  segment = (if decide (vehicle_type = "car") then create_price_segment
             else create_motorcycle_price_segment) →
  render_market_overview df vehicle_type w
  = (render_popular_makes df;;
     render_price_segments df;;
     if decide (vehicle_type = "car") then render_car_features df
     else render_motorcycle_features df)
      (put_frame w df
         (mkDataFrame (set_dtype "price_segment" object (columns d))
            (map (set_cell "price_segment" (λ r, seg (cell r "price"))) (rows d)))).
Proof.
  intros Hd Hcol Hseg ->. unfold render_market_overview. py_run.
  destruct (getitem_run d "price") as [tp ->]; [done|]. py_run.
  unfold series_apply. cbn [s_values].
  rewrite (map_or_raise_map_ok _ _ (λ r, seg (cell r "price"))) by done.
  py_run. erewrite run_setitem_derived by (done || reflexivity). done.
Qed.

(** Then the makes and the segments are drawn. *)
Lemma render_market_overview_upto w df d vehicle_type
    (segment : scalar → exn + scalar) (seg : scalar → scalar) :
  plotly_draws →
  heap w !! df = Some d →
  (∀ c, c ∈ ["price"; "make"] → c ∈ column_names d) →
  (∀ r, r ∈ rows d → segment (cell r "price") = inr (seg (cell r "price"))
                     ∧ notna (seg (cell r "price")) = true) →
  segment = (if decide (vehicle_type = "car") then create_price_segment
             else create_motorcycle_price_segment) →
  has_value d "make" →
  render_market_overview df vehicle_type w
  = (if decide (vehicle_type = "car") then render_car_features df
     else render_motorcycle_features df)
      (put_frame w df
         (mkDataFrame (set_dtype "price_segment" object (columns d))
            (map (set_cell "price_segment" (λ r, seg (cell r "price"))) (rows d)))).
Proof.
  intros Hpx Hd Hcols Hseg Hsegment Hmake.
  rewrite (render_market_overview_segment w df d vehicle_type segment seg);
    [|done|apply Hcols; by left|intros r Hr; by apply Hseg|done].
  set (d1 := mkDataFrame _ (map (set_cell "price_segment" _) (rows d))).
  assert (∀ c, c ∈ column_names d → c ∈ column_names d1) as Hd1.
  { intros c Hc. unfold d1, column_names. cbn [columns]. by apply set_dtype_keeps. }
  unfold render_popular_makes. py_run.
  destruct (getitem_ok d1 "make") as [mk Hmk];
    [apply Hd1, Hcols; right; by left|].
  rewrite Hmk. py_run.
  rewrite (chart_run px_bar d1 "make" mk _ Hmk);
    [|by apply has_value_set_cell_ne|intros; apply Hpx].
  py_run. unfold render_price_segments. py_run.
  destruct (getitem_ok d1 "price_segment") as [sg Hsg].
  { unfold d1, column_names. cbn [columns]. apply set_dtype_has. }
  rewrite Hsg. py_run.
  rewrite (chart_run px_pie d1 "price_segment" sg _ Hsg);
    [done| |intros; apply Hpx].
  destruct Hmake as (r & Hr & _).
  exists (set_cell "price_segment" (λ r, seg (cell r "price")) r). split.
  - unfold d1. cbn [rows]. apply list_elem_of_In, in_map, list_elem_of_In, Hr.
  - rewrite cell_set_cell_eq. by apply Hseg.
Qed.

Lemma segment_cell_run d r :
  numeric_column d "price" → r ∈ rows d →
  create_price_segment (cell r "price") = inr (segment_cell (cell r "price"))
  ∧ notna (segment_cell (cell r "price")) = true.
Proof.
  intros Hprice Hr. unfold segment_cell.
  destruct (cell r "price") as [|q|x] eqn:Hcell; try done.
  by destruct (Hprice r x Hr).
Qed.

(** The page on a car table, with the columns of the table it leaves. *)
Lemma render_market_overview_car_table w df d s :
  plotly_draws →
  heap w !! df = Some d →
  (∀ c, c ∈ ["price"; "make"; "transmission"] → c ∈ column_names d) →
  numeric_column d "price" →
  getitem d "fuel_type" = inr s → s_dtype s = object →
  has_value d "make" → has_value d "transmission" →
  (∃ r x, r ∈ rows d ∧ cell r "fuel_type" = Str x) →
  render_market_overview df "car" w
  = (inr (),
     put_frame w df
       (mkDataFrame
          (set_dtype "fuel_type" object
             (set_dtype "price_segment" object (columns d)))
          (map overview_row (rows d)))).
Proof.
  intros Hpx Hd Hcols Hprice Hs Hobj Hmake Htrans (r & x & Hr & Hx).
  rewrite (render_market_overview_upto w df d "car" create_price_segment segment_cell);
    [|done|done| |intros r' Hr'; by apply (segment_cell_run d)|done|done].
  2:{ intros c Hc. apply Hcols.
      apply elem_of_cons in Hc as [->|Hc]; [by left|].
      apply elem_of_cons in Hc as [->|Hc]; [right; by left|].
      by apply elem_of_nil in Hc. }
  rewrite decide_True by done.
  pose proof (setitem_frame_derived d "price_segment"
                (mkSeries object
                   (map (λ r, segment_cell (cell r "price")) (rows d)))
                (λ r, segment_cell (cell r "price")) eq_refl) as Hset.
  cbn [s_dtype] in Hset.
  set (d1 := mkDataFrame _ (map (set_cell "price_segment" _) (rows d))) in *.
  rewrite (render_car_features_run _ df d1 s).
  - rewrite put_frame_twice. f_equal. f_equal. unfold d1. cbn [rows columns].
    f_equal. by rewrite map_map.
  - done.
  - apply lookup_put_frame.
  - unfold d1, column_names. cbn [columns]. apply set_dtype_keeps, Hcols.
    do 2 right. by left.
  - by apply has_value_set_cell_ne.
  - rewrite <- Hs. by apply (getitem_setitem_ne _ _ _ _ _ Hset).
  - done.
  - exists (set_cell "price_segment" (λ r, segment_cell (cell r "price")) r), x.
    split.
    + unfold d1. cbn [rows]. apply list_elem_of_In, in_map, list_elem_of_In, Hr.
    + by rewrite cell_set_cell_ne.
Qed.

(** X18. The Market Overview page writes into the table it is given.  For
    cars, on a table with the columns the page reads, in which some listing
    has a make, some a transmission and some a fuel type (a string), it
    returns normally and leaves behind [df] a table with the same rows in the
    same order, in which [price_segment] holds the segment of the row's
    price, [fuel_type] the lower-case form of the string it held (a gap where
    it held none), and every other cell what it held; a listing without a
    price is put in the luxury segment.  No other table of the store
    changes. *)
Theorem market_overview_writes_two_columns (w : world) (df : nat)
    (d : DataFrame) (s : Series) :
  plotly_draws →
  heap w !! df = Some d →
  (∀ c, c ∈ ["price"; "make"; "transmission"] → c ∈ column_names d) →
  numeric_column d "price" →
  getitem d "fuel_type" = inr s → s_dtype s = object →
  has_value d "make" → has_value d "transmission" →
  (∃ r x, r ∈ rows d ∧ cell r "fuel_type" = Str x) →
  ∃ d2,
    render_market_overview df "car" w = (inr (), put_frame w df d2)
    ∧ (∀ c, c ∈ column_names d2 ↔ c = "price_segment" ∨ c ∈ column_names d)
    ∧ Forall2
        (λ r2 r,
           cell r2 "price_segment" = segment_cell (cell r "price")
           ∧ match cell r "fuel_type" with
             | Str x => cell r2 "fuel_type" = Str (str_lower x)
             | _ => cell r2 "fuel_type" = NaN
             end
           ∧ ∀ c, c ≠ "price_segment" → c ≠ "fuel_type" → r2 !! c = r !! c)
        (rows d2) (rows d)
    ∧ segment_cell NaN = Str "Luxury (> RM200k)"
    ∧ ∀ l, l ≠ df → heap (put_frame w df d2) !! l = heap w !! l.
Proof.
  intros Hpx Hd Hcols Hprice Hs Hobj Hmake Htrans Hfuel.
  eexists. split; [by eapply render_market_overview_car_table|]. split.
  { intros c. unfold column_names. cbn [columns]. rewrite !set_dtype_elem.
    split; [intros [->|[->|?]]|intros [->|?]]; auto.
    right. by eapply getitem_column. }
  split.
  { cbn [rows]. clear. induction (rows d) as [|r rs IH]; simpl; constructor; [|done].
    destruct (overview_row_cells r) as (Hseg & Hlow & Hrest).
    split; [done|]. split; [|done]. rewrite Hlow.
    by destruct (cell r "fuel_type"). }
  split; [done|].
  intros l Hl. cbn [heap put_frame]. by apply lookup_insert_ne.
Qed.

(** Where [str.lower] is the lower-casing of ASCII strings, an ASCII string
    that has been lower-cased is left as it is. *)
Lemma str_lower_twice x :
  (∀ x, is_ascii x = true → str_lower x = ascii_lower x) →
  is_ascii x = true → str_lower (str_lower x) = str_lower x.
Proof.
  intros Hlow Hx. rewrite (Hlow x Hx).
  rewrite Hlow by by apply ascii_lower_is_ascii. apply ascii_lower_idem.
Qed.

Lemma overview_row_fuel r :
  overview_row r !! "fuel_type" = Some (lower_cell (cell r "fuel_type")).
Proof.
  unfold overview_row, set_cell. rewrite lookup_insert_eq.
  f_equal. f_equal. unfold cell. by rewrite lookup_insert_ne.
Qed.

Lemma overview_row_segment r :
  overview_row r !! "price_segment" = Some (segment_cell (cell r "price")).
Proof.
  unfold overview_row, set_cell. rewrite lookup_insert_ne by done.
  by rewrite lookup_insert_eq.
Qed.

Lemma overview_row_idem r :
  lower_cell (lower_cell (cell r "fuel_type")) = lower_cell (cell r "fuel_type") →
  overview_row (overview_row r) = overview_row r.
Proof.
  intros Hidem. apply map_eq. intros c.
  destruct (overview_row_cells (overview_row r)) as (_ & _ & Hrest).
  destruct (overview_row_cells r) as (_ & Hfuel0 & Hrest0).
  destruct (decide (c = "fuel_type")) as [->|Hf].
  { rewrite !overview_row_fuel, Hfuel0. by rewrite Hidem. }
  destruct (decide (c = "price_segment")) as [->|Hs].
  { rewrite !overview_row_segment. f_equal. f_equal.
    unfold cell. by rewrite Hrest0. }
  by rewrite Hrest.
Qed.

Lemma set_dtype_same c t (cs : list (string * dtype)) :
  snd <$> list_find (λ cd, cd.1 = c) cs = Some (c, t) → set_dtype c t cs = cs.
Proof.
  induction cs as [|[c' t'] cs IH]; simpl; [done|].
  destruct (decide (c' = c)) as [->|Hne]; simpl.
  - by intros [= ->].
  - destruct (list_find _ cs) as [[i x]|]; simpl in *; [|done].
    intros Hx. by rewrite IH.
Qed.

(** X19. The Market Overview page can be run again on the table it has
    written.  On a car table with the columns the page reads, with a make, a
    transmission and a fuel type to count, and fuel types written in ASCII
    (on which [str.lower] is the lower-casing of the letters A to Z), the
    page returns normally, and a second run on the store it leaves returns
    normally too and leaves that store exactly as it is. *)
Theorem market_overview_idempotent (w : world) (df : nat) (d : DataFrame)
    (s : Series) :
  plotly_draws →
  (∀ x, is_ascii x = true → str_lower x = ascii_lower x) →
  heap w !! df = Some d →
  (∀ c, c ∈ ["price"; "make"; "transmission"] → c ∈ column_names d) →
  numeric_column d "price" →
  getitem d "fuel_type" = inr s → s_dtype s = object →
  has_value d "make" → has_value d "transmission" →
  (∃ r x, r ∈ rows d ∧ cell r "fuel_type" = Str x) →
  (∀ r x, r ∈ rows d → cell r "fuel_type" = Str x → is_ascii x = true) →
  ∃ w1,
    render_market_overview df "car" w = (inr (), w1)
    ∧ render_market_overview df "car" w1 = (inr (), w1).
Proof.
  intros Hpx Hlow Hd Hcols Hprice Hs Hobj Hmake Htrans Hfuel Hascii.
  rewrite (render_market_overview_car_table w df d s) by done.
  eexists. split; [done|].
  set (cs2 := set_dtype "fuel_type" object _).
  set (d2 := mkDataFrame cs2 _).
  assert (snd <$> list_find (λ cd, cd.1 = "fuel_type") cs2
          = Some ("fuel_type", object)) as Hfuel2.
  { apply find_column_set_dtype_eq. }
  assert (snd <$> list_find (λ cd, cd.1 = "price_segment") cs2
          = Some ("price_segment", object)) as Hseg.
  { unfold cs2. rewrite find_column_set_dtype_ne by done.
    apply find_column_set_dtype_eq. }
  assert (∃ s2, getitem d2 "fuel_type" = inr s2 ∧ s_dtype s2 = object)
    as (s2 & Hs2 & Hobj2).
  { unfold getitem. cbn [columns d2].
    destruct (list_find _ cs2) as [[i [c t]]|]; [|done].
    injection Hfuel2 as -> ->. by eexists. }
  assert (∀ c r, c ≠ "price_segment" → c ≠ "fuel_type" →
            cell (overview_row r) c = cell r c) as Hsame.
  { intros c r H1 H2. destruct (overview_row_cells r) as (_ & _ & Hrest).
    unfold cell. by rewrite Hrest. }
  rewrite (render_market_overview_car_table _ df d2 s2).
  - rewrite put_frame_twice. f_equal. f_equal. unfold d2. cbn [columns rows].
    rewrite (set_dtype_same "price_segment") by done.
    rewrite (set_dtype_same "fuel_type") by done.
    f_equal. rewrite map_map. apply map_ext_in. intros r Hr.
    apply overview_row_idem. destruct (cell r "fuel_type") as [|q|x] eqn:Hx; try done.
    cbn [lower_cell]. f_equal. apply str_lower_twice; [done|].
    eapply Hascii; [|done]. by apply list_elem_of_In.
  - done.
  - apply lookup_put_frame.
  - intros c Hc. unfold d2, cs2, column_names. cbn [columns].
    do 2 apply set_dtype_keeps. by apply Hcols.
  - intros r x Hr. unfold d2 in Hr. cbn [rows] in Hr.
    apply list_elem_of_In, in_map_iff in Hr as (r0 & <- & Hr0).
    unfold overview_row. cells. apply Hprice. by apply list_elem_of_In.
  - done.
  - done.
  - destruct Hmake as (r & Hr & Hv). exists (overview_row r). split.
    + unfold d2. cbn [rows]. apply list_elem_of_In, in_map, list_elem_of_In, Hr.
    + by rewrite Hsame.
  - destruct Htrans as (r & Hr & Hv). exists (overview_row r). split.
    + unfold d2. cbn [rows]. apply list_elem_of_In, in_map, list_elem_of_In, Hr.
    + by rewrite Hsame.
  - destruct Hfuel as (r & x & Hr & Hx). exists (overview_row r), (str_lower x).
    split.
    + unfold d2. cbn [rows]. apply list_elem_of_In, in_map, list_elem_of_In, Hr.
    + destruct (overview_row_cells r) as (_ & -> & _). by rewrite Hx.
Qed.

(** X20. How the Market Overview page fails.  Without a [price] column it
    raises the [KeyError] at once and the store is as before.  On a car
    table with a make and a transmission to count whose [fuel_type] column
    is a column of numbers it raises an [AttributeError], and only after it
    has written [price_segment] into the caller's table: the failed call
    leaves that column behind. *)
Theorem market_overview_failures (w : world) (df : nat) (d : DataFrame)
    (vehicle_type : string) :
  heap w !! df = Some d →
  ("price" ∉ column_names d →
     render_market_overview df vehicle_type w = (inl (KeyError "price"), w))
  ∧ (∀ s,
       plotly_draws →
       (∀ c, c ∈ ["price"; "make"; "transmission"] → c ∈ column_names d) →
       numeric_column d "price" →
       has_value d "make" → has_value d "transmission" →
       getitem d "fuel_type" = inr s → s_dtype s = numeric →
       ∃ d1,
         render_market_overview df "car" w
           = (inl AttributeError, put_frame w df d1)
         ∧ "price_segment" ∈ column_names d1
         ∧ rows d1
           = map (set_cell "price_segment" (λ r, segment_cell (cell r "price")))
                 (rows d)).
Proof.
  intros Hd. split.
  - intros Hprice. unfold render_market_overview. py_run.
    rewrite getitem_missing by done. by py_run.
  - intros s Hpx Hcols Hprice Hmake Htrans Hs Hnum.
    rewrite (render_market_overview_upto w df d "car" create_price_segment
               segment_cell);
      [|done|done| |intros r' Hr'; by apply (segment_cell_run d)|done|done].
    2:{ intros c Hc. apply Hcols.
        apply elem_of_cons in Hc as [->|Hc]; [by left|].
        apply elem_of_cons in Hc as [->|Hc]; [right; by left|].
        by apply elem_of_nil in Hc. }
    rewrite decide_True by done.
    pose proof (setitem_frame_derived d "price_segment"
                  (mkSeries object
                     (map (λ r, segment_cell (cell r "price")) (rows d)))
                  (λ r, segment_cell (cell r "price")) eq_refl) as Hset.
    cbn [s_dtype] in Hset.
    set (d1 := mkDataFrame _ (map (set_cell "price_segment" _) (rows d))) in *.
    assert (∀ c, c ∈ column_names d → c ∈ column_names d1) as Hd1.
    { intros c Hc. unfold d1, column_names. cbn [columns].
      by apply set_dtype_keeps. }
    unfold render_car_features. py_run.
    destruct (getitem_ok d1 "transmission") as [tr Htr];
      [apply Hd1, Hcols; do 2 right; by left|].
    rewrite Htr. py_run.
    rewrite (chart_run px_pie d1 "transmission" tr _ Htr);
      [|by apply has_value_set_cell_ne|intros; apply Hpx].
    py_run. unfold lower_fuel_type. py_run.
    assert (getitem d1 "fuel_type" = inr s) as ->.
    { rewrite <- Hs. by apply (getitem_setitem_ne _ _ _ _ _ Hset). }
    py_run. unfold series_str_lower, has_str_accessor. rewrite Hnum. py_run.
    exists d1. split; [done|]. split; [|done].
    unfold d1, column_names. cbn [columns]. apply set_dtype_has.
Qed.

(** What lies behind a training that returned a model. *)
Lemma train_success_inv w df d vehicle_type m le_dict s1 s2 features :
  heap w !! df = Some d →
  (train_price_prediction_model df vehicle_type w).1
    = inr (Some m, Some le_dict, Some s1, Some s2, Some features) →
  ∃ cl d',
    dropna_frame (schema vehicle_type ++ ["price"]) d = inr cl
    ∧ encode_frame cl (schema vehicle_type) ∅ = (inr le_dict, d')
    ∧ features = schema vehicle_type.
Proof.
  intros Hd Htrain.
  destruct (train_run w df d vehicle_type Hd) as (Hval & _ & _).
  rewrite Hval in Htrain. injection Htrain as Htrain. revert Htrain.
  unfold train_outcome.
  destruct (negb (bool_decide _)); [done|].
  destruct (dropna_frame _ d) as [e|cl] eqn:Hclean; [done|].
  destruct (len cl <? 100)%nat; [done|].
  destruct (encode_frame cl (schema vehicle_type) ∅) as [[e|le] d'] eqn:Hrun; [done|].
  destruct (split_and_fit_outcome d' le (schema vehicle_type))
    as [[e ->]|[[e ->]|(m' & s1' & s2' & ->)]]; [done|done|].
  cbn [fst]. intros [= _ <- _ _ <-]. by exists cl, d'.
Qed.

(** X21. The pages share one table, so what the Market Overview page wrote
    is what the Price Prediction page trains on.  After the overview has run
    on a car table, a training on that table that returns a model has an
    encoder for [fuel_type], and each of its classes is the lower-case form
    of a fuel type of the table, which has no capital letter from A to Z
    wherever [str.lower] is the lower-casing of those letters: the fuel
    types as exported, capitals included, are no longer known to the
    model. *)
Theorem overview_then_train_lower_case (w : world) (df : nat) (d : DataFrame)
    (s : Series) (m : Model) (le_dict : gmap string LabelEncoder) (s1 s2 : Q)
    (features : list string) :
  plotly_draws →
  heap w !! df = Some d →
  (∀ c, c ∈ ["price"; "make"; "transmission"] → c ∈ column_names d) →
  numeric_column d "price" →
  getitem d "fuel_type" = inr s → s_dtype s = object →
  has_value d "make" → has_value d "transmission" →
  (∃ r x, r ∈ rows d ∧ cell r "fuel_type" = Str x) →
  (train_price_prediction_model df "car"
     (render_market_overview df "car" w).2).1
    = inr (Some m, Some le_dict, Some s1, Some s2, Some features) →
  ∃ enc, le_dict !! "fuel_type" = Some enc
    ∧ ∀ c, c ∈ classes_ enc →
        ∃ r x, r ∈ rows d ∧ cell r "fuel_type" = Str x ∧ c = str_lower x
          ∧ (str_lower x = ascii_lower x → ascii_lower c = c).
Proof.
  intros Hpx Hd Hcols Hprice Hs Hobj Hmake Htrans Hfuel.
  rewrite (render_market_overview_car_table w df d s) by done. cbn [snd].
  set (cs2 := set_dtype "fuel_type" object _).
  set (d2 := mkDataFrame cs2 _). intros Htrain.
  destruct (train_success_inv (put_frame w df d2) df d2 "car" m le_dict s1 s2
              features) as (cl & d' & Hcl & Henc & _);
    [apply lookup_put_frame|done|].
  apply dropna_frame_inv in Hcl as [Hcl Hcols2].
  destruct (encode_frame_spec (schema "car") cl ∅)
    as (le' & d'' & Hrun' & _ & _ & _ & Hin).
  { apply NoDup_schema. }
  { intros f Hf. rewrite Hcl. apply Hcols2, elem_of_app. by left. }
  rewrite Henc in Hrun'. injection Hrun' as <- <-.
  assert (∃ s2', getitem cl "fuel_type" = inr s2' ∧ s_dtype s2' = object)
    as (s2' & Hs2 & Hobj2).
  { rewrite Hcl. unfold getitem, d2. cbn [columns].
    pose proof (find_column_set_dtype_eq "fuel_type" object
                  (set_dtype "price_segment" object (columns d))) as Hfuel2.
    fold cs2 in Hfuel2.
    destruct (list_find _ cs2) as [[i [c t]]|]; [|done].
    injection Hfuel2 as -> ->. by eexists. }
  destruct (Hin "fuel_type" s2') as [Hfit _]; [|done|].
  { apply (bool_decide_unpack _). by vm_compute. }
  destruct (Hfit Hobj2) as [Hle _].
  eexists. split; [exact Hle|].
  intros c Hc. unfold fit in Hc. cbn [classes_] in Hc.
  apply (proj1 (np_unique_elem _ _)) in Hc. unfold astype_str in Hc.
  rewrite (getitem_values _ _ _ Hs2) in Hc. rewrite map_map in Hc.
  apply list_elem_of_In, in_map_iff in Hc as (r & <- & Hr).
  rewrite Hcl in Hr. cbn [rows] in Hr.
  apply filter_In in Hr as [Hr Hcomplete].
  apply in_map_iff in Hr as (r0 & <- & Hr0).
  assert (notna (cell (overview_row r0) "fuel_type") = true) as Hna.
  { unfold complete_on in Hcomplete. rewrite forallb_forall in Hcomplete.
    apply Hcomplete. apply list_elem_of_In.
    apply (bool_decide_unpack _). by vm_compute. }
  destruct (overview_row_cells r0) as (_ & Hfuel0 & _).
  rewrite Hfuel0 in Hna |- *.
  destruct (cell r0 "fuel_type") as [|q|x] eqn:Hx; [done|done|].
  cbn [lower_cell py_str]. exists r0, x.
  split; [by apply list_elem_of_In|]. split; [done|]. split; [done|].
  intros ->. apply ascii_lower_idem.
Qed.

(** ** The sidebar filters *)

Lemma series_isin_cells d c s values :
  getitem d c = inr s →
  series_isin s values
  = map (λ r, match cell r c with
              | Str x => bool_decide (x ∈ values)
              | _ => false
              end) (rows d).
Proof.
  intros Hs. unfold series_isin. rewrite (getitem_values _ _ _ Hs).
  by rewrite map_map.
Qed.

Lemma filter_filter {A} (p q : A → bool) (l : list A) :
  List.filter q (List.filter p l) = List.filter (λ x, p x && q x) l.
Proof.
  induction l as [|x l IH]; simpl; [done|].
  destruct (p x); simpl; [|done]. destruct (q x); by rewrite IH.
Qed.

(** X22. The sidebar filters.  On a table with [price] and [year] columns
    that hold no strings (and a [make] column when brands are chosen), the
    block returns a new table, with the columns of the loaded one and
    exactly its rows, in order, whose price and year are numbers within the
    chosen ranges, both ends included, and whose make is one of the chosen
    brands; with no brand chosen every make passes, a missing one too.  The
    loaded table and every other table of the store are left as they were. *)
Theorem apply_filters_rule (w : world) (df : nat) (d : DataFrame)
    (price_range year_range : Z * Z) (selected_makes : list string) :
  heap w !! df = Some d →
  "price" ∈ column_names d → "year" ∈ column_names d →
  (selected_makes ≠ [] → "make" ∈ column_names d) →
  numeric_column d "price" → numeric_column d "year" →
  ∃ filtered_df w',
    apply_filters df price_range year_range selected_makes w
      = (inr filtered_df, w')
    ∧ (filtered_df ∉ dom (heap w))
    ∧ heap w' !! filtered_df
      = Some (mkDataFrame (columns d)
                (List.filter
                   (passes_filters price_range year_range selected_makes)
                   (rows d)))
    ∧ heap w ⊆ heap w'
    ∧ screen w' = screen w
    ∧ ∀ r, passes_filters price_range year_range selected_makes r = true ↔
        (∃ p, cell r "price" = Num p
              ∧ (inject_Z price_range.1 <= p)%Q ∧ (p <= inject_Z price_range.2)%Q)
        ∧ (∃ y, cell r "year" = Num y
                ∧ (inject_Z year_range.1 <= y)%Q ∧ (y <= inject_Z year_range.2)%Q)
        ∧ (selected_makes = []
           ∨ ∃ x, cell r "make" = Str x ∧ x ∈ selected_makes).
Proof.
  intros Hd Hp Hy Hmake Hnp Hny. unfold apply_filters. py_run.
  destruct (getitem_ok d "price" Hp) as [price Hprice]. rewrite Hprice. py_run.
  rewrite (series_between_numeric d "price") by done. py_run.
  destruct (getitem_ok d "year" Hy) as [year Hyear]. rewrite Hyear. py_run.
  rewrite (series_between_numeric d "year") by done. py_run.
  unfold mask_and. rewrite zip_with_map_same. unfold where_frame.
  rewrite select_rows_map.
  set (l1 := fresh (dom (heap w))).
  set (d1 := mkDataFrame (columns d) _).
  assert (l1 ∉ dom (heap w)) as Hl1 by apply is_fresh.
  assert (heap w ⊆ heap (put_frame w l1 d1)) as Hsub1.
  { cbn [heap put_frame]. apply insert_subseteq. by apply not_elem_of_dom. }
  assert (∀ r, passes_filters price_range year_range selected_makes r = true ↔
        (∃ p, cell r "price" = Num p
              ∧ (inject_Z price_range.1 <= p)%Q ∧ (p <= inject_Z price_range.2)%Q)
        ∧ (∃ y, cell r "year" = Num y
                ∧ (inject_Z year_range.1 <= y)%Q ∧ (y <= inject_Z year_range.2)%Q)
        ∧ (selected_makes = []
           ∨ ∃ x, cell r "make" = Str x ∧ x ∈ selected_makes)) as Hrule.
  { intros r. unfold passes_filters, in_range. rewrite !andb_true_iff. split.
    - intros [[Hpr Hyr] Hmk]. split; [|split].
      + destruct (cell r "price") as [|p|]; try done. exists p. split; [done|].
        apply andb_true_iff in Hpr as [H1 H2]. by rewrite <- !Qle_bool_iff.
      + destruct (cell r "year") as [|y|]; try done. exists y. split; [done|].
        apply andb_true_iff in Hyr as [H1 H2]. by rewrite <- !Qle_bool_iff.
      + destruct selected_makes as [|mk mks]; [by left|]. right.
        destruct (cell r "make") as [| |x]; try done. exists x.
        split; [done|]. by apply bool_decide_eq_true in Hmk.
    - intros ((p & -> & H1 & H2) & (y & -> & H3 & H4) & Hmk).
      split; [split|].
      + apply andb_true_iff. by rewrite !Qle_bool_iff.
      + apply andb_true_iff. by rewrite !Qle_bool_iff.
      + destruct selected_makes as [|mk mks]; [done|].
        destruct Hmk as [?|(x & -> & Hx)]; [done|].
        by apply bool_decide_eq_true. }
  destruct (decide (selected_makes = [])) as [->|Hsome].
  - cbn [negb bool_decide decide_rel]. py_run.
    exists l1, (put_frame w l1 d1). split; [done|]. split; [done|].
    split.
    { rewrite lookup_put_frame. f_equal. unfold d1. f_equal.
      apply filter_ext. intros r. unfold passes_filters, in_range.
      by rewrite andb_true_r. }
    split; [done|]. split; [done|]. done.
  - rewrite bool_decide_eq_false_2 by done. cbn [negb]. py_run.
    destruct (getitem_ok d1 "make") as [make Hmk]; [by apply Hmake|].
    rewrite Hmk. py_run. rewrite (series_isin_cells d1 "make") by done.
    unfold where_frame. rewrite select_rows_map.
    set (l2 := fresh (dom (heap (put_frame w l1 d1)))).
    assert (l2 ∉ dom (heap (put_frame w l1 d1))) as Hl2 by apply is_fresh.
    eexists l2, _. split; [done|]. split.
    { intros Hin. apply Hl2. cbn [heap put_frame]. rewrite dom_insert.
      apply elem_of_union. by right. }
    split.
    { rewrite lookup_put_frame. f_equal. unfold d1. cbn [rows columns]. f_equal.
      rewrite filter_filter.
      apply filter_ext. intros r. unfold passes_filters, in_range.
      destruct selected_makes; done. }
    split.
    { etrans; [exact Hsub1|]. cbn [heap put_frame]. apply insert_subseteq.
      by apply not_elem_of_dom. }
    split; [done|]. done.
Qed.

Lemma keeps_apply_filters (L : gset nat) df price_range year_range selected_makes :
  keeps L (apply_filters df price_range year_range selected_makes) (λ l, l ∉ L).
Proof.
  unfold apply_filters.
  eapply keeps_bind; [apply keeps_deref|]. intros d _.
  do 4 (eapply keeps_bind; [apply keeps_lift with (Q := λ _, True); done|];
        intros ? _).
  eapply keeps_bind; [apply keeps_new_frame|]. intros l1 Hl1. cbn beta.
  destruct (negb _); [|by apply keeps_ret].
  eapply keeps_bind; [apply keeps_deref|]. intros d1 _.
  eapply keeps_bind; [apply keeps_lift with (Q := λ _, True); done|]. intros mk _.
  apply keeps_new_frame.
Qed.

Lemma keeps_render_market_overview (L : gset nat) df vehicle_type :
  df ∉ L → keeps L (render_market_overview df vehicle_type) (λ _, True).
Proof.
  intros Hdf.
  unfold render_market_overview, render_popular_makes, render_price_segments,
    render_car_features, lower_fuel_type, render_motorcycle_features.
  eapply keeps_bind; [apply keeps_deref|]. intros d _.
  eapply keeps_bind; [apply keeps_lift with (Q := λ _, True); done|]. intros p _.
  eapply keeps_bind; [apply keeps_lift with (Q := λ _, True); done|]. intros sg _.
  eapply keeps_bind; [by apply keeps_setitem|]. intros _ _.
  eapply keeps_bind with (Q := λ _, True); [keep_going L df|]. intros _ _.
  eapply keeps_bind with (Q := λ _, True); [keep_going L df|]. intros _ _.
  destruct (decide (vehicle_type = "car")).
  - eapply keeps_bind; [apply keeps_deref|]. intros d1 _.
    eapply keeps_bind; [apply keeps_lift with (Q := λ _, True); done|].
    intros tr _.
    eapply keeps_bind; [apply keeps_lift with (Q := λ _, True); done|].
    intros _ _.
    eapply keeps_bind with (Q := λ _, True); [keep_going L df|]. intros _ _.
    keep_going L df.
  - eapply keeps_bind; [apply keeps_deref|]. intros d2 _.
    eapply keeps_bind; [apply keeps_lift with (Q := λ _, True); done|].
    intros md _.
    eapply keeps_bind; [apply keeps_lift with (Q := λ _, True); done|].
    intros _ _.
    eapply keeps_bind; [apply keeps_lift with (Q := λ _, True); done|].
    intros v _.
    eapply keeps_bind with (Q := λ _, True).
    { destruct (has_column d2 "age"); [by apply keeps_ret|apply keeps_raise]. }
    intros _ _. eapply keeps_bind with (Q := λ _, True).
    { destruct (has_column d2 "price"); [by apply keeps_ret|apply keeps_raise]. }
    intros _ _. keep_going L df.
Qed.

(** X23. The pages are handed the table the filters made, not the loaded
    one.  Whatever the sliders and the brand list hold, and whether the
    calls return or raise, after the filter block followed by the Market
    Overview page on its result, every table that was in the store before,
    the loaded table among them, is what it was: the columns the page writes
    land in the filtered table only. *)
Theorem overview_writes_to_filtered_copy (w : world) (df : nat)
    (price_range year_range : Z * Z) (selected_makes : list string)
    (vehicle_type : string) :
  ∀ l d,
    heap w !! l = Some d →
    heap ((apply_filters df price_range year_range selected_makes
           ≫= λ filtered_df, render_market_overview filtered_df vehicle_type)
            w).2 !! l
    = Some d.
Proof.
  intros l d Hl.
  assert (keeps (dom (heap w))
            (apply_filters df price_range year_range selected_makes
             ≫= λ filtered_df, render_market_overview filtered_df vehicle_type)
            (λ _, True)) as Hkeeps.
  { eapply keeps_bind; [apply keeps_apply_filters|].
    intros filtered_df Hnew. by apply keeps_render_market_overview. }
  destruct (Hkeeps w) as [Hkeep _]; [done|].
  rewrite Hkeep; [done|]. apply elem_of_dom. by eexists.
Qed.

(** ** Location names *)

Lemma standardize_location_cases v :
  (standardize_location v = v
   ∧ v ≠ Str "Putrajaya" ∧ v ≠ Str "Labuan")
  ∨ (v = Str "Putrajaya" ∧ standardize_location v = Str "W.P. Putrajaya")
  ∨ (v = Str "Labuan" ∧ standardize_location v = Str "W.P. Labuan").
Proof.
  destruct v as [|q|name]; [by left|by left|].
  unfold standardize_location.
  destruct (dict_has MALAYSIA_STATES name) eqn:Hstate.
  { left. split; [done|]. split; intros [= ->]; by vm_compute in Hstate. }
  unfold dict_get, location_mapping. cbn [list_find fst snd].
  repeat (destruct (decide (_ = name)) as [<-|?];
          [ first [ by vm_compute in Hstate
                  | right; left; by split
                  | right; right; by split ] |]).
  simpl. left. split; [done|]. split; intros [= ->]; done.
Qed.

(** X24. [standardize_location] changes two names only: ``Putrajaya'' and
    ``Labuan'' get their ``W.P.'' prefix.  Every other cell comes back as it
    is; in particular the short forms ``Penang'', ``KL'' or ``Malacca'' are
    not replaced by the names of the map, because they are keys of
    [MALAYSIA_STATES] and the function returns such keys before it consults
    its mapping.  Applying the function twice is applying it once. *)
Theorem standardize_location_changes_two_names (location : scalar) :
  (standardize_location location ≠ location
   ↔ location = Str "Putrajaya" ∨ location = Str "Labuan")
  ∧ standardize_location (Str "Putrajaya") = Str "W.P. Putrajaya"
  ∧ standardize_location (Str "Labuan") = Str "W.P. Labuan"
  ∧ (∀ name new_name, (name, new_name) ∈ location_mapping →
       name ≠ "Putrajaya" → name ≠ "Labuan" →
       standardize_location (Str name) = Str name)
  ∧ standardize_location (standardize_location location)
    = standardize_location location.
Proof.
  split; [|split; [done|split; [done|split]]].
  - destruct (standardize_location_cases location)
      as [(Hsame & H1 & H2)|[[-> Hnew]|[-> Hnew]]].
    + split; [done|]. by intros [?|?].
    + split; [by left|]. intros _. by rewrite Hnew.
    + split; [by right|]. intros _. by rewrite Hnew.
  - intros name new_name _ H1 H2.
    destruct (standardize_location_cases (Str name))
      as [(Hsame & _)|[[[= ->] _]|[[= ->] _]]]; done.
  - destruct (standardize_location_cases location)
      as [(Hsame & _)|[[-> ->]|[-> ->]]]; [by rewrite !Hsame|done|done].
Qed.

(** ** Training and prediction together *)

(** X25. A listing the model was trained on can always be priced.  After a
    training that returned a model, take any row of the table that is
    complete on the schema features and the price, and supply its cells as
    inputs: every encoded value is one of its encoder's classes, so no
    warning is possible and [predict_price] goes on to ask the forest. *)
Theorem trained_listing_is_priced (w w' : world) (df : nat) (d : DataFrame)
    (vehicle_type : string) (m : Model) (le_dict : gmap string LabelEncoder)
    (s1 s2 : Q) (features : list string) (r : gmap string scalar)
    (inputs : gmap string scalar) :
  heap w !! df = Some d →
  (train_price_prediction_model df vehicle_type w).1
    = inr (Some m, Some le_dict, Some s1, Some s2, Some features) →
  r ∈ rows d → complete_on (schema vehicle_type ++ ["price"]) r = true →
  (∀ f, f ∈ features → inputs !! f = Some (cell r f)) →
  let input_data := encoded_row le_dict inputs features in
  (∀ f v, f ∈ features → ¬ unrecognized le_dict inputs f v)
  ∧ input_data.*1 = features
  ∧ predict_price m le_dict features inputs w'
    = match forest_predict m (frame_of_dict input_data) with
      | inr (predicted_price :: _) => (inr (Some predicted_price), w')
      | inr [] =>
          (inr None, add_to_screen w' [(st_error, ErrorInPrediction IndexError)])
      | inl e => (inr None, add_to_screen w' [(st_error, ErrorInPrediction e)])
      end.
Proof.
  intros Hd Htrain Hr Hcomplete Hinputs input_data.
  destruct (train_success_inv w df d vehicle_type m le_dict s1 s2 features Hd Htrain)
    as (cl & d' & Hcl & Henc & ->).
  apply dropna_frame_inv in Hcl as [Hcl Hcols].
  destruct (encode_frame_spec (schema vehicle_type) cl ∅)
    as (le' & d'' & Hrun' & _ & _ & _ & Hin).
  { apply NoDup_schema. }
  { intros f Hf. rewrite Hcl. apply Hcols, elem_of_app. by left. }
  rewrite Henc in Hrun'. injection Hrun' as <- <-.
  assert (r ∈ rows cl) as Hrcl.
  { rewrite Hcl. cbn [rows]. by apply elem_of_List_filter. }
  assert (∀ f, f ∈ schema vehicle_type →
            (∃ enc, le_dict !! f = Some enc ∧ py_str (cell r f) ∈ classes_ enc)
            ∨ le_dict !! f = None) as Hknown.
  { intros f Hf. destruct (getitem_ok cl f) as [s Hs].
    { rewrite Hcl. apply Hcols, elem_of_app. by left. }
    destruct (Hin f s Hf Hs) as [Hobj Hnum].
    destruct (decide (s_dtype s = object)) as [Ho|Hn].
    - left. destruct (Hobj Ho) as [Hle _]. eexists. split; [exact Hle|].
      unfold fit. cbn [classes_]. apply np_unique_elem. unfold astype_str.
      rewrite (getitem_values _ _ _ Hs), map_map.
      apply list_elem_of_In, in_map_iff. exists r. split; [done|].
      by apply list_elem_of_In.
    - right. destruct (Hnum Hn) as [-> _]. apply lookup_empty. }
  assert (∀ f, f ∈ schema vehicle_type →
            is_Some (encoded_value le_dict inputs f)) as Hall.
  { intros f Hf. unfold encoded_value. rewrite (Hinputs f Hf).
    destruct (Hknown f Hf) as [(enc & -> & Hseen)| ->]; [|by eexists].
    destruct (encode_seen enc _ Hseen) as (i & -> & _). by eexists. }
  split; [|split].
  - intros f v Hf (enc & Hle & Hv & Hnew).
    rewrite (Hinputs f Hf) in Hv. injection Hv as <-.
    destruct (Hknown f Hf) as [(enc' & Hle' & Hseen)|Hnone]; congruence.
  - by apply encoded_row_names.
  - unfold predict_price, try_except. rewrite run_bind.
    rewrite prepare_input_completes by (done || apply NoDup_schema).
    cbn [app]. fold input_data.
    destruct (forest_predict m (frame_of_dict input_data))
      as [e|[|p ps]]; py_run; done.
Qed.

(** ** The Market Overview page on motorcycles *)

Lemma counted_nil d c s :
  getitem d c = inr s → ¬ has_value d c → counted s = [].
Proof.
  intros Hs Hno. unfold counted.
  destruct (List.filter notna (s_values s)) as [|v vs] eqn:Hvs; [done|].
  destruct Hno. assert (v ∈ List.filter notna (s_values s)) as Hin.
  { rewrite Hvs. by left. }
  apply elem_of_List_filter in Hin as [Hin Hv].
  rewrite (getitem_values _ _ _ Hs) in Hin.
  apply list_elem_of_In, in_map_iff in Hin as (r & <- & Hr).
  exists r. split; [by apply list_elem_of_In|done].
Qed.

Lemma has_value_set_cell_inv d c c' f cs :
  c ≠ c' → has_value (mkDataFrame cs (map (set_cell c f) (rows d))) c' →
  has_value d c'.
Proof.
  intros Hne (r & Hr & Hv). cbn [rows] in Hr.
  apply list_elem_of_In, in_map_iff in Hr as (r0 & <- & Hr0).
  rewrite cell_set_cell_ne in Hv by done.
  exists r0. split; [by apply list_elem_of_In|done].
Qed.

Lemma motorcycle_segment_cell_run d r :
  numeric_column d "price" → r ∈ rows d →
  create_motorcycle_price_segment (cell r "price")
  = inr (motorcycle_segment_cell (cell r "price"))
  ∧ notna (motorcycle_segment_cell (cell r "price")) = true.
Proof.
  intros Hprice Hr. unfold motorcycle_segment_cell.
  destruct (cell r "price") as [|q|x] eqn:Hcell; try done.
  by destruct (Hprice r x Hr).
Qed.

(** X26. For any vehicle type other than cars the Market Overview page
    writes one column, [price_segment], set to the motorcycle segment of
    each price; [fuel_type] is not read.  Whether the call then returns
    depends on the listings.  plotly refuses to draw the bar chart of an
    empty count, so on a table in which no listing has a make, or none has
    a model (an empty table, when the filters leave nothing), the page
    raises plotly's [ValueError]; with makes and models to draw it returns
    normally when the table has an [age] column and the figures on age and
    price can be computed.  In each case [price_segment] has been
    written. *)
Theorem market_overview_motorcycle (w : world) (df : nat) (d : DataFrame)
    (vehicle_type : string) (what : string) :
  vehicle_type ≠ "car" →
  plotly_draws → px_bar [] = inl (ValueError what) →
  heap w !! df = Some d →
  (∀ c, c ∈ ["price"; "make"; "model"] → c ∈ column_names d) →
  numeric_column d "price" →
  let d1 :=
    mkDataFrame (set_dtype "price_segment" object (columns d))
      (map (set_cell "price_segment"
              (λ r, motorcycle_segment_cell (cell r "price"))) (rows d)) in
  (¬ has_value d "make" ∨ ¬ has_value d "model" →
     render_market_overview df vehicle_type w
     = (inl (ValueError what), put_frame w df d1))
  ∧ (has_value d "make" → has_value d "model" →
     ∀ age price,
       getitem d1 "age" = inr age → getitem d1 "price" = inr price →
       age_price_figures age price = inr () →
       render_market_overview df vehicle_type w = (inr (), put_frame w df d1)).
Proof.
  intros Hne Hpx Hempty Hd Hcols Hprice d1.
  assert (∀ c, c ∈ column_names d → c ∈ column_names d1) as Hd1.
  { intros c Hc. unfold d1, column_names. cbn [columns].
    by apply set_dtype_keeps. }
  destruct (getitem_ok d1 "make") as [mk Hmk];
    [apply Hd1, Hcols; right; by left|].
  destruct (getitem_ok d1 "model") as [md Hmd];
    [apply Hd1, Hcols; do 2 right; by left|].
  destruct (getitem_ok d1 "price_segment") as [sg Hsg].
  { unfold d1, column_names. cbn [columns]. apply set_dtype_has. }
  assert (render_market_overview df vehicle_type w
          = (render_popular_makes df;;
             render_price_segments df;;
             render_motorcycle_features df) (put_frame w df d1)) as Hstart.
  { rewrite (render_market_overview_segment w df d vehicle_type
               create_motorcycle_price_segment motorcycle_segment_cell);
      [|done|apply Hcols; by left| |by rewrite decide_False].
    - by rewrite decide_False.
    - intros r Hr. by apply (motorcycle_segment_cell_run d). }
  assert (∀ r, r ∈ rows d →
            notna (motorcycle_segment_cell (cell r "price")) = true) as Hseg.
  { intros r Hr. by apply (motorcycle_segment_cell_run d). }
  assert (has_value d "make" →
          (render_popular_makes df;; render_price_segments df;;
           render_motorcycle_features df) (put_frame w df d1)
          = render_motorcycle_features df (put_frame w df d1)) as Hcharts.
  { intros Hmake. unfold render_popular_makes. py_run.
    rewrite Hmk. py_run.
    rewrite (chart_run px_bar d1 "make" mk _ Hmk);
      [|by apply has_value_set_cell_ne|intros; apply Hpx].
    py_run. unfold render_price_segments. py_run.
    rewrite Hsg. py_run.
    rewrite (chart_run px_pie d1 "price_segment" sg _ Hsg);
      [done| |intros; apply Hpx].
    destruct Hmake as (r & Hr & _).
    exists (set_cell "price_segment"
              (λ r, motorcycle_segment_cell (cell r "price")) r). split.
    - unfold d1. cbn [rows]. apply list_elem_of_In, in_map, list_elem_of_In, Hr.
    - rewrite cell_set_cell_eq. by apply Hseg. }
  rewrite Hstart. split.
  - intros Hnone.
    destruct (counted mk) as [|v vs] eqn:Hcmk.
    { unfold render_popular_makes. py_run.
      rewrite Hmk. py_run. rewrite Hcmk, Hempty. done. }
    assert (has_value d "make") as Hmake.
    { apply (has_value_set_cell_inv d "price_segment" "make"
               (λ r, motorcycle_segment_cell (cell r "price"))
               (set_dtype "price_segment" object (columns d))); [done|].
      fold d1. assert (v ∈ counted mk) as Hin by (rewrite Hcmk; by left).
      apply elem_of_List_filter in Hin as [Hin Hv].
      rewrite (getitem_values _ _ _ Hmk) in Hin.
      apply list_elem_of_In, in_map_iff in Hin as (r & <- & Hr).
      exists r. split; [by apply list_elem_of_In|done]. }
    destruct Hnone as [Hno|Hno]; [done|].
    rewrite Hcharts by done. unfold render_motorcycle_features. py_run.
    rewrite Hmd. py_run.
    rewrite (counted_nil d1 "model" md Hmd).
    + by rewrite Hempty.
    + intros Hv. apply Hno.
      apply (has_value_set_cell_inv d "price_segment" "model"
               (λ r, motorcycle_segment_cell (cell r "price"))
               (set_dtype "price_segment" object (columns d))); [done|exact Hv].
  - intros Hmake Hmodel age price Hage Hpr Hfig.
    rewrite Hcharts by done. unfold render_motorcycle_features. py_run.
    rewrite Hmd. py_run.
    destruct (counted_has_value d1 "model" md Hmd) as (v & vs & Hc).
    { by apply has_value_set_cell_ne. }
    rewrite Hc. destruct (Hpx v vs) as [-> _]. cbn [item0]. py_run.
    rewrite (proj2 (has_column_true d1 "age")) by by eapply getitem_column.
    rewrite (proj2 (has_column_true d1 "price")) by by eapply getitem_column.
    py_run. rewrite Hage. py_run. rewrite Hpr. py_run. by rewrite Hfig.
Qed.

(** ** Training reads the schema columns and the price, nothing else *)

Section SameOn.

Variable cols : list string.

Lemma same_on_names d1 d2 c :
  same_on cols d1 d2 → c ∈ cols → c ∈ column_names d1 → c ∈ column_names d2.
Proof.
  intros [Hcs _] Hc Hin. specialize (Hcs c Hc).
  destruct (decide (c ∈ column_names d2)) as [|Hno]; [done|].
  apply find_column_None in Hno. rewrite Hno in Hcs.
  destruct (list_find _ (columns d1)) as [x|] eqn:Hfind; [done|].
  apply find_column_None in Hfind. done.
Qed.

Lemma same_on_sym d1 d2 : same_on cols d1 d2 → same_on cols d2 d1.
Proof.
  intros [Hcs Hrs]. split.
  - intros c Hc. symmetry. by apply Hcs.
  - apply Forall2_flip. eapply Forall2_impl; [exact Hrs|].
    intros r1 r2 H c Hc. symmetry. by apply H.
Qed.

Lemma same_on_has_column d1 d2 c :
  same_on cols d1 d2 → c ∈ cols → has_column d1 c = has_column d2 c.
Proof.
  intros Hsame Hc. unfold has_column. apply bool_decide_ext. split.
  - by apply same_on_names.
  - apply same_on_names; [by apply same_on_sym|done].
Qed.

Lemma same_on_cells (rs1 rs2 : list (gmap string scalar)) c :
  Forall2 (λ r1 r2 : gmap string scalar, ∀ c, c ∈ cols → r1 !! c = r2 !! c)
    rs1 rs2 →
  c ∈ cols → map (λ r, cell r c) rs1 = map (λ r, cell r c) rs2.
Proof.
  intros Hrs Hc. induction Hrs as [|r1 r2 rs1 rs2 Hr _ IH]; simpl; [done|].
  f_equal; [|done]. unfold cell. by rewrite (Hr c Hc).
Qed.

Lemma same_on_getitem d1 d2 c :
  same_on cols d1 d2 → c ∈ cols → getitem d1 c = getitem d2 c.
Proof.
  intros [Hcs Hrs] Hc. unfold getitem. specialize (Hcs c Hc).
  rewrite (same_on_cells _ _ c Hrs Hc).
  destruct (list_find _ (columns d1)) as [[i1 [c1 t1]]|],
           (list_find _ (columns d2)) as [[i2 [c2 t2]]|]; simpl in Hcs;
    try done.
  by injection Hcs as -> ->.
Qed.

Lemma list_find_same (f g : string → bool) (l : list string) :
  (∀ c, c ∈ l → f c = g c) →
  list_find (λ c, f c) l = list_find (λ c, g c) l.
Proof.
  induction l as [|x l IH]; intros Hfg; [done|]. simpl.
  rewrite (Hfg x) by left. rewrite IH; [done|].
  intros c Hc. apply Hfg. by right.
Qed.

Lemma Forall2_List_filter {A} (R : A → A → Prop) (p : A → bool) l1 l2 :
  Forall2 R l1 l2 → (∀ x y, R x y → p x = p y) →
  Forall2 R (List.filter p l1) (List.filter p l2).
Proof.
  intros HR Hp. induction HR as [|x y l1 l2 Hxy _ IH]; simpl; [constructor|].
  rewrite (Hp x y Hxy). destruct (p y); [by constructor|done].
Qed.

Lemma forallb_ext_on {A} (f g : A → bool) l :
  (∀ x, In x l → f x = g x) → forallb f l = forallb g l.
Proof.
  induction l as [|x l IH]; intros H; simpl; [done|].
  rewrite (H x) by (by left). rewrite IH; [done|].
  intros y Hy. apply H. by right.
Qed.

Lemma same_on_complete (r1 r2 : gmap string scalar) :
  (∀ c, c ∈ cols → r1 !! c = r2 !! c) → complete_on cols r1 = complete_on cols r2.
Proof.
  intros Hr. unfold complete_on. apply forallb_ext_on.
  intros c Hc. unfold cell. rewrite (Hr c); [done|]. by apply list_elem_of_In.
Qed.

Lemma same_on_dropna d1 d2 :
  same_on cols d1 d2 →
  match dropna_frame cols d1, dropna_frame cols d2 with
  | inl e1, inl e2 => e1 = e2
  | inr cl1, inr cl2 => same_on cols cl1 cl2
  | _, _ => False
  end.
Proof.
  intros Hsame. unfold dropna_frame.
  rewrite (list_find_same (λ c, negb (has_column d1 c))
             (λ c, negb (has_column d2 c))).
  2:{ intros c Hc. by rewrite (same_on_has_column d1 d2). }
  destruct (list_find _ cols) as [[i c]|]; [done|].
  destruct Hsame as [Hcs Hrs]. split; [done|]. cbn [rows].
  apply Forall2_List_filter; [done|]. intros r1 r2 Hr.
  by apply same_on_complete.
Qed.

Lemma same_on_setitem d1 d2 c s :
  same_on cols d1 d2 →
  match setitem_frame d1 c s, setitem_frame d2 c s with
  | inl e1, inl e2 => e1 = e2
  | inr d1', inr d2' => same_on cols d1' d2'
  | _, _ => False
  end.
Proof.
  intros [Hcs Hrs]. unfold setitem_frame.
  rewrite <- (Forall2_length _ _ _ Hrs).
  destruct (decide (length (s_values s) = length (rows d1))) as [Hlen|]; [|done].
  split; cbn [columns rows].
  - intros c' Hc'. destruct (decide (c = c')) as [<-|Hne].
    + by rewrite !find_column_set_dtype_eq.
    + rewrite !find_column_set_dtype_ne by done. by apply Hcs.
  - clear Hlen. revert Hrs. generalize (s_values s).
    generalize (rows d1) (rows d2). clear.
    intros rs1 rs2 vs Hrs. revert vs.
    induction Hrs as [|r1 r2 rs1 rs2 Hr _ IH]; intros [|v vs]; simpl;
      try constructor; [|apply IH].
    intros c' Hc'. destruct (decide (c = c')) as [<-|Hne].
    + by rewrite !lookup_insert_eq.
    + rewrite !lookup_insert_ne by done. by apply Hr.
Qed.

Lemma same_on_encode_frame features : ∀ d1 d2 le_dict,
  (∀ f, f ∈ features → f ∈ cols) → same_on cols d1 d2 →
  (encode_frame d1 features le_dict).1 = (encode_frame d2 features le_dict).1
  ∧ same_on cols (encode_frame d1 features le_dict).2
      (encode_frame d2 features le_dict).2.
Proof.
  induction features as [|col features IH]; intros d1 d2 le_dict Hsub Hsame;
    simpl; [done|].
  rewrite (same_on_getitem d1 d2 col) by (done || apply Hsub; by left).
  destruct (getitem d2 col) as [e|s]; [done|].
  assert (∀ f, f ∈ features → f ∈ cols) as Hsub'.
  { intros f Hf. apply Hsub. by right. }
  destruct (decide (s_dtype s = object)) as [Hobj|Hnum]; [|by apply IH].
  unfold fit_transform. destruct (transform _ _) as [e0|codes]; [done|].
  pose proof (same_on_setitem d1 d2 col
                (mkSeries numeric (map code_cell codes)) Hsame) as Hset.
  destruct (setitem_frame d1 col _) as [e1|d1'],
           (setitem_frame d2 col _) as [e2|d2']; try done.
  - by subst e2.
  - by apply IH.
Qed.

Lemma omap_ext_on {A B} (f g : A → option B) (l : list A) :
  (∀ x, x ∈ l → f x = g x) → omap f l = omap g l.
Proof.
  induction l as [|x l IH]; intros H; [done|]. simpl.
  rewrite (H x) by left.
  assert (omap f l = omap g l) as Hl.
  { apply IH. intros y Hy. apply H. by right. }
  destruct (g x); [f_equal|]; exact Hl.
Qed.

Lemma same_on_select_frame d1 d2 features :
  (∀ f, f ∈ features → f ∈ cols) → same_on cols d1 d2 →
  select_frame d1 features = select_frame d2 features.
Proof.
  intros Hsub [Hcs Hrs]. unfold select_frame.
  rewrite (list_find_same (λ c, negb (has_column d1 c))
             (λ c, negb (has_column d2 c))).
  2:{ intros c Hc. rewrite (same_on_has_column d1 d2); [done|by split|by apply Hsub]. }
  destruct (list_find _ features) as [[i c]|]; [done|].
  f_equal. f_equal.
  - apply omap_ext_on. intros f Hf.
    pose proof (Hcs f (Hsub f Hf)) as Hfind.
    destruct (list_find _ (columns d1)) as [[i1 x1]|],
             (list_find _ (columns d2)) as [[i2 x2]|]; simpl in *; congruence.
  - induction Hrs as [|r1 r2 rs1 rs2 Hr _ IH]; simpl; [done|].
    f_equal; [|done]. apply map_eq. intros k.
    destruct (decide (k ∈ features)) as [Hk|Hk].
    + rewrite !map_lookup_filter. rewrite (Hr k (Hsub k Hk)). done.
    + rewrite !map_lookup_filter_None_2; [done|right|right];
        intros v _; simpl; done.
Qed.

End SameOn.

(** X27. Training reads the schema features and the price, and no other
    column.  Two tables in which these columns have the same types and the
    rows agree, one by one, on these columns give the same model, encoders,
    scores and messages, whatever their other columns ([ad_url], [location],
    [age], ...) hold, and whichever tables else are in the store. *)
Theorem train_ignores_other_columns (w1 w2 : world) (df1 df2 : nat)
    (d1 d2 : DataFrame) (vehicle_type : string) :
  heap w1 !! df1 = Some d1 → heap w2 !! df2 = Some d2 →
  same_on (schema vehicle_type ++ ["price"]) d1 d2 →
  (train_price_prediction_model df1 vehicle_type w1).1
  = (train_price_prediction_model df2 vehicle_type w2).1
  ∧ ∃ msgs,
      screen (train_price_prediction_model df1 vehicle_type w1).2
        = screen w1 ++ msgs
      ∧ screen (train_price_prediction_model df2 vehicle_type w2).2
        = screen w2 ++ msgs.
Proof.
  intros Hd1 Hd2 Hsame.
  destruct (train_run w1 df1 d1 vehicle_type Hd1) as (-> & -> & _).
  destruct (train_run w2 df2 d2 vehicle_type Hd2) as (-> & -> & _).
  assert (train_outcome d1 vehicle_type = train_outcome d2 vehicle_type) as ->;
    [|split; [done|by eexists]].
  set (cols := schema vehicle_type ++ ["price"]) in *.
  assert (∀ f, f ∈ schema vehicle_type → f ∈ cols) as Hsub.
  { intros f Hf. apply elem_of_app. by left. }
  unfold train_outcome.
  assert (List.filter (λ f, negb (has_column d1 f)) (schema vehicle_type)
          = List.filter (λ f, negb (has_column d2 f)) (schema vehicle_type)) as ->.
  { apply filter_ext_in. intros f Hf.
    rewrite (same_on_has_column cols d1 d2); [done|done|].
    by apply Hsub, list_elem_of_In. }
  destruct (negb (bool_decide _)); [done|]. fold cols.
  pose proof (same_on_dropna cols d1 d2 Hsame) as Hclean.
  destruct (dropna_frame cols d1) as [e1|cl1], (dropna_frame cols d2) as [e2|cl2];
    try done; [by subst e2|].
  assert (len cl1 = len cl2) as ->.
  { unfold len. destruct Hclean as [_ Hrs]. by eapply Forall2_length. }
  destruct (len cl2 <? 100)%nat; [done|].
  destruct (same_on_encode_frame cols (schema vehicle_type) cl1 cl2 ∅ Hsub Hclean)
    as [Hres Hsame'].
  destruct (encode_frame cl1 (schema vehicle_type) ∅) as [r1 d1'],
           (encode_frame cl2 (schema vehicle_type) ∅) as [r2 d2'].
  cbn [fst snd] in *. subst r2. destruct r1 as [e|le_dict]; [done|].
  assert (split_and_fit d1' le_dict (schema vehicle_type) blank
          = split_and_fit d2' le_dict (schema vehicle_type) blank) as ->; [|done].
  unfold split_and_fit.
  rewrite (same_on_select_frame cols d1' d2') by done.
  rewrite (same_on_getitem cols d1' d2' "price"); [done|done|].
  apply elem_of_app. right. by left.
Qed.

(** ** The page from training to the feature importances *)

Lemma train_success_silent w df d vehicle_type m le_dict s1 s2 features :
  heap w !! df = Some d →
  (train_price_prediction_model df vehicle_type w).1
    = inr (Some m, Some le_dict, Some s1, Some s2, Some features) →
  screen (train_price_prediction_model df vehicle_type w).2 = screen w.
Proof.
  intros Hd Htrain.
  destruct (train_run w df d vehicle_type Hd) as (Hval & -> & _).
  rewrite Hval in Htrain. revert Htrain. unfold train_outcome.
  destruct (negb (bool_decide (_ = []))); [done|].
  destruct (dropna_frame _ d) as [e|cl]; [done|].
  destruct (len cl <? 100)%nat; [done|].
  destruct (encode_frame cl (schema vehicle_type) ∅) as [[e|le] d']; [done|].
  destruct (split_and_fit_outcome d' le (schema vehicle_type))
    as [[e ->]|[[e ->]|(m' & s1' & s2' & ->)]]; [done|done|].
  intros _. cbn [snd screen blank]. by rewrite app_nil_r.
Qed.

(** X28. The page, end to end.  When training returns a model with at least
    one encoder, the input form raises nothing (the options of its select
    boxes can be sorted, and 2018 lies between the first and the last year
    of the table), the widget values are among what the form offers and the
    prediction for them is a price, the page returns normally and shows no
    warning and no error.  It shows, in this
    order: the two accuracies; then, if the button is pressed, the estimate,
    the range of 15 per cent around it, the similar listings (the display of
    the first five listings comparable to the widget values, or the note
    that there are none) and the feature importances of the schema features.
    Without the button only the accuracies are shown. *)
Theorem page_shows_in_order (w : world) (df : nat) (d : DataFrame)
    (vehicle_type : string) (ws : widgets) (model : Model)
    (le_dict : gmap string LabelEncoder) (train_score test_score : Q)
    (features : list string) (predicted_price : Q) :
  heap w !! df = Some d →
  (train_price_prediction_model df vehicle_type w).1
    = inr (Some model, Some le_dict, Some train_score, Some test_score,
           Some features) →
  le_dict ≠ ∅ →
  input_form d vehicle_type features ws blank = (inr (), blank) →
  offered d vehicle_type ws = true →
  (∀ c, c ∈ display_cols vehicle_type → c ∈ column_names d) →
  numeric_column d "year" →
  (vehicle_type = "car" → numeric_column d "mileage_avg") →
  predict_price model le_dict features
    (collect_inputs vehicle_type features ws) blank
  = (inr (Some predicted_price), blank) →
  let matching := List.filter (comparable vehicle_type ws) (rows d) in
  features = schema vehicle_type
  ∧ (render_price_prediction df vehicle_type ws w).1 = inr ()
  ∧ ∃ cs, cs.*1 = display_cols vehicle_type
      ∧ screen (render_price_prediction df vehicle_type ws w).2
        = screen w
          ++ (st_write, Accuracy train_score test_score)
             :: (if w_predict ws then
                   [(st_success, EstimatedPrice predicted_price);
                    (st_info, SuggestedPriceRange (price_range predicted_price).1
                                (price_range predicted_price).2);
                    match matching with
                    | [] => (st_info, NoSimilarListings)
                    | _ :: _ =>
                        (st_write,
                         SimilarListings
                           (mkDataFrame cs
                              (map (display_row vehicle_type) (take 5 matching))))
                    end;
                    (st_write, FeatureImportance features)]
                 else []).
Proof.
  intros Hd Htrain Hle Hform _ Hcols Hyear Hmil Hpred matching.
  destruct (train_success_inv w df d vehicle_type model le_dict train_score
              test_score features Hd Htrain) as (_ & _ & _ & _ & ->).
  split; [done|].
  pose proof (train_success_silent w df d vehicle_type _ _ _ _ _ Hd Htrain)
    as Hsilent.
  destruct (keeps_train (dom (heap w)) df vehicle_type w) as [Hkeep _]; [done|].
  assert (heap (train_price_prediction_model df vehicle_type w).2 !! df = Some d)
    as Hd1.
  { rewrite Hkeep; [done|]. apply elem_of_dom. by eexists. }
  destruct (display_frame_run vehicle_type (mkDataFrame (columns d) matching) blank)
    as (cs & Hcs & _); [done|].
  unfold render_price_prediction. rewrite run_bind.
  destruct (train_price_prediction_model df vehicle_type w) as [r w1].
  cbn [fst snd] in *. subst r.
  rewrite (bool_decide_eq_false_2 (size le_dict = 0%nat))
    by (by rewrite map_size_empty_iff).
  rewrite (bool_decide_eq_false_2 (schema vehicle_type = [])).
  2:{ unfold schema. by destruct (decide _). }
  cbn [negb andb]. py_run.
  rewrite (screen_only_input_form _ _ _ _ (add_to_screen w1 _)), Hform.
  cbn [fst snd screen blank]. rewrite add_to_screen_nil.
  destruct (w_predict ws).
  2:{ py_run. split; [done|]. exists cs. split; [done|].
      cbn [screen add_to_screen]. by rewrite Hsilent. }
  rewrite run_bind.
  rewrite (screen_only_predict_price _ _ _ _ (add_to_screen w1 _)), Hpred.
  cbn [fst snd screen blank]. rewrite add_to_screen_nil.
  unfold report_prediction.
  destruct (price_range predicted_price) as [lower_bound upper_bound].
  cbn [fst snd]. py_run.
  rewrite !add_to_screen_app. cbn [app].
  rewrite (similar_listings_run _ df d).
  2:{ done. }
  2:{ intros c Hc. apply Hcols. unfold display_cols. apply elem_of_app. left.
      repeat (apply elem_of_cons in Hc as [->|Hc];
              [repeat first [by left | right]|]).
      by apply elem_of_nil in Hc. }
  2:{ done. }
  2:{ intros Hcar. split; [|by apply Hmil]. apply Hcols. unfold display_cols.
      rewrite decide_True by done. apply elem_of_app. right. by left. }
  fold matching. destruct matching as [|r rs] eqn:Hmatching.
  - py_run. split; [done|]. exists cs. split; [done|].
    rewrite !add_to_screen_app. cbn [screen add_to_screen app].
    by rewrite Hsilent.
  - rewrite <- Hmatching.
    destruct (display_frame_run vehicle_type (mkDataFrame (columns d) matching)
                (add_to_screen w1
                   [(st_write, Accuracy train_score test_score);
                    (st_success, EstimatedPrice predicted_price);
                    (st_info, SuggestedPriceRange lower_bound upper_bound)]))
      as (cs' & Hcs' & Hrun); [done|].
    rewrite run_bind, Hrun. py_run. split; [done|]. exists cs'. split; [done|].
    rewrite !add_to_screen_app. cbn [screen add_to_screen app rows].
    by rewrite Hsilent.
Qed.

(** ** Which unknown value is reported *)

(** X29. [predict_price] stops at the first model feature whose value its
    encoder does not know: when the features before it are fine, the one
    warning shown names that feature and that value, whatever the later
    features hold (unknown values, or no value at all), and the forest is
    not asked. *)
Theorem predict_price_first_unknown (prediction_model : Model)
    (encoders : gmap string LabelEncoder) (before after : list string)
    (feature : string) (value : scalar) (inputs : gmap string scalar)
    (w : world) :
  (∀ f, f ∈ before → is_Some (encoded_value encoders inputs f)) →
  unrecognized encoders inputs feature value →
  predict_price prediction_model encoders (before ++ feature :: after) inputs w
  = (inr None,
     add_to_screen w [(st_warning, UnknownCategory feature value)]).
Proof.
  intros Hbefore (enc & Henc & Hvalue & Hnew).
  unfold predict_price, try_except. rewrite run_bind.
  destruct (prepare_input_prefix encoders inputs before (feature :: after) [] w
              Hbefore) as [acc' ->].
  rewrite (prepare_input_encoded_unseen _ _ _ _ _ enc value) by done.
  by py_run.
Qed.
End Dashboard.

(** * Concrete runs *)

Local Open Scope list_scope.

Lemma subset_by_compute (l1 l2 : list string) :
  forallb (λ c, bool_decide (c ∈ l2)) l1 = true → ∀ c, c ∈ l1 → c ∈ l2.
Proof.
  intros H c Hc. apply list_elem_of_In in Hc.
  rewrite forallb_forall in H. specialize (H c Hc).
  by apply bool_decide_eq_true in H.
Defined.

Lemma numeric_column_by_compute (d : DataFrame) (c : string) :
  forallb (λ r, match cell r c with Str _ => false | _ => true end) (rows d) = true →
  numeric_column d c.
Proof.
  intros H r s Hr Hcell. apply list_elem_of_In in Hr.
  rewrite forallb_forall in H. specialize (H r Hr). by rewrite Hcell in H.
Defined.

Lemma none_comparable_by_compute (vehicle_type : string) (ws : widgets)
    (rs : list (gmap string scalar)) :
  forallb (λ r, negb (comparable vehicle_type ws r)) rs = true →
  ∀ r, r ∈ rs → comparable vehicle_type ws r = false.
Proof.
  intros H r Hr. apply list_elem_of_In in Hr.
  rewrite forallb_forall in H. specialize (H r Hr). by apply negb_true_iff in H.
Defined.

Lemma has_value_by_compute (d : DataFrame) (c : string) :
  existsb (λ r, notna (cell r c)) (rows d) = true → has_value d c.
Proof.
  intros H. apply existsb_exists in H as (r & Hr & Hv).
  exists r. split; [by apply list_elem_of_In|done].
Defined.

Lemma some_string_by_compute (d : DataFrame) (c : string) :
  existsb (λ r, is_Str (cell r c)) (rows d) = true →
  ∃ r x, r ∈ rows d ∧ cell r c = Str x.
Proof.
  intros H. apply existsb_exists in H as (r & Hr & Hv).
  destruct (cell r c) as [| |x] eqn:Hx; try discriminate Hv.
  exists r, x. split; [by apply list_elem_of_In|done].
Defined.

Lemma ascii_by_compute (d : DataFrame) (c : string) :
  forallb (λ r, match cell r c with Str x => is_ascii x | _ => true end) (rows d)
  = true →
  ∀ r x, r ∈ rows d → cell r c = Str x → is_ascii x = true.
Proof.
  intros H r x Hr Hx. apply list_elem_of_In in Hr.
  rewrite forallb_forall in H. specialize (H r Hr). by rewrite Hx in H.
Defined.

(** The stand-in for plotly draws whatever is not empty. *)
Lemma sample_chart_draws : plotly_draws sample_chart sample_chart.
Proof. intros v vs. split; reflexivity. Defined.

Lemma filter_skip_incomplete (cols : list string) (r : gmap string scalar)
    (rs : list (gmap string scalar)) :
  complete_on cols r = false →
  List.filter (complete_on cols) (r :: rs) = List.filter (complete_on cols) rs.
Proof. intros H. simpl. by rewrite H. Defined.

(** C1 at a concrete input: a make the encoder has never seen. *)
Lemma unknown_category_rejected_witness :
  (predict_price sample_repr Q sample_predict 70000%Q
     {[ "make" := mkLabelEncoder ["Honda"; "Toyota"] ]} ["make"; "year"]
     {[ "make" := Str "Tesla"; "year" := Num 2018 ]} blank).1 = inr None.
Proof.
  apply unknown_category_rejected.
  exists "make", (Str "Tesla"). split; [by left|].
  exists (mkLabelEncoder ["Honda"; "Toyota"]).
  split; [reflexivity|]. split; [reflexivity|].
  apply (bool_decide_unpack _). vm_compute. exact I.
Defined.

(** C2 at the boundary: 99 complete rows are refused, 100 are trained on. *)
Lemma insufficient_data_gate_witness :
  (train_price_prediction_model sample_repr Q sample_split sample_fit sample_score
     1 "car" (world_with (market 99))).1 = inr (Nones Q)
  ∧ ∃ m le_dict,
      (train_price_prediction_model sample_repr Q sample_split sample_fit
         sample_score 1 "car" (world_with (market 100))).1
      = inr (Some m, Some le_dict, Some 1%Q, Some 1%Q, Some (schema "car")).
Proof.
  split.
  - apply (insufficient_data_gate sample_repr Q sample_split sample_fit sample_score
             (world_with (market 99)) 1 (market 99) "car").
    + reflexivity.
    + apply subset_by_compute. vm_compute. reflexivity.
    + vm_compute. lia.
  - destruct (insufficient_data_gate sample_repr Q sample_split sample_fit
                sample_score (world_with (market 100)) 1 (market 100) "car")
      as [_ Hproceeds].
    + reflexivity.
    + apply subset_by_compute. vm_compute. reflexivity.
    + destruct Hproceeds as (le_dict & d' & X & y & _ & _ & Hy & Hrun).
      { vm_compute. lia. }
      exists (mean (s_values y)), le_dict.
      apply (Hrun X X y y (mean (s_values y)) 1%Q 1%Q); reflexivity.
Defined.

(** C5 at a concrete input: a car table without [fuel_type]. *)
Lemma schema_mismatch_refused_witness :
  ∃ missing,
    (∀ f, f ∈ missing ↔ f ∈ schema "car" ∧ f ∉ column_names market_without_fuel)
    ∧ (train_price_prediction_model sample_repr Q sample_split sample_fit
         sample_score 1 "car" (world_with market_without_fuel)).1 = inr (Nones Q)
    ∧ screen (train_price_prediction_model sample_repr Q sample_split sample_fit
                sample_score 1 "car" (world_with market_without_fuel)).2
      = [(st_warning, MissingFeatures "car" missing)].
Proof.
  destruct (schema_mismatch_refused sample_repr Q sample_split sample_fit
              sample_score (world_with market_without_fuel) 1 market_without_fuel
              "car") as (missing & Hmissing & Hnone & Hscreen & _).
  - reflexivity.
  - exists "fuel_type". split.
    + apply (bool_decide_unpack _). vm_compute. exact I.
    + apply (bool_decide_unpack _). vm_compute. exact I.
  - exists missing. split; [exact Hmissing|]. split; [exact Hnone|exact Hscreen].
Defined.

(** C6 at a concrete input: the same 100 complete listings, once alone in a
    fresh world, once with an incomplete listing in a busy world. *)
Lemma train_deterministic_witness :
  (train_price_prediction_model sample_repr Q sample_split sample_fit sample_score
     1 "car" (world_with (market 100))).1
  = (train_price_prediction_model sample_repr Q sample_split sample_fit sample_score
       5 "car" (busy_world (market_with_gap 100))).1.
Proof.
  apply (train_deterministic sample_repr Q sample_split sample_fit sample_predict
           sample_score (world_with (market 100)) (busy_world (market_with_gap 100))
           1 5 (market 100) (market_with_gap 100) "car").
  - reflexivity.
  - reflexivity.
  - reflexivity.
  - symmetry.
    apply (filter_skip_incomplete _ civic_no_price (replicate 100 civic_2019)).
    vm_compute. reflexivity.
Defined.

(** Why the seed matters: without one, the split reads the global generator
    and two worlds can disagree; with one, they cannot. *)
Lemma unseeded_split_reads_generator :
  training_years
    (train_test_split rotating_split two_civics (mkSeries numeric []) 0.2 None
       (mkWorld ∅ [] 0)).1
  ≠ training_years
      (train_test_split rotating_split two_civics (mkSeries numeric []) 0.2 None
         (mkWorld ∅ [] 1)).1
  ∧ ∀ w1 w2,
      (train_test_split rotating_split two_civics (mkSeries numeric []) 0.2
         (Some 42%nat) w1).1
      = (train_test_split rotating_split two_civics (mkSeries numeric []) 0.2
           (Some 42%nat) w2).1.
Proof.
  split; [|reflexivity].
  intros H. vm_compute in H. discriminate H.
Qed.

(** C7 at a concrete input: the encoders of a training on 100 listings. *)
Lemma encoder_tables_bijective_witness :
  ∃ cl d',
    dropna_frame (schema "car" ++ ["price"]) (market 100) = inr cl
    ∧ encode_frame sample_repr cl (schema "car") ∅ = (inr market_encoders, d').
Proof.
  destruct (encoder_tables_bijective sample_repr Q sample_split sample_fit
              sample_score (world_with (market 100)) 1 (market 100) "car"
              70000%Q market_encoders 1%Q 1%Q (schema "car"))
    as (cl & d' & Hcl & _ & Hrun & _).
  - reflexivity.
  - vm_compute. reflexivity.
  - exists cl, d'. split; [exact Hcl|exact Hrun].
Defined.

(** C4 on the example of the specification: for a 2018 Honda Civic with
    50000 km, of five listings only the 2019 Honda Civic with 60000 km is in;
    the 2021 one, the Toyota, the Honda City and the Civic with 90000 km are
    out; every listing that is in is a Honda Civic; and the page shows one
    row. *)
Lemma similar_listings_rule_witness :
  map (comparable "car" civic_2018_widgets) (rows five_listings)
  = [true; false; false; false; false]
  ∧ similar_filter five_listings "car" (schema "car")
      (collect_inputs "car" (schema "car") civic_2018_widgets)
      (world_with five_listings)
    = (inr (map (comparable "car" civic_2018_widgets) (rows five_listings)),
       world_with five_listings)
  ∧ (∀ r, comparable "car" civic_2018_widgets r = true →
       cell r "make" = Str "Honda" ∧ cell r "model" = Str "Civic")
  ∧ ∃ cs,
      similar_listings sample_repr 1 "car" (schema "car")
        (collect_inputs "car" (schema "car") civic_2018_widgets)
        (world_with five_listings)
      = (inr (),
         add_to_screen (world_with five_listings)
           [(st_write,
             SimilarListings
               (mkDataFrame cs
                  (map (display_row sample_repr "car")
                     (take 5 (List.filter (comparable "car" civic_2018_widgets)
                                (rows five_listings))))))]).
Proof.
  split; [vm_compute; reflexivity|].
  destruct (similar_listings_rule sample_repr (world_with five_listings) 1
              five_listings "car" civic_2018_widgets)
    as (Hfilter & Hshown & _ & Hrule).
  - reflexivity.
  - apply subset_by_compute. vm_compute. reflexivity.
  - apply numeric_column_by_compute. vm_compute. reflexivity.
  - intros _. split.
    + apply (bool_decide_unpack _). vm_compute. exact I.
    + apply numeric_column_by_compute. vm_compute. reflexivity.
  - split; [exact Hfilter|]. split.
    + intros r Hr. apply Hrule in Hr as (Hmake & Hmodel & _).
      cbn [w_make w_model civic_2018_widgets] in Hmake, Hmodel.
      inversion Hmake as [s Hs1 Hs2|]. inversion Hmodel as [t Ht1 Ht2|].
      split; reflexivity.
    + destruct Hshown as (cs & _ & Hrun).
      * unfold five_listings. cbn [rows List.filter].
        replace (comparable "car" civic_2018_widgets civic_2019) with true
          by (vm_compute; reflexivity).
        discriminate.
      * apply subset_by_compute. vm_compute. reflexivity.
      * exists cs. exact Hrun.
Defined.

(** C8 at a concrete input: nobody sells a Proton Saga here. *)
Lemma empty_comparables_not_error_witness :
  similar_listings sample_repr 1 "car" (schema "car")
    (collect_inputs "car" (schema "car") proton_widgets) (world_with two_civics)
  = (inr (), add_to_screen (world_with two_civics) [(st_info, NoSimilarListings)]).
Proof.
  apply (empty_comparables_not_error sample_repr (world_with two_civics) 1
           two_civics "car" proton_widgets).
  - reflexivity.
  - apply subset_by_compute. vm_compute. reflexivity.
  - apply numeric_column_by_compute. vm_compute. reflexivity.
  - intros _. split.
    + apply (bool_decide_unpack _). vm_compute. exact I.
    + apply numeric_column_by_compute. vm_compute. reflexivity.
  - apply none_comparable_by_compute. vm_compute. reflexivity.
Defined.

(** C9 as amended, at a concrete export: the listing with both readings has
    their average, 54999.5, and the listing without has none. *)
Lemma loader_car_listing_witness :
  ∃ l d,
    (load_car_data sample_parse sample_int64 (inr export) 2024 blank).1 = inr l
    ∧ heap (load_car_data sample_parse sample_int64 (inr export) 2024 blank).2 !! l
      = Some d
    ∧ map (λ r, cell r "mileage_avg") (rows d) = [Num (109999 # 2); NaN]
    ∧ ∀ r, r ∈ rows d →
        (cell r "mileage_min" = NaN ∨ cell r "mileage_max" = NaN →
         cell r "mileage_avg" = NaN)
        ∧ (cell r "mileage_min" = Num 50000 → cell r "mileage_max" = Num 59999 →
           ∃ avg, cell r "mileage_avg" = Num avg
                  ∧ (avg == (50000 + 59999) / 2)%Q).
Proof.
  destruct (loader_car_listing sample_parse sample_int64 ascii_lower export 2024
              blank) as [Hload _].
  - apply subset_by_compute. vm_compute. reflexivity.
  - destruct Hload as (l & d & Hl & Hd & Hrows).
    exists l, d. split; [exact Hl|]. split; [exact Hd|]. split.
    + assert (l = 1%nat) as ->.
      { vm_compute in Hl. injection Hl as <-. reflexivity. }
      assert (match heap (load_car_data sample_parse sample_int64 (inr export)
                            2024 blank).2 !! 1%nat with
              | Some d => Some (map (λ r, cell r "mileage_avg") (rows d))
              | None => None
              end = Some [Num (109999 # 2); NaN]) as Hcells.
      { vm_compute. reflexivity. }
      rewrite Hd in Hcells. injection Hcells as Hcells. exact Hcells.
    + intros r Hr.
      destruct (Hrows r Hr) as (r0 & _ & _ & _ & Hgap & Havg & _).
      split; [exact Hgap|]. intros Hmin Hmax.
      destruct (Havg 50000%Q 59999%Q 50000%Z 59999%Z Hmin Hmax)
        as (avg & Hcell & Heq & _).
      * reflexivity.
      * reflexivity.
      * vm_compute. reflexivity.
      * vm_compute. reflexivity.
      * exists avg. split; [exact Hcell|exact Heq].
Defined.

(** [round64] against the floats of the kernel: the constant 0.15, the two
    factors of the price range, the range of some estimates (5400, 70000,
    12345.67, 0.01, 999999.99) and the sum of 0.1 and 0.2 are, bit for bit,
    what binary64 arithmetic gives. *)
Lemma round64_is_binary64 :
  let c := (float_of 15 / float_of 100)%float in
  float_value c = confidence_range
  ∧ float_value (float_of 1 - c) = float_sub 1 confidence_range
  ∧ float_value (float_of 1 + c) = float_add 1 confidence_range
  ∧ forallb
      (λ n, let p := (float_of n / float_of 100)%float in
            Qeq_bool (float_value p) (round64 (inject_Z n / 100))
            && Qeq_bool (float_value (p * (float_of 1 - c)))
                 (price_range (float_value p)).1
            && Qeq_bool (float_value (p * (float_of 1 + c)))
                 (price_range (float_value p)).2)
      [540000; 7000000; 1234567; 1; 99999999]%Z = true
  ∧ float_value (float_of 1 / float_of 10 + float_of 2 / float_of 10)
    = float_add (round64 0.1) (round64 0.2)
  ∧ float_value (float_of 5400 * (float_of 1 + c))
    = (6827967208488959 # 1099511627776)%Q.
Proof. vm_compute. repeat split; reflexivity. Qed.

(** Below the normal floats the range collapses: at the smallest float, which
    is a price the loader keeps, both bounds are the estimate itself. *)
Lemma smallest_estimate_has_no_band :
  price_range (pow2 (-1074)) = (Qred (pow2 (-1074)), Qred (pow2 (-1074))).
Proof. vm_compute. reflexivity. Qed.

(** C3 as amended, at an estimate of 5400: the range goes from 4590 to the
    float just below 6210. *)
Lemma price_band_witness :
  (price_range 5400).1 = 4590%Q
  ∧ (price_range 5400).2 = (6827967208488959 # 1099511627776)%Q
  ∧ ((price_range 5400).1 < 5400)%Q ∧ (5400 < (price_range 5400).2)%Q
  ∧ (Qabs ((price_range 5400).2 - 5400 * 1.15) <= 5400 * pow2 (-52))%Q.
Proof.
  destruct (price_band sample_repr 1 "car" (schema "car") ∅ 5400%Q blank)
    as (_ & _ & _ & _ & Hnear & Hlow & Hhigh).
  - apply Qle_bool_iff. vm_compute. reflexivity.
  - apply Qle_bool_iff. vm_compute. reflexivity.
  - split; [vm_compute; reflexivity|]. split; [vm_compute; reflexivity|].
    split; [exact Hlow|]. split; [exact Hhigh|exact Hnear].
Defined.

(** C3 as stated fails on ordinary listings.  From an export of 100 listings
    at RM 5400 the loader keeps them all, the page estimates 5400, and the
    upper bound it shows is not 5400 times 1.15, which is 6210, but the
    float below it, 6209.999999999999: the bounds are float products. *)
Lemma suggested_range_is_rounded :
  let loaded :=
    load_car_data sample_parse sample_int64 (inr (export_at 5400 100)) 2024 blank in
  ∃ df lower_bound upper_bound,
    loaded.1 = inr df
    ∧ (∃ d, heap loaded.2 !! df = Some d ∧ length (rows d) = 100%nat)
    ∧ let w' := (render_price_prediction sample_repr Q sample_split sample_fit
                   sample_predict sample_score sample_int df "car"
                   civic_2018_widgets loaded.2).2 in
      screen w' !! 1%nat = Some (st_success, EstimatedPrice 5400)
      ∧ screen w' !! 2%nat
        = Some (st_info, SuggestedPriceRange lower_bound upper_bound)
      ∧ (lower_bound == 5400 * 0.85)%Q
      ∧ ¬ (upper_bound == 5400 * 1.15)%Q
      ∧ (upper_bound < 5400 * 1.15)%Q.
Proof.
  cbn zeta. exists 1%nat. eexists _, _.
  split; [vm_compute; reflexivity|]. split.
  { assert (match heap (load_car_data sample_parse sample_int64
                          (inr (export_at 5400 100)) 2024 blank).2 !! 1%nat with
            | Some d => length (rows d)
            | None => 0%nat
            end = 100%nat) as Hlen by (vm_compute; reflexivity).
    destruct (heap _ !! 1%nat) as [d|]; [|discriminate Hlen].
    exists d. split; [reflexivity|exact Hlen]. }
  split; [vm_compute; reflexivity|]. split; [vm_compute; reflexivity|].
  split; [vm_compute; reflexivity|]. split.
  - intros Heq. vm_compute in Heq. discriminate Heq.
  - vm_compute. reflexivity.
Qed.

(** C9 as stated fails on an ordinary export: the loader returns "Petrol"
    with its capital letter, and a listing without odometer readings with a
    missing [mileage_avg]. *)
Lemma loader_keeps_case_and_gaps :
  ∃ l d r1 r2,
    (load_car_data sample_parse sample_int64 (inr export) 2024 blank).1 = inr l
    ∧ heap (load_car_data sample_parse sample_int64 (inr export) 2024 blank).2 !! l
      = Some d
    ∧ rows d = [r1; r2]
    ∧ cell r1 "fuel_type" = Str "Petrol"
    ∧ cell r2 "mileage_avg" = NaN
    ∧ ¬ car_listing_as_specified r1
    ∧ ¬ car_listing_as_specified r2.
Proof.
  exists 1%nat.
  assert (match heap (load_car_data sample_parse sample_int64 (inr export) 2024
                        blank).2 !! 1%nat with
          | Some d =>
              Some (map (λ r, (cell r "fuel_type", cell r "mileage_avg")) (rows d))
          | None => None
          end
          = Some [(Str "Petrol", Num (109999 # 2)); (Str "diesel", NaN)]) as Hcells.
  { vm_compute. reflexivity. }
  destruct (heap (load_car_data sample_parse sample_int64 (inr export) 2024
                    blank).2 !! 1%nat)
    as [d|]; [|discriminate Hcells].
  cbn in Hcells. destruct (rows d) as [|r1 [|r2 [|r3 rs]]] eqn:Hrows;
    try discriminate Hcells.
  cbn in Hcells. injection Hcells as Hfuel1 Havg1 Hfuel2 Havg2.
  exists d, r1, r2.
  split; [vm_compute; reflexivity|].
  split; [reflexivity|]. split; [exact Hrows|].
  split; [exact Hfuel1|]. split; [exact Havg2|]. split.
  - intros [_ (s & Hs & Hlower)]. rewrite Hfuel1 in Hs. injection Hs as <-.
    vm_compute in Hlower. discriminate Hlower.
  - intros [(lo & hi & avg & _ & _ & Havg & _) _]. rewrite Havg2 in Havg.
    discriminate Havg.
Qed.

(** Beyond 2^52 the average is no longer exact.  Two readings of 2^63 - 1
    average to -1 when pandas holds the two columns as [int64], the sum
    wrapping around, and to 2^63 when it holds them as floats, each reading
    rounded first. *)
Lemma far_readings :
  (∃ d, heap (load_car_data sample_parse (λ _, true) (inr export_far) 2024
                blank).2 !! 1%nat = Some d
        ∧ map (λ r, cell r "mileage_avg") (rows d) = [Num (-1)])
  ∧ (∃ d, heap (load_car_data sample_parse (λ _, false) (inr export_far) 2024
                  blank).2 !! 1%nat = Some d
          ∧ map (λ r, cell r "mileage_avg") (rows d)
            = [Num 9223372036854775808]).
Proof.
  split.
  - assert (match heap (load_car_data sample_parse (λ _, true) (inr export_far)
                          2024 blank).2 !! 1%nat with
            | Some d => Some (map (λ r, cell r "mileage_avg") (rows d))
            | None => None
            end = Some [Num (-1)]) as Hcells by (vm_compute; reflexivity).
    destruct (heap _ !! 1%nat) as [d|]; [|discriminate Hcells].
    exists d. split; [reflexivity|]. by injection Hcells.
  - assert (match heap (load_car_data sample_parse (λ _, false) (inr export_far)
                          2024 blank).2 !! 1%nat with
            | Some d => Some (map (λ r, cell r "mileage_avg") (rows d))
            | None => None
            end = Some [Num 9223372036854775808]) as Hcells
      by (vm_compute; reflexivity).
    destruct (heap _ !! 1%nat) as [d|]; [|discriminate Hcells].
    exists d. split; [reflexivity|]. by injection Hcells.
Qed.

(** ** Concrete runs of the further properties *)

Lemma numeric_dtypes_by_compute (d : DataFrame) (cols : list string) :
  forallb (λ f, match getitem d f with
                | inr s => bool_decide (s_dtype s = numeric)
                | inl _ => true
                end) cols = true →
  ∀ f s, f ∈ cols → getitem d f = inr s → s_dtype s = numeric.
Proof.
  intros H f s Hf Hs. apply list_elem_of_In in Hf.
  rewrite forallb_forall in H. specialize (H f Hf). rewrite Hs in H.
  by apply bool_decide_eq_true in H.
Defined.

(** X1 at a concrete input: a known make is encoded and the forest asked. *)
Lemma predict_price_encodes_witness :
  (predict_price sample_repr Q sample_predict 70000%Q make_encoder
     ["make"; "year"] toyota_2018 blank).1 = inr (Some 70000%Q).
Proof.
  destruct (predict_price_encodes sample_repr Q sample_predict 70000%Q
              make_encoder ["make"; "year"] toyota_2018 blank) as [_ Hrun].
  - apply (bool_decide_unpack _). vm_compute. exact I.
  - intros f Hf.
    apply elem_of_cons in Hf as [->|Hf]; [vm_compute; by eexists|].
    apply elem_of_cons in Hf as [->|Hf]; [vm_compute; by eexists|].
    by apply elem_of_nil in Hf.
  - rewrite Hrun. reflexivity.
Defined.

(** X3 at a concrete input: the year was not supplied. *)
Lemma predict_price_missing_input_witness :
  predict_price sample_repr Q sample_predict 70000%Q make_encoder
    ["make"; "year"] {[ "make" := Str "Honda" ]} blank
  = (inr None,
     add_to_screen blank [(st_error, ErrorInPrediction (KeyError "year"))]).
Proof.
  apply (predict_price_missing_input sample_repr Q sample_predict 70000%Q
           make_encoder ["make"] [] "year" {[ "make" := Str "Honda" ]} blank).
  - intros f Hf.
    apply elem_of_cons in Hf as [->|Hf]; [vm_compute; by eexists|].
    by apply elem_of_nil in Hf.
  - reflexivity.
Defined.

(** X4 at a concrete input: a colour among the inputs changes nothing. *)
Lemma predict_price_reads_model_features_witness :
  predict_price sample_repr Q sample_predict 70000%Q make_encoder
    ["make"; "year"] toyota_2018 blank
  = predict_price sample_repr Q sample_predict 70000%Q make_encoder
      ["make"; "year"] (<["colour" := Str "red"]> toyota_2018) blank.
Proof.
  apply (predict_price_reads_model_features sample_repr Q sample_predict).
  intros f Hf.
  apply elem_of_cons in Hf as [->|Hf]; [vm_compute; reflexivity|].
  apply elem_of_cons in Hf as [->|Hf]; [vm_compute; reflexivity|].
  by apply elem_of_nil in Hf.
Defined.

(** X5 at a concrete input: a car table without [price]. *)
Lemma train_without_price_witness :
  (train_price_prediction_model sample_repr Q sample_split sample_fit sample_score
     1 "car" (world_with market_without_price)).1 = inr (Nones Q)
  ∧ screen (train_price_prediction_model sample_repr Q sample_split sample_fit
              sample_score 1 "car" (world_with market_without_price)).2
    = [(st_error, ErrorInDataPreparation (KeyError "price"))].
Proof.
  apply (train_without_price sample_repr Q sample_split sample_fit sample_score
           (world_with market_without_price) 1 market_without_price "car").
  - reflexivity.
  - apply subset_by_compute. vm_compute. reflexivity.
  - apply (bool_decide_unpack _). vm_compute. exact I.
Defined.

(** X6 at a concrete input: the split refuses 100 good listings. *)
Lemma train_library_failures_witness :
  (train_price_prediction_model sample_repr Q failing_split sample_fit sample_score
     1 "car" (world_with (market 100))).1 = inr (Nones Q)
  ∧ screen (train_price_prediction_model sample_repr Q failing_split sample_fit
              sample_score 1 "car" (world_with (market 100))).2
    = [(st_error,
        ErrorInDataPreparation
          (ValueError "the resulting train set will be empty"))].
Proof.
  destruct (train_library_failures sample_repr Q failing_split sample_fit
              sample_score (world_with (market 100)) 1 (market 100) "car")
    as (le_dict & d' & X & y & _ & _ & _ & Hsplit & _).
  - reflexivity.
  - apply subset_by_compute. vm_compute. reflexivity.
  - vm_compute. lia.
  - exact (Hsplit _ eq_refl).
Defined.

(** X7 at a concrete input: 99 listings give no model and one message. *)
Lemma train_all_or_nothing_witness :
  ∃ lv msg,
    screen (train_price_prediction_model sample_repr Q sample_split sample_fit
              sample_score 1 "car" (world_with (market 99))).2
    = [(lv, msg)].
Proof.
  destruct (train_all_or_nothing sample_repr Q sample_split sample_fit
              sample_score (world_with (market 99)) 1 (market 99) "car")
    as [[_ (lv & msg & Hscreen & _)]|(m & le & s1 & s2 & Hval & _)].
  - reflexivity.
  - exists lv, msg. exact Hscreen.
  - vm_compute in Hval. discriminate Hval.
Defined.

(** X8 at a concrete input: the table of 100 listings after the page. *)
Lemma page_leaves_caller_tables_witness :
  heap (render_price_prediction sample_repr Q sample_split sample_fit
          sample_predict sample_score sample_int 1 "car" civic_2018_widgets
          (world_with (market 100))).2 !! 1%nat
  = Some (market 100).
Proof.
  apply (page_leaves_caller_tables sample_repr Q sample_split sample_fit
           sample_predict sample_score sample_int 1 "car" civic_2018_widgets
           (world_with (market 100)) 1%nat (market 100)).
  reflexivity.
Defined.

(** X9 at a concrete input: 100 motorcycles listed by catalogue number. *)
Lemma page_refuses_model_without_encoders_witness :
  screen (render_price_prediction sample_repr Q sample_split sample_fit
            sample_predict sample_score sample_int 1 "motorcycle" coded_widgets
            (world_with (coded_market 100))).2
  = [(st_error, FailedToInitialize)].
Proof.
  destruct (page_refuses_model_without_encoders sample_repr Q sample_split
              sample_fit sample_predict sample_score sample_int
              (world_with (coded_market 100)) 1 (coded_market 100) "motorcycle"
              coded_widgets 4000%Q ∅ 1%Q 1%Q (schema "motorcycle"))
    as (_ & _ & Hscreen).
  - reflexivity.
  - apply numeric_dtypes_by_compute. vm_compute. reflexivity.
  - vm_compute. reflexivity.
  - exact Hscreen.
Defined.

(** X10 at a concrete input: a comparable listing, but no [ad_url]. *)
Lemma similar_listings_need_display_columns_witness :
  ∃ c,
    similar_listings sample_repr 1 "car" (schema "car")
      (collect_inputs "car" (schema "car") civic_2018_widgets)
      (world_with two_civics_without_link)
    = (inl (KeyError c), world_with two_civics_without_link).
Proof.
  destruct (similar_listings_need_display_columns sample_repr
              (world_with two_civics_without_link) 1 two_civics_without_link
              "car" civic_2018_widgets 70000%Q)
    as (c & _ & _ & Hrun & _).
  - reflexivity.
  - apply subset_by_compute. vm_compute. reflexivity.
  - apply numeric_column_by_compute. vm_compute. reflexivity.
  - intros _. split.
    + apply (bool_decide_unpack _). vm_compute. exact I.
    + apply numeric_column_by_compute. vm_compute. reflexivity.
  - exists (delete "ad_url" civic_2019). split; [by left|].
    vm_compute. reflexivity.
  - exists "ad_url". split.
    + apply (bool_decide_unpack _). vm_compute. exact I.
    + apply (bool_decide_unpack _). vm_compute. exact I.
  - exists c. exact Hrun.
Defined.

(** X12 at a concrete export. *)
Lemma loader_listings_in_range_witness :
  ∃ l d,
    (load_car_data sample_parse sample_int64 (inr export) 2024 blank).1 = inr l
    ∧ heap (load_car_data sample_parse sample_int64 (inr export) 2024 blank).2 !! l = Some d
    ∧ ∀ r, r ∈ rows d →
        ∃ p, cell r "price" = Num p ∧ (0 < p)%Q ∧ (p < 1000000)%Q.
Proof.
  destruct (loader_listings_in_range sample_parse sample_int64 export 2024 blank)
    as (l & d & Hl & Hd & _ & Hrows).
  - apply (bool_decide_unpack _). vm_compute. exact I.
  - apply (bool_decide_unpack _). vm_compute. exact I.
  - exists l, d. split; [exact Hl|]. split; [exact Hd|].
    intros r Hr. destruct (Hrows r Hr) as (p & y & Hp & Hpos & Hcap & _).
    exists p. split; [exact Hp|]. split; [exact Hpos|exact Hcap].
Defined.

(** X13 at a concrete export. *)
Lemma loader_keeps_order_and_other_columns_witness :
  ∃ l d kept,
    (load_car_data sample_parse sample_int64 (inr export) 2024 blank).1 = inr l
    ∧ heap (load_car_data sample_parse sample_int64 (inr export) 2024 blank).2 !! l = Some d
    ∧ sublist kept (rows export)
    ∧ Forall2 (λ r r0, ∀ c, c ∉ loader_columns → r !! c = r0 !! c) (rows d) kept.
Proof.
  apply (loader_keeps_order_and_other_columns sample_parse sample_int64 export 2024 blank).
  - apply (bool_decide_unpack _). vm_compute. exact I.
  - apply (bool_decide_unpack _). vm_compute. exact I.
Defined.

(** X17 at a concrete export without odometer columns. *)
Lemma loader_without_odometer_witness :
  ∃ l,
    (load_car_data sample_parse sample_int64 (inr export_without_odometer) 2024 blank).1 = inr l
    ∧ (train_price_prediction_model sample_repr Q sample_split sample_fit
         sample_score l "car"
         (load_car_data sample_parse sample_int64 (inr export_without_odometer) 2024 blank).2).1
      = inr (Nones Q).
Proof.
  destruct (loader_without_odometer sample_repr Q sample_split sample_fit
              sample_score sample_parse sample_int64 export_without_odometer 2024 blank)
    as (l & d & Hl & _ & _ & _ & Htrain).
  - apply (bool_decide_unpack _). vm_compute. exact I.
  - apply (bool_decide_unpack _). vm_compute. exact I.
  - intros [Hmin _]. revert Hmin. apply (bool_decide_unpack _).
    vm_compute. exact I.
  - exists l. split; [exact Hl|]. apply Htrain.
    apply (bool_decide_unpack _). vm_compute. exact I.
Defined.

(** X18 at a concrete input: two listings with a capital in [fuel_type]. *)
Lemma market_overview_writes_two_columns_witness :
  ∃ d2,
    render_market_overview ascii_lower sample_chart sample_chart sample_figures
      1 "car" (world_with (market_mixed_case 2))
    = (inr (), put_frame (world_with (market_mixed_case 2)) 1 d2)
    ∧ (∀ c, c ∈ column_names d2
            ↔ c = "price_segment" ∨ c ∈ column_names (market_mixed_case 2))
    ∧ map (λ r, cell r "fuel_type") (rows d2) = [Str "petrol"; Str "petrol"].
Proof.
  destruct (market_overview_writes_two_columns ascii_lower sample_chart
              sample_chart sample_figures (world_with (market_mixed_case 2))
              1 (market_mixed_case 2)
              (mkSeries object [Str "Petrol"; Str "Petrol"]))
    as (d2 & Hrun & Hcols & Hrows & _).
  - exact sample_chart_draws.
  - reflexivity.
  - apply subset_by_compute. vm_compute. reflexivity.
  - apply numeric_column_by_compute. vm_compute. reflexivity.
  - vm_compute. reflexivity.
  - reflexivity.
  - apply has_value_by_compute. vm_compute. reflexivity.
  - apply has_value_by_compute. vm_compute. reflexivity.
  - apply some_string_by_compute. vm_compute. reflexivity.
  - exists d2. split; [exact Hrun|]. split; [exact Hcols|].
    unfold market_mixed_case in Hrows. cbn [rows replicate] in Hrows.
    inversion Hrows as [|r2a ra rs2 rsa (_ & Ha & _) Hrest]; subst.
    inversion Hrest as [|r2b rb rs2' rsb (_ & Hb & _) Hnil]; subst.
    inversion Hnil; subst.
    change (cell r2a "fuel_type" = Str (ascii_lower "Petrol")) in Ha.
    change (cell r2b "fuel_type" = Str (ascii_lower "Petrol")) in Hb.
    cbn [map]. rewrite Ha, Hb. reflexivity.
Defined.

(** X19 at a concrete input. *)
Lemma market_overview_idempotent_witness :
  ∃ w1,
    render_market_overview ascii_lower sample_chart sample_chart sample_figures
      1 "car" (world_with (market_mixed_case 2)) = (inr (), w1)
    ∧ render_market_overview ascii_lower sample_chart sample_chart sample_figures
        1 "car" w1 = (inr (), w1).
Proof.
  apply (market_overview_idempotent ascii_lower sample_chart sample_chart
           sample_figures (world_with (market_mixed_case 2)) 1
           (market_mixed_case 2) (mkSeries object [Str "Petrol"; Str "Petrol"])).
  - exact sample_chart_draws.
  - intros x _. reflexivity.
  - reflexivity.
  - apply subset_by_compute. vm_compute. reflexivity.
  - apply numeric_column_by_compute. vm_compute. reflexivity.
  - vm_compute. reflexivity.
  - reflexivity.
  - apply has_value_by_compute. vm_compute. reflexivity.
  - apply has_value_by_compute. vm_compute. reflexivity.
  - apply some_string_by_compute. vm_compute. reflexivity.
  - apply ascii_by_compute. vm_compute. reflexivity.
Defined.

(** X20 at concrete inputs: no [price] column; fuel types never filled in. *)
Lemma market_overview_failures_witness :
  render_market_overview ascii_lower sample_chart sample_chart sample_figures
    1 "car" (world_with market_without_price)
  = (inl (KeyError "price"), world_with market_without_price)
  ∧ ∃ d1,
      render_market_overview ascii_lower sample_chart sample_chart sample_figures
        1 "car" (world_with market_without_fuel_types)
      = (inl AttributeError, put_frame (world_with market_without_fuel_types) 1 d1)
      ∧ "price_segment" ∈ column_names d1.
Proof.
  split.
  - apply (market_overview_failures ascii_lower sample_chart sample_chart
             sample_figures (world_with market_without_price) 1
             market_without_price "car"); [reflexivity|].
    apply (bool_decide_unpack _). vm_compute. exact I.
  - destruct (market_overview_failures ascii_lower sample_chart sample_chart
                sample_figures (world_with market_without_fuel_types) 1
                market_without_fuel_types "car") as [_ Hfuel]; [reflexivity|].
    destruct (Hfuel (mkSeries numeric [NaN])) as (d1 & Hrun & Hseg & _).
    + exact sample_chart_draws.
    + apply subset_by_compute. vm_compute. reflexivity.
    + apply numeric_column_by_compute. vm_compute. reflexivity.
    + apply has_value_by_compute. vm_compute. reflexivity.
    + apply has_value_by_compute. vm_compute. reflexivity.
    + vm_compute. reflexivity.
    + reflexivity.
    + exists d1. split; [exact Hrun|exact Hseg].
Defined.

(** X21 at a concrete input: 100 listings that say ``Petrol''. *)
Lemma overview_then_train_lower_case_witness :
  ∃ enc, market_encoders !! "fuel_type" = Some enc
    ∧ ∀ c, c ∈ classes_ enc → c = "petrol".
Proof.
  destruct (overview_then_train_lower_case sample_repr Q sample_split sample_fit
              sample_score ascii_lower sample_chart sample_chart sample_figures
              (world_with (market_mixed_case 100)) 1
              (market_mixed_case 100)
              (mkSeries object (replicate 100 (Str "Petrol")))
              70000%Q market_encoders 1%Q 1%Q (schema "car"))
    as (enc & Henc & Hlower).
  - exact sample_chart_draws.
  - reflexivity.
  - apply subset_by_compute. vm_compute. reflexivity.
  - apply numeric_column_by_compute. vm_compute. reflexivity.
  - vm_compute. reflexivity.
  - reflexivity.
  - apply has_value_by_compute. vm_compute. reflexivity.
  - apply has_value_by_compute. vm_compute. reflexivity.
  - apply some_string_by_compute. vm_compute. reflexivity.
  - vm_compute. reflexivity.
  - exists enc. split; [exact Henc|]. intros c Hc.
    destruct (Hlower c Hc) as (r & x & Hr & Hx & -> & _).
    unfold market_mixed_case in Hr. cbn [rows] in Hr.
    apply elem_of_replicate in Hr as [-> _].
    vm_compute in Hx. injection Hx as <-. reflexivity.
Defined.

(** X22 at a concrete input: Hondas up to RM 80000. *)
Lemma apply_filters_rule_witness :
  ∃ filtered_df w',
    apply_filters 1 (0, 80000)%Z (2000, 2030)%Z ["Honda"] (world_with two_civics)
    = (inr filtered_df, w')
    ∧ heap w' !! filtered_df
      = Some (mkDataFrame (columns two_civics)
                (List.filter
                   (passes_filters (0, 80000)%Z (2000, 2030)%Z ["Honda"])
                   (rows two_civics)))
    ∧ heap w' !! 1%nat = Some two_civics.
Proof.
  destruct (apply_filters_rule (world_with two_civics) 1 two_civics
              (0, 80000)%Z (2000, 2030)%Z ["Honda"])
    as (l & w' & Hrun & _ & Hl & Hsub & _).
  - reflexivity.
  - apply (bool_decide_unpack _). vm_compute. exact I.
  - apply (bool_decide_unpack _). vm_compute. exact I.
  - intros _. apply (bool_decide_unpack _). vm_compute. exact I.
  - apply numeric_column_by_compute. vm_compute. reflexivity.
  - apply numeric_column_by_compute. vm_compute. reflexivity.
  - exists l, w'. split; [exact Hrun|]. split; [exact Hl|].
    eapply lookup_weaken; [|exact Hsub]. reflexivity.
Defined.

(** X23 at a concrete input. *)
Lemma overview_writes_to_filtered_copy_witness :
  heap ((apply_filters 1 (0, 80000)%Z (2000, 2030)%Z ["Honda"]
         ≫= λ filtered_df,
              render_market_overview ascii_lower sample_chart sample_chart
                sample_figures filtered_df "car")
          (world_with two_civics)).2 !! 1%nat
  = Some two_civics.
Proof.
  apply (overview_writes_to_filtered_copy ascii_lower sample_chart sample_chart
           sample_figures (world_with two_civics) 1
           (0, 80000)%Z (2000, 2030)%Z ["Honda"] "car" 1%nat two_civics).
  reflexivity.
Defined.

(** X25 at a concrete input: a listing of the training table is priced. *)
Lemma trained_listing_is_priced_witness :
  (predict_price sample_repr Q sample_predict 70000%Q market_encoders
     (schema "car") civic_2019 blank).1 = inr (Some 70000%Q).
Proof.
  destruct (trained_listing_is_priced sample_repr Q sample_split sample_fit
              sample_predict sample_score (world_with (market 100)) blank 1
              (market 100) "car" 70000%Q market_encoders 1%Q 1%Q (schema "car")
              civic_2019 civic_2019) as (_ & _ & Hrun).
  - reflexivity.
  - vm_compute. reflexivity.
  - change (civic_2019 ∈ civic_2019 :: replicate 99 civic_2019). by left.
  - vm_compute. reflexivity.
  - intros f Hf.
    repeat (apply elem_of_cons in Hf as [->|Hf]; [vm_compute; reflexivity|]).
    by apply elem_of_nil in Hf.
  - rewrite Hrun. reflexivity.
Defined.

(** X26 at concrete inputs: one motorcycle; one without a model; none. *)
Lemma market_overview_motorcycle_witness :
  (render_market_overview ascii_lower sample_chart sample_chart sample_figures
     1 "motorcycle" (world_with motorcycles)).1 = inr ()
  ∧ (render_market_overview ascii_lower sample_chart sample_chart sample_figures
       1 "motorcycle" (world_with motorcycles_without_models)).1
    = inl (ValueError "nothing to draw")
  ∧ (render_market_overview ascii_lower sample_chart sample_chart sample_figures
       1 "motorcycle" (world_with (mkDataFrame (columns motorcycles) []))).1
    = inl (ValueError "nothing to draw").
Proof.
  split; [|split].
  - destruct (market_overview_motorcycle ascii_lower sample_chart sample_chart
                sample_figures (world_with motorcycles) 1 motorcycles
                "motorcycle" "nothing to draw") as [_ Hsome].
    + discriminate.
    + exact sample_chart_draws.
    + reflexivity.
    + reflexivity.
    + apply subset_by_compute. vm_compute. reflexivity.
    + apply numeric_column_by_compute. vm_compute. reflexivity.
    + erewrite Hsome; [reflexivity| | | | |].
      * apply has_value_by_compute. vm_compute. reflexivity.
      * apply has_value_by_compute. vm_compute. reflexivity.
      * vm_compute. reflexivity.
      * vm_compute. reflexivity.
      * reflexivity.
  - destruct (market_overview_motorcycle ascii_lower sample_chart sample_chart
                sample_figures (world_with motorcycles_without_models) 1
                motorcycles_without_models "motorcycle" "nothing to draw")
      as [Hnone _].
    + discriminate.
    + exact sample_chart_draws.
    + reflexivity.
    + reflexivity.
    + apply subset_by_compute. vm_compute. reflexivity.
    + apply numeric_column_by_compute. vm_compute. reflexivity.
    + rewrite Hnone; [reflexivity|]. right. intros (r & Hr & Hv).
      unfold motorcycles_without_models in Hr. cbn [rows] in Hr.
      apply elem_of_cons in Hr as [->|Hr]; [|by apply elem_of_nil in Hr].
      vm_compute in Hv. discriminate Hv.
  - destruct (market_overview_motorcycle ascii_lower sample_chart sample_chart
                sample_figures
                (world_with (mkDataFrame (columns motorcycles) [])) 1
                (mkDataFrame (columns motorcycles) []) "motorcycle"
                "nothing to draw")
      as [Hnone _].
    + discriminate.
    + exact sample_chart_draws.
    + reflexivity.
    + reflexivity.
    + apply subset_by_compute. vm_compute. reflexivity.
    + apply numeric_column_by_compute. vm_compute. reflexivity.
    + rewrite Hnone; [reflexivity|]. left. intros (r & Hr & _).
      by apply elem_of_nil in Hr.
Defined.

Lemma same_types_by_compute (cols : list string) (cs1 cs2 : list (string * dtype)) :
  forallb (λ c, bool_decide (snd <$> list_find (λ cd, cd.1 = c) cs1
                             = snd <$> list_find (λ cd, cd.1 = c) cs2)) cols
  = true →
  ∀ c, c ∈ cols →
    snd <$> list_find (λ cd, cd.1 = c) cs1 = snd <$> list_find (λ cd, cd.1 = c) cs2.
Proof.
  intros H c Hc. apply list_elem_of_In in Hc.
  rewrite forallb_forall in H. specialize (H c Hc).
  by apply bool_decide_eq_true in H.
Defined.

(** X27 at a concrete input: the same 100 listings, with and without their
    location, age and link. *)
Lemma train_ignores_other_columns_witness :
  (train_price_prediction_model sample_repr Q sample_split sample_fit sample_score
     1 "car" (world_with (market 100))).1
  = (train_price_prediction_model sample_repr Q sample_split sample_fit sample_score
       1 "car" (world_with (market_with_details 100))).1.
Proof.
  apply (train_ignores_other_columns sample_repr Q sample_split sample_fit
           sample_score (world_with (market 100))
           (world_with (market_with_details 100)) 1 1 (market 100)
           (market_with_details 100) "car").
  - reflexivity.
  - reflexivity.
  - split.
    + apply same_types_by_compute. vm_compute. reflexivity.
    + apply Forall2_replicate. intros c Hc.
      repeat (apply elem_of_cons in Hc as [->|Hc]; [vm_compute; reflexivity|]).
      by apply elem_of_nil in Hc.
Defined.

(** X28 at a concrete input: a 2018 Honda Civic on a table of 100 Civics of
    2018. *)
Lemma page_shows_in_order_witness :
  ∃ similar,
    screen (render_price_prediction sample_repr Q sample_split sample_fit
              sample_predict sample_score sample_int 1 "car" civic_2018_widgets
              (world_with (market_2018 100))).2
    = [(st_write, Accuracy 1 1); (st_success, EstimatedPrice 70000);
       (st_info, SuggestedPriceRange (price_range 70000).1 (price_range 70000).2);
       similar;
       (st_write, FeatureImportance (schema "car"))].
Proof.
  destruct (page_shows_in_order sample_repr Q sample_split sample_fit
              sample_predict sample_score sample_int
              (world_with (market_2018 100)) 1 (market_2018 100)
              "car" civic_2018_widgets 70000%Q market_encoders 1%Q 1%Q
              (schema "car") 70000%Q) as (_ & _ & cs & _ & Hscreen).
  - reflexivity.
  - vm_compute. reflexivity.
  - intros Hempty.
    assert (market_encoders !! "make" = None) as Hmake
      by (rewrite Hempty; apply lookup_empty).
    vm_compute in Hmake. discriminate Hmake.
  - vm_compute. reflexivity.
  - vm_compute. reflexivity.
  - apply subset_by_compute. vm_compute. reflexivity.
  - apply numeric_column_by_compute. vm_compute. reflexivity.
  - intros _. apply numeric_column_by_compute. vm_compute. reflexivity.
  - vm_compute. reflexivity.
  - eexists. exact Hscreen.
Defined.

(** The form at concrete inputs.  On listings of 2019 only, Streamlit refuses
    the default year 2018; with one fuel type missing among the listings of
    2018, the options of the select box cannot be sorted.  In both cases the
    page raises after it has shown the accuracies. *)
Lemma input_form_refuses :
  (let out := render_price_prediction sample_repr Q sample_split sample_fit
                sample_predict sample_score sample_int 1 "car"
                civic_2018_widgets (world_with (market 100)) in
   out.1 = inl (LibraryError "StreamlitAPIException")
   ∧ screen out.2 = [(st_write, Accuracy 1 1)])
  ∧ (let out := render_price_prediction sample_repr Q sample_split sample_fit
                  sample_predict sample_score sample_int 1 "car"
                  civic_2018_widgets (world_with (market_2018_with_gap 100)) in
     out.1 = inl TypeError
     ∧ screen out.2 = [(st_write, Accuracy 1 1)]).
Proof. vm_compute. repeat split; reflexivity. Qed.

(** X29 at a concrete input: an unknown make, and no year at all. *)
Lemma predict_price_first_unknown_witness :
  predict_price sample_repr Q sample_predict 70000%Q make_encoder
    ["make"; "year"] {[ "make" := Str "Tesla" ]} blank
  = (inr None,
     add_to_screen blank [(st_warning, UnknownCategory "make" (Str "Tesla"))]).
Proof.
  apply (predict_price_first_unknown sample_repr Q sample_predict 70000%Q
           make_encoder [] ["year"] "make" (Str "Tesla")
           {[ "make" := Str "Tesla" ]} blank).
  - intros f Hf. by apply elem_of_nil in Hf.
  - exists (mkLabelEncoder ["Honda"; "Toyota"]).
    split; [reflexivity|]. split; [reflexivity|].
    apply (bool_decide_unpack _). vm_compute. exact I.
Defined.
